(** * VMAF filter for VapourSynth: the orchestration around libvmaf

    A shallow embedding of [VMAF.cpp]: the three callbacks
    [vmafGetFrame], [vmafFree] and [vmafCreate].  Every call that leaves
    the file (libvmaf, the VapourSynth API) is recorded, with its return
    code, in a trace; the answers of the outside world come from an
    environment that sees the whole history of calls. *)

From stdpp Require Import base tactics decidable option list numbers strings.

Local Open Scope Z_scope.

(** ** Machine integers *)

(** [int] is 32 bits wide; [unsigned] parameters of libvmaf as well. *)
Definition INT_MIN : Z := - 2 ^ 31.
Definition INT_MAX : Z := 2 ^ 31 - 1.
Definition to_int (z : Z) : Z := (z + 2 ^ 31) `mod` 2 ^ 32 - 2 ^ 31.
Definition to_unsigned (z : Z) : Z := z `mod` 2 ^ 32.

(** [size_t] is 64 bits wide: an [int] passed for a [size_t] parameter is
    converted modulo [2 ^ 64]. *)
Definition to_size_t (z : Z) : Z := z `mod` 2 ^ 64.

(** [vsh::int64ToIntS]: saturating conversion behind [mapGetIntSaturated]. *)
Definition int64ToIntS (i : Z) : Z :=
  if INT_MAX <? i then INT_MAX
  else if i <? INT_MIN then INT_MIN
  else i.

(** ** Data of the host (VapourSynth4.h) and of the engine (libvmaf.h) *)

Definition ptr := Z.
Definition nullptr : ptr := 0.

Inductive VSColorFamily := cfUndefined | cfGray | cfRGB | cfYUV.
Inductive VSSampleType := stInteger | stFloat.
Inductive VSActivationReason := arInitial | arAllFramesReady | arError.

Record VSVideoFormat := {
  colorFamily : VSColorFamily;
  sampleType : VSSampleType;
  bitsPerSample : Z;
  bytesPerSample : Z;
  subSamplingW : Z;
  subSamplingH : Z;
  numPlanes : Z
}.

Record VSVideoInfo := {
  format : VSVideoFormat;
  fpsNum : Z;
  fpsDen : Z;
  width : Z;
  height : Z;
  numFrames : Z
}.

(** A node is a clip; its video info never changes. *)
Record VSNode := { node_id : Z; getVideoInfo : VSVideoInfo }.

(** Frame [n] of a node, as [getFrameFilter] hands it out. *)
Record VSFrame := { frame_node : VSNode; frame_n : Z }.

Inductive VmafPixelFormat :=
| VMAF_PIX_FMT_UNKNOWN
| VMAF_PIX_FMT_YUV420P
| VMAF_PIX_FMT_YUV422P
| VMAF_PIX_FMT_YUV444P
| VMAF_PIX_FMT_YUV400P.

(** [enum VmafOutputFormat], by value. *)
Definition VMAF_OUTPUT_FORMAT_NONE : Z := 0.
Definition VMAF_OUTPUT_FORMAT_XML : Z := 1.
Definition VMAF_OUTPUT_FORMAT_JSON : Z := 2.
Definition VMAF_OUTPUT_FORMAT_CSV : Z := 3.
Definition VMAF_OUTPUT_FORMAT_SUB : Z := 4.

Inductive VmafPoolingMethod :=
| VMAF_POOL_METHOD_UNKNOWN
| VMAF_POOL_METHOD_MIN
| VMAF_POOL_METHOD_MAX
| VMAF_POOL_METHOD_MEAN
| VMAF_POOL_METHOD_HARMONIC_MEAN.

(** The two [VmafPicture] locals of [vmafGetFrame]. *)
Inductive VmafPicture := ref | dist.

(** ** Strings *)

(** What a [std::string] takes from a [const char*]: the characters before
    the first NUL. *)
Fixpoint c_string (s : string) : string :=
  match s with
  | EmptyString => EmptyString
  | String c s' => if Ascii.eqb c Ascii.zero then EmptyString else String c (c_string s')
  end.

(** ** String tables *)

Definition modelName : list string :=
  ["vmaf"; "vmaf_neg"; "vmaf_b"; "vmaf_4k"]%string.
Definition modelVersion : list string :=
  ["vmaf_v0.6.1"; "vmaf_v0.6.1neg"; "vmaf_b_v0.6.3"; "vmaf_4k_v0.6.1"]%string.
Definition featureName : list string :=
  ["psnr"; "psnr_hvs"; "float_ssim"; "float_ms_ssim"; "ciede"]%string.

(** [table[i]] for an index already checked to be in range. *)
Definition at_index (table : list string) (i : Z) : string :=
  default ""%string (table !! Z.to_nat i).

(** ** The filter's instance data *)

Record VMAFData := {
  filterName : string;
  reference : VSNode;
  distorted : VSNode;
  vi : VSVideoInfo;
  logPath : string;
  logFormat : Z;
  model : list ptr;
  modelCollection : list ptr;
  vmaf : ptr;
  pixelFormat : VmafPixelFormat;
  cu_state : ptr;
  chroma : bool
}.

(** The arguments of the [VMAF] function, as registered:
    [reference:vnode; distorted:vnode; log_path:data; log_format:int:opt;
     model:int[]:opt; feature:int[]:opt].  [in_log_path] is the data of
    [log_path], every byte of it. *)
Record VSMap := {
  in_reference : VSNode;
  in_distorted : VSNode;
  in_log_path : string;
  in_log_format : option Z;
  in_model : option (list Z);
  in_feature : option (list Z)
}.

(** ** Calls that leave the file *)

Inductive Call :=
(* VapourSynth *)
| requestFrameFilter (n : Z) (node : VSNode)
| getFrameFilter (n : Z) (node : VSNode)
| freeFrame (f : VSFrame)
| freeNode (node : VSNode)
| setFilterError (msg : string) (frameCtx : Z)
| mapSetError (msg : string)
| logMessage (msg : string)
| createVideoFilter (name : string) (info : VSVideoInfo) (d : VMAFData)
| bitblt (dst : VmafPicture) (plane : Z) (src : VSFrame) (row_size rows : Z)
(* libvmaf *)
| vmaf_picture_alloc (pic : VmafPicture) (fmt : VmafPixelFormat) (bpc w h : Z)
| vmaf_picture_unref (pic : VmafPicture)
| vmaf_read_pictures (ctx : ptr) (r d : option VmafPicture) (index : Z)
| vmaf_score_pooled (ctx m : ptr) (pool_method : VmafPoolingMethod)
    (index_low index_high : Z)
| vmaf_score_pooled_model_collection (ctx mc : ptr) (pool_method : VmafPoolingMethod)
    (index_low index_high : Z)
| vmaf_write_output (ctx : ptr) (path : string) (fmt : Z)
| vmaf_model_destroy (m : ptr)
| vmaf_model_collection_destroy (mc : ptr)
| vmaf_close (ctx : ptr)
| vmaf_init (n_threads n_subsample : Z)
| vmaf_cuda_state_init
| vmaf_cuda_import_state (ctx cu : ptr)
| vmaf_model_load (name version : string)
| vmaf_model_collection_load (name version : string)
| vmaf_use_features_from_model (ctx m : ptr)
| vmaf_use_features_from_model_collection (ctx mc : ptr)
| vmaf_use_feature (ctx : ptr) (name : string).

(** A call together with the code it returned (0 for [void] calls and on
    success, as in libvmaf). *)
Definition Event : Type := Call * Z.

#[global] Instance VSColorFamily_eq_dec : EqDecision VSColorFamily.
Proof. solve_decision. Defined.
#[global] Instance VSSampleType_eq_dec : EqDecision VSSampleType.
Proof. solve_decision. Defined.
#[global] Instance VSVideoFormat_eq_dec : EqDecision VSVideoFormat.
Proof. solve_decision. Defined.
#[global] Instance VSVideoInfo_eq_dec : EqDecision VSVideoInfo.
Proof. solve_decision. Defined.
#[global] Instance VSNode_eq_dec : EqDecision VSNode.
Proof. solve_decision. Defined.
#[global] Instance VSFrame_eq_dec : EqDecision VSFrame.
Proof. solve_decision. Defined.
#[global] Instance VmafPixelFormat_eq_dec : EqDecision VmafPixelFormat.
Proof. solve_decision. Defined.
#[global] Instance VmafPicture_eq_dec : EqDecision VmafPicture.
Proof. solve_decision. Defined.
#[global] Instance VmafPoolingMethod_eq_dec : EqDecision VmafPoolingMethod.
Proof. solve_decision. Defined.
#[global] Instance VMAFData_eq_dec : EqDecision VMAFData.
Proof. solve_decision. Defined.
#[global] Instance Call_eq_dec : EqDecision Call.
Proof. solve_decision. Defined.

(** The outside world: what each call answers, given everything that was
    called before it. *)
Record World := {
  answer : list Event -> Call -> Z;
  (** the handle a call stores through its (first) out-parameter *)
  stored : list Event -> Call -> ptr;
  (** the handle [vmaf_model_collection_load] stores through its second *)
  stored2 : list Event -> Call -> ptr;
  getFrameWidth : VSFrame -> Z -> Z;
  getFrameHeight : VSFrame -> Z -> Z;
  numThreads : Z
}.

(** ** State, exceptions and the monad of the three callbacks *)

(** The instance data of the filter, and the history of the process: every
    call that the callbacks have made so far, the latest last. *)
Record St := { data : VMAFData; trace : list Event }.

(** The file throws two kinds of values: string literals ([const char*])
    and [std::string]s (literals with the [s] suffix, and their
    concatenations).  A handler catches only its own kind.  The third way
    in which a callback does not return is undefined behaviour: nothing is
    known of what the process does from there on, and no handler sees it. *)
Inductive exn :=
| c_str (what : string)
| std_string (what : string)
| undefined_behaviour.

#[global] Instance exn_eq_dec : EqDecision exn.
Proof. solve_decision. Defined.

Definition M (A : Type) : Type := St -> (A + exn) * St.

Definition ret_M {A} (a : A) : M A := fun s => (inl a, s).

Definition bind_M {A B} (k : A -> M B) (c : M A) : M B :=
  fun s =>
    match c s with
    | (inl a, s') => k a s'
    | (inr e, s') => (inr e, s')
    end.

#[global] Instance M_ret : MRet M := @ret_M.
#[global] Instance M_bind : MBind M := @bind_M.

Definition throw {A} (e : exn) : M A := fun s => (inr e, s).

(** [if (c) throw e;] *)
Definition throw_if (c : bool) (e : exn) : M unit :=
  if c then throw e else ret_M tt.

(** [try { body } catch (const char* error)]: the outcome of the block,
    handed to what follows. *)
Definition try_catch_c_str {A} (body : M A) : M (A + string) :=
  fun s =>
    match body s with
    | (inl a, s') => (inl (inl a), s')
    | (inr (c_str what), s') => (inl (inr what), s')
    | (inr (std_string what), s') => (inr (std_string what), s')
    | (inr undefined_behaviour, s') => (inr undefined_behaviour, s')
    end.

(** [try { body } catch (const std::string& error)]. *)
Definition try_catch_std_string {A} (body : M A) : M (A + string) :=
  fun s =>
    match body s with
    | (inl a, s') => (inl (inl a), s')
    | (inr (std_string what), s') => (inl (inr what), s')
    | (inr (c_str what), s') => (inr (c_str what), s')
    | (inr undefined_behaviour, s') => (inr undefined_behaviour, s')
    end.

Definition get_data : M VMAFData := fun s => (inl (data s), s).

(** The calls made so far in the process. *)
Definition get_trace : M (list Event) := fun s => (inl (trace s), s).

Definition modify (f : VMAFData -> VMAFData) : M unit :=
  fun s => (inl tt, {| data := f (data s); trace := trace s |}).

(** Range-[for] over a vector. *)
Fixpoint for_each {A} (body : A -> M unit) (l : list A) : M unit :=
  match l with
  | [] => ret_M tt
  | x :: l' => body x;; for_each body l'
  end.

(** Field assignments on [VMAFData]. *)
Definition set_filterName (x : string) (d : VMAFData) : VMAFData :=
  {| filterName := x; reference := reference d; distorted := distorted d;
     vi := vi d; logPath := logPath d; logFormat := logFormat d;
     model := model d; modelCollection := modelCollection d; vmaf := vmaf d;
     pixelFormat := pixelFormat d; cu_state := cu_state d; chroma := chroma d |}.
Definition set_reference (x : VSNode) (d : VMAFData) : VMAFData :=
  {| filterName := filterName d; reference := x; distorted := distorted d;
     vi := vi d; logPath := logPath d; logFormat := logFormat d;
     model := model d; modelCollection := modelCollection d; vmaf := vmaf d;
     pixelFormat := pixelFormat d; cu_state := cu_state d; chroma := chroma d |}.
Definition set_distorted (x : VSNode) (d : VMAFData) : VMAFData :=
  {| filterName := filterName d; reference := reference d; distorted := x;
     vi := vi d; logPath := logPath d; logFormat := logFormat d;
     model := model d; modelCollection := modelCollection d; vmaf := vmaf d;
     pixelFormat := pixelFormat d; cu_state := cu_state d; chroma := chroma d |}.
Definition set_vi (x : VSVideoInfo) (d : VMAFData) : VMAFData :=
  {| filterName := filterName d; reference := reference d; distorted := distorted d;
     vi := x; logPath := logPath d; logFormat := logFormat d;
     model := model d; modelCollection := modelCollection d; vmaf := vmaf d;
     pixelFormat := pixelFormat d; cu_state := cu_state d; chroma := chroma d |}.
Definition set_logPath (x : string) (d : VMAFData) : VMAFData :=
  {| filterName := filterName d; reference := reference d; distorted := distorted d;
     vi := vi d; logPath := x; logFormat := logFormat d;
     model := model d; modelCollection := modelCollection d; vmaf := vmaf d;
     pixelFormat := pixelFormat d; cu_state := cu_state d; chroma := chroma d |}.
Definition set_logFormat (x : Z) (d : VMAFData) : VMAFData :=
  {| filterName := filterName d; reference := reference d; distorted := distorted d;
     vi := vi d; logPath := logPath d; logFormat := x;
     model := model d; modelCollection := modelCollection d; vmaf := vmaf d;
     pixelFormat := pixelFormat d; cu_state := cu_state d; chroma := chroma d |}.
Definition set_model (x : list ptr) (d : VMAFData) : VMAFData :=
  {| filterName := filterName d; reference := reference d; distorted := distorted d;
     vi := vi d; logPath := logPath d; logFormat := logFormat d;
     model := x; modelCollection := modelCollection d; vmaf := vmaf d;
     pixelFormat := pixelFormat d; cu_state := cu_state d; chroma := chroma d |}.
Definition set_modelCollection (x : list ptr) (d : VMAFData) : VMAFData :=
  {| filterName := filterName d; reference := reference d; distorted := distorted d;
     vi := vi d; logPath := logPath d; logFormat := logFormat d;
     model := model d; modelCollection := x; vmaf := vmaf d;
     pixelFormat := pixelFormat d; cu_state := cu_state d; chroma := chroma d |}.
Definition set_vmaf (x : ptr) (d : VMAFData) : VMAFData :=
  {| filterName := filterName d; reference := reference d; distorted := distorted d;
     vi := vi d; logPath := logPath d; logFormat := logFormat d;
     model := model d; modelCollection := modelCollection d; vmaf := x;
     pixelFormat := pixelFormat d; cu_state := cu_state d; chroma := chroma d |}.
Definition set_pixelFormat (x : VmafPixelFormat) (d : VMAFData) : VMAFData :=
  {| filterName := filterName d; reference := reference d; distorted := distorted d;
     vi := vi d; logPath := logPath d; logFormat := logFormat d;
     model := model d; modelCollection := modelCollection d; vmaf := vmaf d;
     pixelFormat := x; cu_state := cu_state d; chroma := chroma d |}.
Definition set_cu_state (x : ptr) (d : VMAFData) : VMAFData :=
  {| filterName := filterName d; reference := reference d; distorted := distorted d;
     vi := vi d; logPath := logPath d; logFormat := logFormat d;
     model := model d; modelCollection := modelCollection d; vmaf := vmaf d;
     pixelFormat := pixelFormat d; cu_state := x; chroma := chroma d |}.
Definition set_chroma (x : bool) (d : VMAFData) : VMAFData :=
  {| filterName := filterName d; reference := reference d; distorted := distorted d;
     vi := vi d; logPath := logPath d; logFormat := logFormat d;
     model := model d; modelCollection := modelCollection d; vmaf := vmaf d;
     pixelFormat := pixelFormat d; cu_state := cu_state d; chroma := x |}.

(** ** Helpers of VSHelper4.h *)

Definition isConstantVideoFormat (v : VSVideoInfo) : bool :=
  (0 <? height v) && (0 <? width v) && negb (bool_decide (colorFamily (format v) = cfUndefined)).

Definition isSameVideoFormat (v1 v2 : VSVideoFormat) : bool :=
  bool_decide (colorFamily v1 = colorFamily v2)
  && bool_decide (sampleType v1 = sampleType v2)
  && (bitsPerSample v1 =? bitsPerSample v2)
  && (subSamplingW v1 =? subSamplingW v2)
  && (subSamplingH v1 =? subSamplingH v2).

Definition isSameVideoInfo (v1 v2 : VSVideoInfo) : bool :=
  (height v1 =? height v2) && (width v1 =? width v2)
  && isSameVideoFormat (format v1) (format v2).

(** [std::count(first, first + n, value)]. *)
Fixpoint std_count (l : list Z) (value : Z) : Z :=
  match l with
  | [] => 0
  | x :: l' => (if x =? value then 1 else 0) + std_count l' value
  end.

(** ** The callbacks *)

Section Callbacks.

Variable W : World.

(** Make a call: ask the world, record call and answer. *)
Definition call (c : Call) : M Z :=
  fun s =>
    let r := answer W (trace s) c in
    (inl r, {| data := data s; trace := trace s ++ [(c, r)] |}).

(** A call with an out-parameter [&x]: the stored handle is assigned too. *)
Definition call_out (c : Call) (assign : ptr -> VMAFData -> VMAFData) : M Z :=
  fun s =>
    let r := answer W (trace s) c in
    (inl r, {| data := assign (stored W (trace s) c) (data s);
               trace := trace s ++ [(c, r)] |}).

(** A call with two out-parameters. *)
Definition call_out2 (c : Call) (assign1 assign2 : ptr -> VMAFData -> VMAFData) : M Z :=
  fun s =>
    let r := answer W (trace s) c in
    (inl r, {| data := assign2 (stored2 W (trace s) c)
                         (assign1 (stored W (trace s) c) (data s));
               trace := trace s ++ [(c, r)] |}).

(** A [void] call. *)
Definition call_void (c : Call) : M unit :=
  fun s => (inl tt, {| data := data s; trace := trace s ++ [(c, 0)] |}).

(** *** [vmafGetFrame] *)

(** The plane loop, [left] iterations before [plane] reaches [numPlanes]. *)
Fixpoint copy_planes (d : VMAFData) (reference distorted : VSFrame)
    (left : nat) (plane : Z) : M unit :=
  match left with
  | O => mret tt
  | S left' =>
      if negb (plane =? 0) && negb (chroma d) then mret tt
      else
        call_void (bitblt ref plane reference
                     (to_size_t (to_int (getFrameWidth W reference plane
                                         * bytesPerSample (format (vi d)))))
                     (to_size_t (getFrameHeight W reference plane)));;
        call_void (bitblt dist plane distorted
                     (to_size_t (to_int (getFrameWidth W distorted plane
                                         * bytesPerSample (format (vi d)))))
                     (to_size_t (getFrameHeight W distorted plane)));;
        copy_planes d reference distorted left' (plane + 1)
  end.

(** The [try] block of [vmafGetFrame]. *)
Definition getFrame_try (d : VMAFData) (n : Z) (reference distorted : VSFrame) : M unit :=
  r1 ← call (vmaf_picture_alloc ref (pixelFormat d) (bitsPerSample (format (vi d)))
               (width (vi d)) (height (vi d)));
  r2 ← (if negb (r1 =? 0) then mret r1
        else call (vmaf_picture_alloc dist (pixelFormat d) (bitsPerSample (format (vi d)))
                     (width (vi d)) (height (vi d))));
  throw_if (negb (r2 =? 0)) (c_str "failed to allocate picture");;
  copy_planes d reference distorted (Z.to_nat (numPlanes (format (vi d)))) 0;;
  r3 ← call (vmaf_read_pictures (vmaf d) (Some ref) (Some dist) (to_unsigned n));
  throw_if (negb (r3 =? 0)) (c_str "failed to read pictures").

Definition vmafGetFrame (n : Z) (activationReason : VSActivationReason)
    (frameCtx : Z) : M (option VSFrame) :=
  d ← get_data;
  match activationReason with
  | arInitial =>
      call_void (requestFrameFilter n (reference d));;
      call_void (requestFrameFilter n (distorted d));;
      mret None
  | arAllFramesReady =>
      call_void (getFrameFilter n (reference d));;
      let reference := {| frame_node := reference d; frame_n := n |} in
      call_void (getFrameFilter n (distorted d));;
      let distorted := {| frame_node := distorted d; frame_n := n |} in
      caught ← try_catch_c_str (getFrame_try d n reference distorted);
      match caught with
      | inr error =>
          call_void (setFilterError (filterName d +:+ ": " +:+ error) frameCtx);;
          call_void (freeFrame reference);;
          call_void (freeFrame distorted);;
          call_void (vmaf_picture_unref ref);;
          call_void (vmaf_picture_unref dist);;
          mret None
      | inl _ =>
          call_void (freeFrame distorted);;
          mret (Some reference)
      end
  | arError => mret None
  end.

(** *** [vmafFree] *)

(** The lambda [logMessage] of [vmafFree] is a function-local [static] that
    captures [d], [vsapi] and [core] by reference.  It is made once, when
    the first call of [vmafFree] in the process reaches its declaration, and
    its captures are the variables of that call; a later call does not make
    it again and finds the captures dangling.

    Whether an earlier call has made the lambda is read off the history of
    the process: every call of [vmafFree] goes on from the declaration to
    flush a context, that is to submit no picture, and nothing else in the
    file does so. *)
Definition is_flush (c : Call) : bool :=
  match c with vmaf_read_pictures _ None None _ => true | _ => false end.
Definition made_by_an_earlier_call (history : list Event) : bool :=
  existsb (fun e : Event => is_flush e.1) history.

(** [if (failed) logMessage(msg);] where [stale] tells that the lambda
    was made by an earlier call: to call it then is undefined behaviour. *)
Definition log_if (stale : bool) (d : VMAFData) (failed : Z) (msg : string) : M unit :=
  if negb (failed =? 0)
  then if stale then throw undefined_behaviour
       else call_void (logMessage (filterName d +:+ ": " +:+ msg))
  else mret tt.

Definition vmafFree : M unit :=
  d ← get_data;
  call_void (freeNode (reference d));;
  call_void (freeNode (distorted d));;
  history ← get_trace;
  let stale := made_by_an_earlier_call history in
  r ← call (vmaf_read_pictures (vmaf d) None None 0);
  log_if stale d r "failed to flush context";;
  for_each (fun m =>
      r ← call (vmaf_score_pooled (vmaf d) m VMAF_POOL_METHOD_MEAN 0
                  (to_unsigned (to_int (numFrames (vi d) - 1))));
      log_if stale d r "failed to generate pooled VMAF score")
    (model d);;
  for_each (fun m =>
      r ← call (vmaf_score_pooled_model_collection (vmaf d) m VMAF_POOL_METHOD_MEAN 0
                  (to_unsigned (to_int (numFrames (vi d) - 1))));
      log_if stale d r "failed to generate pooled VMAF score")
    (modelCollection d);;
  r ← call (vmaf_write_output (vmaf d) (logPath d) (logFormat d));
  log_if stale d r "failed to write VMAF stats";;
  for_each (fun m => call_void (vmaf_model_destroy m)) (model d);;
  for_each (fun m => call_void (vmaf_model_collection_destroy m)) (modelCollection d);;
  call_void (vmaf_close (vmaf d)).

(** *** [vmafCreate] *)

(** [mapGetIntSaturated(in, key, 0, &err)]: 0 when the key is absent. *)
Definition mapGetIntSaturated (v : option Z) : Z :=
  match v with
  | Some i => int64ToIntS i
  | None => 0
  end.

(** [mapGetIntArray(in, key, &err)]; nothing to read when the key is absent. *)
Definition mapGetIntArray (v : option (list Z)) : list Z := default [] v.

(** [mapNumElements(in, key)]: -1 when the key is absent. *)
Definition mapNumElements (v : option (list Z)) : Z :=
  match v with
  | Some l => Z.of_nat (length l)
  | None => -1
  end.

(** [array[i]] *)
Definition elem (array : list Z) (i : Z) : Z := default 0 (array !! Z.to_nat i).

(** The body of the model loop, at index [i]. *)
Definition model_body (model_ : list Z) (i : Z) : M unit :=
  let m := elem model_ i in
  throw_if ((m <? 0) || (3 <? m)) (std_string "model must be 0, 1, 2, or 3");;
  throw_if (1 <? std_count model_ m) (std_string "duplicate model specified");;
  let name := at_index modelName m in
  let version := at_index modelVersion m in
  r ← call_out (vmaf_model_load name version)
        (fun p d => set_model (<[Z.to_nat i := p]> (model d)) d);
  if negb (r =? 0) then
    modify (fun d => set_modelCollection
                       (resize (S (length (modelCollection d))) nullptr (modelCollection d)) d);;
    r ← call_out2 (vmaf_model_collection_load name version)
          (fun p d => set_model (<[Z.to_nat i := p]> (model d)) d)
          (fun p d => set_modelCollection
                        (<[(length (modelCollection d) - 1)%nat := p]> (modelCollection d)) d);
    throw_if (negb (r =? 0)) (std_string ("failed to load model: " +:+ version));;
    d ← get_data;
    r ← call (vmaf_use_features_from_model_collection (vmaf d)
                (default nullptr (last (modelCollection d))));
    throw_if (negb (r =? 0))
      (std_string ("failed to load feature extractors from model collection: " +:+ version))
  else
    d ← get_data;
    r ← call (vmaf_use_features_from_model (vmaf d)
                (default nullptr (model d !! Z.to_nat i)));
    throw_if (negb (r =? 0))
      (std_string ("failed to load feature extractors from model: " +:+ version)).

(** [for (auto i{ 0 }; i < numModels; i++)], [left] iterations to go. *)
Fixpoint model_loop (model_ : list Z) (left : nat) (i : Z) : M unit :=
  match left with
  | O => mret tt
  | S left' => model_body model_ i;; model_loop model_ left' (i + 1)
  end.

(** The body of the feature loop, at index [i]. *)
Definition feature_body (feature : list Z) (i : Z) : M unit :=
  let f := elem feature i in
  throw_if ((f <? 0) || (4 <? f)) (std_string "feature must be 0, 1, 2, 3, or 4");;
  throw_if (1 <? std_count feature f) (std_string "duplicate feature specified");;
  d ← get_data;
  r ← call (vmaf_use_feature (vmaf d) (at_index featureName f));
  throw_if (negb (r =? 0))
    (std_string ("failed to load feature extractor: " +:+ at_index featureName f));;
  if (f =? 0) || (f =? 1) || (f =? 4) then modify (set_chroma true) else mret tt.

Fixpoint feature_loop (feature : list Z) (left : nat) (i : Z) : M unit :=
  match left with
  | O => mret tt
  | S left' => feature_body feature i;; feature_loop feature left' (i + 1)
  end.

(** The [try] block of [vmafCreate]. *)
Definition create_try (in_ : VSMap) (userData : string) : M unit :=
  modify (set_filterName userData);;
  modify (set_reference (in_reference in_));;
  modify (set_distorted (in_distorted in_));;
  modify (fun d => set_vi (getVideoInfo (reference d)) d);;
  d ← get_data;
  throw_if (negb (isConstantVideoFormat (vi d))
            || negb (bool_decide (colorFamily (format (vi d)) = cfYUV))
            || negb (bool_decide (sampleType (format (vi d)) = stInteger)))
    (c_str "only constant YUV format integer input supported");;
  throw_if (negb ((bitsPerSample (format (vi d)) =? 8)
                  || (bitsPerSample (format (vi d)) =? 10)
                  || (bitsPerSample (format (vi d)) =? 12)
                  || (bitsPerSample (format (vi d)) =? 16)))
    (c_str "only 8, 10, 12 and 16 bit depth supported");;
  throw_if (negb (((subSamplingW (format (vi d)) =? 1)
                     && (subSamplingH (format (vi d)) =? 1))
                  || ((subSamplingW (format (vi d)) =? 1)
                        && (subSamplingH (format (vi d)) =? 0))
                  || ((subSamplingW (format (vi d)) =? 0)
                        && (subSamplingH (format (vi d)) =? 0))))
    (std_string "only 420/422/444 chroma subsampling is supported");;
  modify (set_logPath (c_string (in_log_path in_)));;
  let logFormat := mapGetIntSaturated (in_log_format in_) in
  throw_if ((logFormat <? 0) || (3 <? logFormat))
    (std_string "log_format must be 0, 1, 2, or 3");;
  modify (set_logFormat (to_int (logFormat + 1)));;
  r ← call_out (vmaf_init (numThreads W) 1) set_vmaf;
  throw_if (negb (r =? 0)) (std_string "failed to initialize VMAF context");;
  r ← call_out vmaf_cuda_state_init set_cu_state;
  throw_if (negb (r =? 0)) (c_str "problem during vmaf_cuda_state_init");;
  d ← get_data;
  r ← call (vmaf_cuda_import_state (vmaf d) (cu_state d));
  throw_if (negb (r =? 0)) (c_str "problem during vmaf_cuda_import_state");;
  throw_if (negb (isSameVideoInfo (getVideoInfo (distorted d)) (vi d)))
    (std_string "both clips must have the same format and dimensions");;
  throw_if (negb (numFrames (getVideoInfo (distorted d)) =? numFrames (vi d)))
    (std_string "both clips' number of frames do not match");;
  let model_ := mapGetIntArray (in_model in_) in
  let numModels := mapNumElements (in_model in_) in
  let feature := mapGetIntArray (in_feature in_) in
  let numFeatures := mapNumElements (in_feature in_) in
  (if 0 <? numModels
   then modify (fun d => set_model (resize (Z.to_nat numModels) nullptr (model d)) d)
   else mret tt);;
  model_loop model_ (Z.to_nat numModels) 0;;
  feature_loop feature (Z.to_nat numFeatures) 0;;
  d ← get_data;
  if (subSamplingW (format (vi d)) =? 1) && (subSamplingH (format (vi d)) =? 1)
  then modify (set_pixelFormat VMAF_PIX_FMT_YUV420P)
  else if (subSamplingW (format (vi d)) =? 1) && (subSamplingH (format (vi d)) =? 0)
  then modify (set_pixelFormat VMAF_PIX_FMT_YUV422P)
  else modify (set_pixelFormat VMAF_PIX_FMT_YUV444P).

Definition vmafCreate (in_ : VSMap) (userData : string) : M unit :=
  caught ← try_catch_std_string (create_try in_ userData);
  d ← get_data;
  match caught with
  | inr error =>
      call_void (mapSetError (filterName d +:+ ": " +:+ error));;
      call_void (freeNode (reference d));;
      call_void (freeNode (distorted d));;
      for_each (fun m => call_void (vmaf_model_destroy m)) (model d);;
      for_each (fun m => call_void (vmaf_model_collection_destroy m)) (modelCollection d);;
      call_void (vmaf_close (vmaf d))
  | inl _ =>
      call_void (createVideoFilter (filterName d) (vi d) d)
  end.

End Callbacks.

(** [std::make_unique<VMAFData>()]: every member zero or empty. *)
Definition zero_format : VSVideoFormat :=
  {| colorFamily := cfUndefined; sampleType := stInteger; bitsPerSample := 0;
     bytesPerSample := 0; subSamplingW := 0; subSamplingH := 0; numPlanes := 0 |}.
Definition zero_info : VSVideoInfo :=
  {| format := zero_format; fpsNum := 0; fpsDen := 0; width := 0; height := 0;
     numFrames := 0 |}.
Definition null_node : VSNode := {| node_id := 0; getVideoInfo := zero_info |}.
Definition make_unique_VMAFData : VMAFData :=
  {| filterName := ""; reference := null_node; distorted := null_node;
     vi := zero_info; logPath := ""; logFormat := 0; model := [];
     modelCollection := []; vmaf := nullptr;
     pixelFormat := VMAF_PIX_FMT_UNKNOWN; cu_state := nullptr; chroma := false |}.

(** * Specifications *)

(** ** Observations on traces *)

Fixpoint count_if (p : Call -> bool) (tr : list Event) : nat :=
  match tr with
  | [] => 0
  | e :: tr' => (if p e.1 then 1 else 0) + count_if p tr'
  end%nat.

Definition is_bitblt (c : Call) : bool :=
  match c with bitblt _ _ _ _ _ => true | _ => false end.
Definition is_freeFrame (c : Call) : bool :=
  match c with freeFrame _ => true | _ => false end.
Definition is_setFilterError (c : Call) : bool :=
  match c with setFilterError _ _ => true | _ => false end.
Definition is_picture_alloc (pic : VmafPicture) (c : Call) : bool :=
  match c, pic with
  | vmaf_picture_alloc ref _ _ _ _, ref | vmaf_picture_alloc dist _ _ _ _, dist => true
  | _, _ => false
  end.
Definition is_read_pictures (c : Call) : bool :=
  match c with vmaf_read_pictures _ _ _ _ => true | _ => false end.
Definition is_picture_unref (c : Call) : bool :=
  match c with vmaf_picture_unref _ => true | _ => false end.

Definition frame_of (node : VSNode) (n : Z) : VSFrame :=
  {| frame_node := node; frame_n := n |}.

Definition alloc_call (d : VMAFData) (pic : VmafPicture) : Call :=
  vmaf_picture_alloc pic (pixelFormat d) (bitsPerSample (format (vi d)))
    (width (vi d)) (height (vi d)).
Definition submit_call (d : VMAFData) (n : Z) : Call :=
  vmaf_read_pictures (vmaf d) (Some ref) (Some dist) (to_unsigned n).

(** What the [try] block of [vmafGetFrame] can do, by the answers it gets;
    [copies] are the events of the plane loop. *)
Inductive getFrame_try_outcome (d : VMAFData) (n : Z) (copies : list Event) :
    unit + exn -> list Event -> Prop :=
| try_ref_alloc_fails r1 :
    r1 <> 0 ->
    getFrame_try_outcome d n copies
      (inr (c_str "failed to allocate picture")) [(alloc_call d ref, r1)]
| try_dist_alloc_fails r2 :
    r2 <> 0 ->
    getFrame_try_outcome d n copies
      (inr (c_str "failed to allocate picture"))
      [(alloc_call d ref, 0); (alloc_call d dist, r2)]
| try_submit_fails r3 :
    r3 <> 0 ->
    getFrame_try_outcome d n copies
      (inr (c_str "failed to read pictures"))
      ([(alloc_call d ref, 0); (alloc_call d dist, 0)] ++ copies ++ [(submit_call d n, r3)])
| try_succeeds :
    getFrame_try_outcome d n copies
      (inl tt)
      ([(alloc_call d ref, 0); (alloc_call d dist, 0)] ++ copies ++ [(submit_call d n, 0)]).

Definition copies_of (d : VMAFData) (rf df : VSFrame) (copies : list Event) : Prop :=
  Forall (fun e : Event => is_bitblt e.1 = true /\ e.2 = 0) copies
  /\ forall p,
       ((exists w h, (bitblt ref p rf w h, 0) ∈ copies)
          <-> (0 <= p < numPlanes (format (vi d)) /\ (p = 0 \/ chroma d = true)))
       /\ ((exists w h, (bitblt dist p df w h, 0) ∈ copies)
          <-> (0 <= p < numPlanes (format (vi d)) /\ (p = 0 \/ chroma d = true))).

(** The calls that [vmafGetFrame] makes around its [try] block. *)
Definition acquire (d : VMAFData) (n : Z) : list Event :=
  [(getFrameFilter n (reference d), 0); (getFrameFilter n (distorted d), 0)].
Definition unwind (d : VMAFData) (n : Z) (frameCtx : Z) (error : string) : list Event :=
  [(setFilterError (filterName d +:+ ": " +:+ error) frameCtx, 0);
   (freeFrame (frame_of (reference d) n), 0);
   (freeFrame (frame_of (distorted d) n), 0);
   (vmaf_picture_unref ref, 0);
   (vmaf_picture_unref dist, 0)].

Definition is_logMessage (c : Call) : bool :=
  match c with logMessage _ => true | _ => false end.

(** The calls of a trace, the log messages left out. *)
Fixpoint without_log (tr : list Event) : list Call :=
  match tr with
  | [] => []
  | (c, _) :: tr' => if is_logMessage c then without_log tr' else c :: without_log tr'
  end.

(** How many calls of a trace answered with an error. *)
Fixpoint count_failed (tr : list Event) : nat :=
  match tr with
  | [] => 0
  | (_, r) :: tr' => ((if (r =? 0)%Z then 0 else 1) + count_failed tr')%nat
  end.

(** The message [vmafFree] logs when a step fails. *)
Definition failure_message (c : Call) : string :=
  match c with
  | vmaf_read_pictures _ _ _ _ => "failed to flush context"
  | vmaf_write_output _ _ _ => "failed to write VMAF stats"
  | _ => "failed to generate pooled VMAF score"
  end.

(** Every call that failed is followed at once by its log message. *)
Fixpoint failures_logged (d : VMAFData) (tr : list Event) : Prop :=
  match tr with
  | [] => True
  | (c, r) :: tr' =>
      (r <> 0 ->
       exists rest, tr' = (logMessage (filterName d +:+ ": " +:+ failure_message c), 0) :: rest)
      /\ failures_logged d tr'
  end.

(** A fallible teardown step: its events are well formed. *)
Record step_events (d : VMAFData) (calls : list Call) (new : list Event) : Prop := {
  step_calls : without_log new = calls;
  step_logged : failures_logged d new;
  step_log_count : count_if is_logMessage new = count_failed new
}.

(** The fallible steps of the teardown, for a list of [calls] to make.
    With a lambda of its own ([stale = false]) every call is made and every
    failure logged.  With a stale lambda every call is made as long as none
    fails; from the first failure on the behaviour is undefined, and the
    trace ends with the call that failed. *)
Inductive steps_outcome (stale : bool) (d : VMAFData) (calls : list Call) :
    unit + exn -> list Event -> Prop :=
| steps_made new :
    step_events d calls new ->
    (stale = true -> Forall (fun e : Event => e.2 = 0) new) ->
    steps_outcome stale d calls (inl tt) new
| steps_undefined made c code rest :
    stale = true ->
    calls = made ++ c :: rest ->
    code <> 0 ->
    steps_outcome stale d calls (inr undefined_behaviour)
      (map (fun c => (c, 0)) made ++ [(c, code)]).

(** A computation that makes the [calls], as steps of the teardown. *)
Definition runs_steps (stale : bool) (d : VMAFData) (c : M unit) (calls : list Call) : Prop :=
  forall s, exists r new,
    c s = (r, {| data := data s; trace := trace s ++ new |})
    /\ steps_outcome stale d calls r new.

(** ** Resolving one model *)

(** The three assignments of the model loop. *)
Definition store_model (i : Z) (p : ptr) (d : VMAFData) : VMAFData :=
  set_model (<[Z.to_nat i := p]> (model d)) d.
Definition grow_collections (d : VMAFData) : VMAFData :=
  set_modelCollection
    (resize (S (length (modelCollection d))) nullptr (modelCollection d)) d.
Definition store_collection (c : ptr) (d : VMAFData) : VMAFData :=
  set_modelCollection
    (<[(length (modelCollection d) - 1)%nat := c]> (modelCollection d)) d.

Definition model_out_of_range (m : Z) : bool := (m <? 0) || (3 <? m).
Definition duplicated (l : list Z) (x : Z) : bool := 1 <? std_count l x.

(** What one iteration of the model loop can do, by the answers it gets:
    the outcome, the instance data it leaves, the calls it made. *)
Inductive model_body_outcome (model_ : list Z) (i : Z) (d : VMAFData) :
    unit + exn -> VMAFData -> list Event -> Prop :=
| resolve_out_of_range :
    model_out_of_range (elem model_ i) = true ->
    model_body_outcome model_ i d
      (inr (std_string "model must be 0, 1, 2, or 3")) d []
| resolve_duplicate :
    model_out_of_range (elem model_ i) = false ->
    duplicated model_ (elem model_ i) = true ->
    model_body_outcome model_ i d
      (inr (std_string "duplicate model specified")) d []
| resolve_singleton p r d1 :
    model_out_of_range (elem model_ i) = false ->
    duplicated model_ (elem model_ i) = false ->
    d1 = store_model i p d ->
    model_body_outcome model_ i d
      (if r =? 0 then inl tt
       else inr (std_string ("failed to load feature extractors from model: "
                             +:+ at_index modelVersion (elem model_ i))))
      d1
      [(vmaf_model_load (at_index modelName (elem model_ i))
          (at_index modelVersion (elem model_ i)), 0);
       (vmaf_use_features_from_model (vmaf d)
          (default nullptr (model d1 !! Z.to_nat i)), r)]
| resolve_neither p r1 p2 c r2 :
    model_out_of_range (elem model_ i) = false ->
    duplicated model_ (elem model_ i) = false ->
    r1 <> 0 -> r2 <> 0 ->
    model_body_outcome model_ i d
      (inr (std_string ("failed to load model: "
                        +:+ at_index modelVersion (elem model_ i))))
      (store_collection c (store_model i p2 (grow_collections (store_model i p d))))
      [(vmaf_model_load (at_index modelName (elem model_ i))
          (at_index modelVersion (elem model_ i)), r1);
       (vmaf_model_collection_load (at_index modelName (elem model_ i))
          (at_index modelVersion (elem model_ i)), r2)]
| resolve_collection p r1 p2 c r d1 :
    model_out_of_range (elem model_ i) = false ->
    duplicated model_ (elem model_ i) = false ->
    r1 <> 0 ->
    d1 = store_collection c (store_model i p2 (grow_collections (store_model i p d))) ->
    model_body_outcome model_ i d
      (if r =? 0 then inl tt
       else inr (std_string ("failed to load feature extractors from model collection: "
                             +:+ at_index modelVersion (elem model_ i))))
      d1
      [(vmaf_model_load (at_index modelName (elem model_ i))
          (at_index modelVersion (elem model_ i)), r1);
       (vmaf_model_collection_load (at_index modelName (elem model_ i))
          (at_index modelVersion (elem model_ i)), 0);
       (vmaf_use_features_from_model_collection (vmaf d)
          (default nullptr (last (modelCollection d1))), r)].

(** ** Registering one feature *)

Definition feature_out_of_range (f : Z) : bool := (f <? 0) || (4 <? f).
Definition needs_chroma (f : Z) : bool := (f =? 0) || (f =? 1) || (f =? 4).

Inductive feature_body_outcome (feature : list Z) (i : Z) (d : VMAFData) :
    unit + exn -> VMAFData -> list Event -> Prop :=
| feature_rejected_range :
    feature_out_of_range (elem feature i) = true ->
    feature_body_outcome feature i d
      (inr (std_string "feature must be 0, 1, 2, 3, or 4")) d []
| feature_rejected_duplicate :
    feature_out_of_range (elem feature i) = false ->
    duplicated feature (elem feature i) = true ->
    feature_body_outcome feature i d
      (inr (std_string "duplicate feature specified")) d []
| feature_not_loaded r :
    feature_out_of_range (elem feature i) = false ->
    duplicated feature (elem feature i) = false ->
    r <> 0 ->
    feature_body_outcome feature i d
      (inr (std_string ("failed to load feature extractor: "
                        +:+ at_index featureName (elem feature i))))
      d
      [(vmaf_use_feature (vmaf d) (at_index featureName (elem feature i)), r)]
| feature_loaded :
    feature_out_of_range (elem feature i) = false ->
    duplicated feature (elem feature i) = false ->
    feature_body_outcome feature i d
      (inl tt)
      (if needs_chroma (elem feature i) then set_chroma true d else d)
      [(vmaf_use_feature (vmaf d) (at_index featureName (elem feature i)), 0)].

(** ** A counted loop over an index *)

Inductive loop_outcome
    (body : Z -> VMAFData -> unit + exn -> VMAFData -> list Event -> Prop) :
    nat -> Z -> VMAFData -> unit + exn -> VMAFData -> list Event -> Prop :=
| loop_done i d :
    loop_outcome body 0 i d (inl tt) d []
| loop_next left i d d1 new1 r d2 new2 :
    body i d (inl tt) d1 new1 ->
    loop_outcome body left (i + 1) d1 r d2 new2 ->
    loop_outcome body (S left) i d r d2 (new1 ++ new2)
| loop_thrown left i d e d1 new1 :
    body i d (inr e) d1 new1 ->
    loop_outcome body (S left) i d (inr e) d1 new1.

(** ** Setting the filter up *)

Definition unsupported_format (v : VSVideoInfo) : bool :=
  negb (isConstantVideoFormat v)
  || negb (bool_decide (colorFamily (format v) = cfYUV))
  || negb (bool_decide (sampleType (format v) = stInteger)).

Definition unsupported_depth (v : VSVideoInfo) : bool :=
  negb ((bitsPerSample (format v) =? 8)
        || (bitsPerSample (format v) =? 10)
        || (bitsPerSample (format v) =? 12)
        || (bitsPerSample (format v) =? 16)).

Definition unsupported_subsampling (v : VSVideoInfo) : bool :=
  negb (((subSamplingW (format v) =? 1) && (subSamplingH (format v) =? 1))
        || ((subSamplingW (format v) =? 1) && (subSamplingH (format v) =? 0))
        || ((subSamplingW (format v) =? 0) && (subSamplingH (format v) =? 0))).

Definition log_format_out_of_range (logFormat : Z) : bool :=
  (logFormat <? 0) || (3 <? logFormat).

Definition pick_pixelFormat (v : VSVideoInfo) : VmafPixelFormat :=
  if (subSamplingW (format v) =? 1) && (subSamplingH (format v) =? 1)
  then VMAF_PIX_FMT_YUV420P
  else if (subSamplingW (format v) =? 1) && (subSamplingH (format v) =? 0)
  then VMAF_PIX_FMT_YUV422P
  else VMAF_PIX_FMT_YUV444P.

Section Setup.

Variables (in_ : VSMap) (userData : string) (n_threads : Z) (d0 : VMAFData).

(** The instance data after the nodes were taken from the arguments. *)
Definition opened : VMAFData :=
  set_vi (getVideoInfo (in_reference in_))
    (set_distorted (in_distorted in_)
       (set_reference (in_reference in_) (set_filterName userData d0))).

(** ... after the log arguments were read. *)
Definition configured : VMAFData :=
  set_logFormat (to_int (mapGetIntSaturated (in_log_format in_) + 1))
    (set_logPath (c_string (in_log_path in_)) opened).

(** ... after the engine context and its CUDA state were made. *)
Definition initialised (ctx cu : ptr) : VMAFData :=
  set_cu_state cu (set_vmaf ctx configured).

(** ... after [d->model.resize(numModels)]. *)
Definition sized (d : VMAFData) : VMAFData :=
  if 0 <? mapNumElements (in_model in_)
  then set_model (resize (Z.to_nat (mapNumElements (in_model in_))) nullptr (model d)) d
  else d.

Definition init_events (ctx cu : ptr) (r : Z) : list Event :=
  [(vmaf_init n_threads 1, 0); (vmaf_cuda_state_init, 0);
   (vmaf_cuda_import_state ctx cu, r)].

Definition supported (v : VSVideoInfo) : Prop :=
  unsupported_format v = false
  /\ unsupported_depth v = false
  /\ unsupported_subsampling v = false.

Definition clips_match : Prop :=
  isSameVideoInfo (getVideoInfo (in_distorted in_)) (getVideoInfo (in_reference in_)) = true
  /\ (numFrames (getVideoInfo (in_distorted in_))
        =? numFrames (getVideoInfo (in_reference in_))) = true.

Definition models_outcome :=
  loop_outcome (model_body_outcome (mapGetIntArray (in_model in_)))
    (Z.to_nat (mapNumElements (in_model in_))) 0.
Definition features_outcome :=
  loop_outcome (feature_body_outcome (mapGetIntArray (in_feature in_)))
    (Z.to_nat (mapNumElements (in_feature in_))) 0.

(** Every way through the [try] block of [vmafCreate]. *)
Inductive create_try_outcome : unit + exn -> VMAFData -> list Event -> Prop :=
| create_unsupported_format :
    unsupported_format (getVideoInfo (in_reference in_)) = true ->
    create_try_outcome
      (inr (c_str "only constant YUV format integer input supported")) opened []
| create_unsupported_depth :
    unsupported_format (getVideoInfo (in_reference in_)) = false ->
    unsupported_depth (getVideoInfo (in_reference in_)) = true ->
    create_try_outcome
      (inr (c_str "only 8, 10, 12 and 16 bit depth supported")) opened []
| create_unsupported_subsampling :
    unsupported_format (getVideoInfo (in_reference in_)) = false ->
    unsupported_depth (getVideoInfo (in_reference in_)) = false ->
    unsupported_subsampling (getVideoInfo (in_reference in_)) = true ->
    create_try_outcome
      (inr (std_string "only 420/422/444 chroma subsampling is supported")) opened []
| create_log_format_rejected :
    supported (getVideoInfo (in_reference in_)) ->
    log_format_out_of_range (mapGetIntSaturated (in_log_format in_)) = true ->
    create_try_outcome
      (inr (std_string "log_format must be 0, 1, 2, or 3"))
      (set_logPath (c_string (in_log_path in_)) opened) []
| create_init_failed ctx r :
    supported (getVideoInfo (in_reference in_)) ->
    log_format_out_of_range (mapGetIntSaturated (in_log_format in_)) = false ->
    r <> 0 ->
    create_try_outcome
      (inr (std_string "failed to initialize VMAF context"))
      (set_vmaf ctx configured) [(vmaf_init n_threads 1, r)]
| create_cuda_state_failed ctx cu r :
    supported (getVideoInfo (in_reference in_)) ->
    log_format_out_of_range (mapGetIntSaturated (in_log_format in_)) = false ->
    r <> 0 ->
    create_try_outcome
      (inr (c_str "problem during vmaf_cuda_state_init"))
      (initialised ctx cu) [(vmaf_init n_threads 1, 0); (vmaf_cuda_state_init, r)]
| create_cuda_import_failed ctx cu r :
    supported (getVideoInfo (in_reference in_)) ->
    log_format_out_of_range (mapGetIntSaturated (in_log_format in_)) = false ->
    r <> 0 ->
    create_try_outcome
      (inr (c_str "problem during vmaf_cuda_import_state"))
      (initialised ctx cu) (init_events ctx cu r)
| create_clips_differ ctx cu :
    supported (getVideoInfo (in_reference in_)) ->
    log_format_out_of_range (mapGetIntSaturated (in_log_format in_)) = false ->
    isSameVideoInfo (getVideoInfo (in_distorted in_)) (getVideoInfo (in_reference in_))
      = false ->
    create_try_outcome
      (inr (std_string "both clips must have the same format and dimensions"))
      (initialised ctx cu) (init_events ctx cu 0)
| create_lengths_differ ctx cu :
    supported (getVideoInfo (in_reference in_)) ->
    log_format_out_of_range (mapGetIntSaturated (in_log_format in_)) = false ->
    isSameVideoInfo (getVideoInfo (in_distorted in_)) (getVideoInfo (in_reference in_))
      = true ->
    (numFrames (getVideoInfo (in_distorted in_))
       =? numFrames (getVideoInfo (in_reference in_))) = false ->
    create_try_outcome
      (inr (std_string "both clips' number of frames do not match"))
      (initialised ctx cu) (init_events ctx cu 0)
| create_models_failed ctx cu e d1 new1 :
    supported (getVideoInfo (in_reference in_)) ->
    log_format_out_of_range (mapGetIntSaturated (in_log_format in_)) = false ->
    clips_match ->
    models_outcome (sized (initialised ctx cu)) (inr e) d1 new1 ->
    create_try_outcome (inr e) d1 (init_events ctx cu 0 ++ new1)
| create_features_failed ctx cu d1 new1 e d2 new2 :
    supported (getVideoInfo (in_reference in_)) ->
    log_format_out_of_range (mapGetIntSaturated (in_log_format in_)) = false ->
    clips_match ->
    models_outcome (sized (initialised ctx cu)) (inl tt) d1 new1 ->
    features_outcome d1 (inr e) d2 new2 ->
    create_try_outcome (inr e) d2 (init_events ctx cu 0 ++ new1 ++ new2)
| create_done ctx cu d1 new1 d2 new2 :
    supported (getVideoInfo (in_reference in_)) ->
    log_format_out_of_range (mapGetIntSaturated (in_log_format in_)) = false ->
    clips_match ->
    models_outcome (sized (initialised ctx cu)) (inl tt) d1 new1 ->
    features_outcome d1 (inl tt) d2 new2 ->
    create_try_outcome (inl tt)
      (set_pixelFormat (pick_pixelFormat (vi d2)) d2)
      (init_events ctx cu 0 ++ new1 ++ new2).

End Setup.

(** The calls of the [catch] block of [vmafCreate]. *)
Definition abort_events (d : VMAFData) (error : string) : list Event :=
  [(mapSetError (filterName d +:+ ": " +:+ error), 0);
   (freeNode (reference d), 0);
   (freeNode (distorted d), 0)]
  ++ map (fun m => (vmaf_model_destroy m, 0)) (model d)
  ++ map (fun m => (vmaf_model_collection_destroy m, 0)) (modelCollection d)
  ++ [(vmaf_close (vmaf d), 0)].

(** The three ways [vmafCreate] ends: the filter is created; the error is
    set on the output map and everything released; or a thrown string
    literal, which the handler does not catch, leaves the function. *)
Inductive vmafCreate_outcome (in_ : VSMap) (userData : string) (n_threads : Z)
    (d0 : VMAFData) : unit + exn -> VMAFData -> list Event -> Prop :=
| filter_created d new :
    create_try_outcome in_ userData n_threads d0 (inl tt) d new ->
    vmafCreate_outcome in_ userData n_threads d0 (inl tt) d
      (new ++ [(createVideoFilter (filterName d) (vi d) d, 0)])
| error_set error d new :
    create_try_outcome in_ userData n_threads d0 (inr (std_string error)) d new ->
    vmafCreate_outcome in_ userData n_threads d0 (inl tt) d
      (new ++ abort_events d error)
| exception_escaped what d new :
    create_try_outcome in_ userData n_threads d0 (inr (c_str what)) d new ->
    vmafCreate_outcome in_ userData n_threads d0 (inr (c_str what)) d new.

(** [d'] is [d] up to the three members that the loops assign. *)
Definition same_setup (d d' : VMAFData) : Prop :=
  d' = set_chroma (chroma d')
         (set_modelCollection (modelCollection d') (set_model (model d') d)).

(** ** The calls of the set-up *)

Definition is_model_call (c : Call) : bool :=
  match c with
  | vmaf_model_load _ _ | vmaf_model_collection_load _ _
  | vmaf_use_features_from_model _ _
  | vmaf_use_features_from_model_collection _ _ => true
  | _ => false
  end.
Definition is_feature_call (c : Call) : bool :=
  match c with vmaf_use_feature _ _ => true | _ => false end.
Definition is_init_call (c : Call) : bool :=
  match c with
  | vmaf_init _ _ | vmaf_cuda_state_init | vmaf_cuda_import_state _ _ => true
  | _ => false
  end.
Definition is_setup_call (c : Call) : bool :=
  is_init_call c || is_model_call c || is_feature_call c.

Definition model_error (e : exn) : Prop :=
  e = std_string "model must be 0, 1, 2, or 3"
  \/ e = std_string "duplicate model specified"
  \/ exists version,
       e = std_string ("failed to load feature extractors from model: " +:+ version)
       \/ e = std_string ("failed to load model: " +:+ version)
       \/ e = std_string ("failed to load feature extractors from model collection: "
                          +:+ version).

Definition feature_error (e : exn) : Prop :=
  e = std_string "feature must be 0, 1, 2, 3, or 4"
  \/ e = std_string "duplicate feature specified"
  \/ exists name, e = std_string ("failed to load feature extractor: " +:+ name).

(** ** Resolution of the requested models *)

(** Model [j] of a request, [name] in [version], was resolved within [tr],
    the calls made after [history], and [d] holds its handles.  Either the
    singleton load succeeded: the model that it stored is entry [j] of the
    model vector, and it is this model whose feature extractors were
    registered into the context of [d].  Or the singleton load failed and
    the collection load that follows it succeeded: the collection that it
    stored is in the vector of collections, and it is this collection whose
    feature extractors were registered; the model that it stored, through
    its first out-parameter, is entry [j] of the model vector. *)
Definition resolved_by (W : World) (history : list Event) (d : VMAFData) (j : nat)
    (name version : string) (tr : list Event) : Prop :=
  (exists before after,
     tr = before
          ++ [(vmaf_model_load name version, 0);
              (vmaf_use_features_from_model (vmaf d)
                 (stored W (history ++ before) (vmaf_model_load name version)), 0)]
          ++ after
     /\ model d !! j = Some (stored W (history ++ before) (vmaf_model_load name version)))
  \/ (exists before r1 after,
        r1 <> 0
        /\ tr = before
                ++ [(vmaf_model_load name version, r1);
                    (vmaf_model_collection_load name version, 0);
                    (vmaf_use_features_from_model_collection (vmaf d)
                       (stored2 W (history ++ before ++ [(vmaf_model_load name version, r1)])
                          (vmaf_model_collection_load name version)), 0)]
                ++ after
        /\ model d !! j
           = Some (stored W (history ++ before ++ [(vmaf_model_load name version, r1)])
                     (vmaf_model_collection_load name version))
        /\ stored2 W (history ++ before ++ [(vmaf_model_load name version, r1)])
             (vmaf_model_collection_load name version) ∈ modelCollection d).

(** The engine handles of a set-up whose calls, made after [history], are
    [new] and which leaves the instance data [d]: the context is the one
    that [vmaf_init] stored, the CUDA state the one that
    [vmaf_cuda_state_init] stored. *)
Definition context_stored (W : World) (history : list Event) (d : VMAFData)
    (new : list Event) : Prop :=
  (forall code rest,
     new = (vmaf_init (numThreads W) 1, code) :: rest ->
     vmaf d = stored W history (vmaf_init (numThreads W) 1))
  /\ (forall code rest,
        new = (vmaf_init (numThreads W) 1, 0) :: (vmaf_cuda_state_init, code) :: rest ->
        cu_state d
        = stored W (history ++ [(vmaf_init (numThreads W) 1, 0)]) vmaf_cuda_state_init).

(** A singleton load that failed is followed at once by the collection
    load of the same model. *)
Fixpoint failed_loads_fall_back (tr : list Event) : Prop :=
  match tr with
  | [] => True
  | e :: tr' =>
      match e.1 with
      | vmaf_model_load name version =>
          e.2 <> 0 ->
          exists r2 rest, tr' = (vmaf_model_collection_load name version, r2) :: rest
      | _ => True
      end
      /\ failed_loads_fall_back tr'
  end.

(** A collection load comes right after the failed singleton load of the
    same model; [prev] is the event before [tr]. *)
Fixpoint collection_loads_follow (prev : option Event) (tr : list Event) : Prop :=
  match tr with
  | [] => True
  | e :: tr' =>
      match e.1 with
      | vmaf_model_collection_load name version =>
          exists r1, prev = Some (vmaf_model_load name version, r1) /\ r1 <> 0
      | _ => True
      end
      /\ collection_loads_follow (Some e) tr'
  end.

(** The calls of [vmafFree], in the order of the source. *)
Definition teardown_calls (d : VMAFData) : list Call :=
  [freeNode (reference d); freeNode (distorted d);
   vmaf_read_pictures (vmaf d) None None 0]
  ++ map (fun m => vmaf_score_pooled (vmaf d) m VMAF_POOL_METHOD_MEAN 0
                     (to_unsigned (to_int (numFrames (vi d) - 1)))) (model d)
  ++ map (fun m => vmaf_score_pooled_model_collection (vmaf d) m VMAF_POOL_METHOD_MEAN 0
                     (to_unsigned (to_int (numFrames (vi d) - 1)))) (modelCollection d)
  ++ [vmaf_write_output (vmaf d) (logPath d) (logFormat d)]
  ++ map vmaf_model_destroy (model d)
  ++ map vmaf_model_collection_destroy (modelCollection d)
  ++ [vmaf_close (vmaf d)].

(** The pooled-score calls among a list of calls. *)
Fixpoint extractions (calls : list Call) : list Call :=
  match calls with
  | [] => []
  | c :: calls' =>
      match c with
      | vmaf_score_pooled _ _ _ _ _ | vmaf_score_pooled_model_collection _ _ _ _ _ =>
          c :: extractions calls'
      | _ => extractions calls'
      end
  end.

Definition is_createVideoFilter (c : Call) : bool :=
  match c with createVideoFilter _ _ _ => true | _ => false end.
Definition is_mapSetError (c : Call) : bool :=
  match c with mapSetError _ => true | _ => false end.

(** How many singleton loads of a trace failed. *)
Fixpoint count_failed_loads (tr : list Event) : nat :=
  match tr with
  | [] => 0
  | (vmaf_model_load _ _, r) :: tr' =>
      ((if (r =? 0)%Z then 0 else 1) + count_failed_loads tr')%nat
  | _ :: tr' => count_failed_loads tr'
  end.

(** ** Sample clips, arguments and worlds *)

Definition yuv420p8 : VSVideoFormat :=
  {| colorFamily := cfYUV; sampleType := stInteger; bitsPerSample := 8;
     bytesPerSample := 1; subSamplingW := 1; subSamplingH := 1; numPlanes := 3 |}.
Definition rgb24 : VSVideoFormat :=
  {| colorFamily := cfRGB; sampleType := stInteger; bitsPerSample := 8;
     bytesPerSample := 1; subSamplingW := 0; subSamplingH := 0; numPlanes := 3 |}.

Definition sample_clip (id : Z) (f : VSVideoFormat) (w h frames : Z) : VSNode :=
  {| node_id := id;
     getVideoInfo := {| format := f; fpsNum := 24; fpsDen := 1;
                        width := w; height := h; numFrames := frames |} |}.

Definition sample_args (a b : VSNode) (lf : option Z) (models features : option (list Z))
    : VSMap :=
  {| in_reference := a; in_distorted := b; in_log_path := "vmaf.log";
     in_log_format := lf; in_model := models; in_feature := features |}.

(** A world in which exactly the calls picked by [fails] answer an error. *)
Definition sample_world (fails : Call -> bool) : World :=
  {| answer := fun _ c => if fails c then -1 else 0;
     stored := fun h _ => 100 + Z.of_nat (length h);
     stored2 := fun h _ => 200 + Z.of_nat (length h);
     getFrameWidth := fun f plane =>
       if plane =? 0 then width (getVideoInfo (frame_node f))
       else width (getVideoInfo (frame_node f)) / 2;
     getFrameHeight := fun f plane =>
       if plane =? 0 then height (getVideoInfo (frame_node f))
       else height (getVideoInfo (frame_node f)) / 2;
     numThreads := 4 |}.

Definition nothing_fails (c : Call) : bool := false.
Definition is_model_load (c : Call) : bool :=
  match c with vmaf_model_load _ _ => true | _ => false end.
Definition is_model_collection_load (c : Call) : bool :=
  match c with vmaf_model_collection_load _ _ => true | _ => false end.
Definition is_score_pooled (c : Call) : bool :=
  match c with vmaf_score_pooled _ _ _ _ _ => true | _ => false end.
Definition is_score_pooled_model_collection (c : Call) : bool :=
  match c with vmaf_score_pooled_model_collection _ _ _ _ _ => true | _ => false end.

(** Two 10-frame 4:2:0 clips, the default model and PSNR. *)
Definition sample_in : VSMap :=
  sample_args (sample_clip 1 yuv420p8 64 48 10) (sample_clip 2 yuv420p8 64 48 10)
    (Some 1) (Some [0]) (Some [0]).

(** The instance data that [vmafCreate] builds from them. *)
Definition sample_data : VMAFData :=
  Eval vm_compute in
    data (vmafCreate (sample_world nothing_fails) sample_in "VMAF"
            {| data := make_unique_VMAFData; trace := [] |}).2.

(** The bootstrap model, which libvmaf ships as a collection: its
    singleton load fails. *)
Definition bootstrap_in : VSMap :=
  sample_args (sample_clip 1 yuv420p8 64 48 10) (sample_clip 2 yuv420p8 64 48 10)
    None (Some [2]) None.
Definition bootstrap_data : VMAFData :=
  Eval vm_compute in
    data (vmafCreate (sample_world is_model_load) bootstrap_in "VMAF"
            {| data := make_unique_VMAFData; trace := [] |}).2.

(** An RGB reference clip. *)
Definition rgb_in : VSMap :=
  sample_args (sample_clip 1 rgb24 64 48 10) (sample_clip 2 rgb24 64 48 10)
    None None None.

(** ** Observations on the life of a filter *)

Definition is_getFrameFilter (c : Call) : bool :=
  match c with getFrameFilter _ _ => true | _ => false end.
Definition is_freeNode (c : Call) : bool :=
  match c with freeNode _ => true | _ => false end.
Definition is_model_destroy (c : Call) : bool :=
  match c with vmaf_model_destroy _ => true | _ => false end.
Definition is_collection_destroy (c : Call) : bool :=
  match c with vmaf_model_collection_destroy _ => true | _ => false end.
Definition is_vmaf_close (c : Call) : bool :=
  match c with vmaf_close _ => true | _ => false end.

(** The calls that give a node or an engine handle back. *)
Definition is_release (c : Call) : bool :=
  is_freeNode c || is_model_destroy c || is_collection_destroy c || is_vmaf_close c.

(** The frames an activation asks the host to produce, and the frames it
    takes from the host. *)
Fixpoint requested (tr : list Event) : list VSFrame :=
  match tr with
  | [] => []
  | (requestFrameFilter n node, _) :: tr' => frame_of node n :: requested tr'
  | _ :: tr' => requested tr'
  end.
Fixpoint fetched (tr : list Event) : list VSFrame :=
  match tr with
  | [] => []
  | (getFrameFilter n node, _) :: tr' => frame_of node n :: fetched tr'
  | _ :: tr' => fetched tr'
  end.

(** 1 for a frame handed back to the host, 0 for none. *)
Definition handed_back (o : option VSFrame) : nat :=
  match o with Some _ => 1 | None => 0 end.

(** The size of a row of a plane, as [bitblt] receives it: the product of
    two [int]s, formed in [int] and converted to [size_t]. *)
Definition row_size (W : World) (d : VMAFData) (f : VSFrame) (plane : Z) : Z :=
  to_size_t (to_int (getFrameWidth W f plane * bytesPerSample (format (vi d)))).

(** The two copies of one plane: its rows are as wide as the plane of the
    source frame, in bytes, and as many as it has. *)
Definition plane_copies (W : World) (d : VMAFData) (rf df : VSFrame) (plane : Z)
    : list Event :=
  [(bitblt ref plane rf (row_size W d rf plane) (to_size_t (getFrameHeight W rf plane)), 0);
   (bitblt dist plane df (row_size W d df plane) (to_size_t (getFrameHeight W df plane)), 0)].

(** How many planes of a frame are read: all of them with the chroma flag,
    the first one without. *)
Definition planes_read (d : VMAFData) : nat :=
  if chroma d then Z.to_nat (numPlanes (format (vi d)))
  else Nat.min 1 (Z.to_nat (numPlanes (format (vi d)))).

Definition expected_copies (W : World) (d : VMAFData) (rf df : VSFrame) : list Event :=
  flat_map (fun p => plane_copies W d rf df (Z.of_nat p)) (seq 0 (planes_read d)).

(** The calls of a trace that [p] picks, with their answers. *)
Fixpoint select (p : Call -> bool) (tr : list Event) : list Event :=
  match tr with
  | [] => []
  | e :: tr' => if p e.1 then e :: select p tr' else select p tr'
  end.

(** The three calls that make the engine context, in the order of the
    source. *)
Definition init_calls (n_threads : Z) (ctx cu : ptr) : list Call :=
  [vmaf_init n_threads 1; vmaf_cuda_state_init; vmaf_cuda_import_state ctx cu].

(** A call that names a model or a feature names an entry of the tables:
    a model by its name and its version, which stand at the same index. *)
Definition names_table_entry (c : Call) : Prop :=
  match c with
  | vmaf_model_load name version | vmaf_model_collection_load name version =>
      exists i : nat, modelName !! i = Some name /\ modelVersion !! i = Some version
  | vmaf_use_feature _ name => exists i : nat, featureName !! i = Some name
  | _ => True
  end.

Definition is_write_output (c : Call) : bool :=
  match c with vmaf_write_output _ _ _ => true | _ => false end.


(** ** More sample requests *)

Definition is_cuda_state_init (c : Call) : bool :=
  match c with vmaf_cuda_state_init => true | _ => false end.

(** Two models and two features, the JSON log. *)
Definition two_models_in : VSMap :=
  sample_args (sample_clip 1 yuv420p8 64 48 10) (sample_clip 2 yuv420p8 64 48 10)
    (Some 1) (Some [1; 0]) (Some [2; 4]).

(** A request whose second model is out of range. *)
Definition bad_model_in : VSMap :=
  sample_args (sample_clip 1 yuv420p8 64 48 10) (sample_clip 2 yuv420p8 64 48 10)
    (Some 3) (Some [0; 5]) None.

(** A request whose [log_format] is out of range. *)
Definition bad_log_format_in : VSMap :=
  sample_args (sample_clip 1 yuv420p8 64 48 10) (sample_clip 2 yuv420p8 64 48 10)
    (Some 7) None None.

(** A distorted clip half as wide as the reference. *)
Definition narrow_in : VSMap :=
  sample_args (sample_clip 1 yuv420p8 64 48 10) (sample_clip 2 yuv420p8 32 48 10)
    None (Some [0]) None.

(** A request whose second feature is out of range. *)
Definition bad_feature_in : VSMap :=
  sample_args (sample_clip 1 yuv420p8 64 48 10) (sample_clip 2 yuv420p8 64 48 10)
    (Some 1) (Some [0]) (Some [0; 7]).


(** * Proofs *)

Section Proofs.

Variable W : World.

(** ** Running the monad *)

Lemma run_bind {A B} (c : M A) (k : A -> M B) s :
  (c ≫= k) s = match c s with
               | (inl a, s') => k a s'
               | (inr e, s') => (inr e, s')
               end.
Proof. reflexivity. Qed.

Lemma run_throw_if b e s :
  throw_if b e s = if b then (inr e, s) else (inl tt, s).
Proof. by destruct b. Qed.

Lemma count_if_app p tr1 tr2 :
  count_if p (tr1 ++ tr2) = (count_if p tr1 + count_if p tr2)%nat.
Proof. induction tr1 as [|e tr1 IH]; cbn; [done | rewrite IH; lia]. Qed.

Lemma count_if_none p tr :
  Forall (fun e : Event => p e.1 = false) tr -> count_if p tr = 0%nat.
Proof. induction 1 as [|e tr He _ IH]; cbn; [done | by rewrite He, IH]. Qed.

(** ** [vmafGetFrame] *)

Lemma copy_planes_run d rf df left plane s :
  0 <= plane ->
  exists new,
    copy_planes W d rf df left plane s
      = (inl tt, {| data := data s; trace := trace s ++ new |})
    /\ Forall (fun e : Event => is_bitblt e.1 = true /\ e.2 = 0) new
    /\ (forall p,
          ((exists w h, (bitblt ref p rf w h, 0) ∈ new)
             <-> (plane <= p < plane + Z.of_nat left /\ (p = 0 \/ chroma d = true)))
          /\ ((exists w h, (bitblt dist p df w h, 0) ∈ new)
             <-> (plane <= p < plane + Z.of_nat left /\ (p = 0 \/ chroma d = true)))).
Proof.
  revert plane s. induction left as [|left IH]; intros plane s Hp.
  - exists []. cbn. rewrite app_nil_r. destruct s; split; [done|]. split; [constructor|].
    intros p. split; (split; [intros (w & h & H); inversion H | lia]).
  - cbn [copy_planes].
    destruct (negb (plane =? 0) && negb (chroma d)) eqn:Hb.
    + exists []. rewrite app_nil_r. destruct s; split; [done|]. split; [constructor|].
      apply andb_true_iff in Hb as [H1 H2]. apply negb_true_iff in H1, H2.
      apply Z.eqb_neq in H1.
      intros p. split; (split; [intros (w & h & H); inversion H |]);
        (intros [? [?|?]]; [lia | congruence]).
    + destruct (IH (plane + 1)
                  {| data := data s;
                     trace := (trace s ++ [(bitblt ref plane rf
                        (to_size_t (to_int (getFrameWidth W rf plane
                                            * bytesPerSample (format (vi d)))))
                        (to_size_t (getFrameHeight W rf plane)), 0)]) ++
                       [(bitblt dist plane df
                        (to_size_t (to_int (getFrameWidth W df plane
                                            * bytesPerSample (format (vi d)))))
                        (to_size_t (getFrameHeight W df plane)), 0)] |})
        as (new & Hrun & Hall & Hin); [lia|].
      eexists (_ :: _ :: new). split; [|split].
      * do 2 (rewrite run_bind; cbn [call_void data trace]). rewrite Hrun. cbn [data trace].
        f_equal. f_equal. by rewrite <- !app_assoc.
      * repeat constructor; done.
      * assert (Hc : plane = 0 \/ chroma d = true).
        { apply andb_false_iff in Hb as [H|H]; apply negb_false_iff in H;
            [left; by apply Z.eqb_eq | by right]. }
        intros p. destruct (Hin p) as [Hr Hd].
        split; split.
        -- intros (w & h & H). apply elem_of_cons in H as [H|H].
           { inversion H; subst. split; [lia|done]. }
           apply elem_of_cons in H as [H|H]; [inversion H|].
           destruct Hr as [Hr _]. destruct Hr as [? ?]; [by eauto|]. split; [lia|done].
        -- intros [Hrange Hpc]. destruct (decide (p = plane)) as [->|Hne].
           { do 2 eexists. apply elem_of_cons. left. reflexivity. }
           destruct Hr as [_ Hr]. destruct Hr as (w & h & H); [split; [lia|done]|].
           exists w, h. do 2 (apply elem_of_cons; right). done.
        -- intros (w & h & H). apply elem_of_cons in H as [H|H]; [inversion H|].
           apply elem_of_cons in H as [H|H].
           { inversion H; subst. split; [lia|done]. }
           destruct Hd as [Hd _]. destruct Hd as [? ?]; [by eauto|]. split; [lia|done].
        -- intros [Hrange Hpc]. destruct (decide (p = plane)) as [->|Hne].
           { do 2 eexists. apply elem_of_cons. right. apply elem_of_cons. left. reflexivity. }
           destruct Hd as [_ Hd]. destruct Hd as (w & h & H); [split; [lia|done]|].
           exists w, h. do 2 (apply elem_of_cons; right). done.
Qed.

Lemma getFrame_try_run d n rf df s :
  exists copies r new,
    copies_of d rf df copies
    /\ getFrame_try W d n rf df s = (r, {| data := data s; trace := trace s ++ new |})
    /\ getFrame_try_outcome d n copies r new.
Proof.
  unfold getFrame_try. fold (alloc_call d ref) (alloc_call d dist) (submit_call d n).
  set (r1 := answer W (trace s) (alloc_call d ref)).
  set (s1 := {| data := data s; trace := trace s ++ [(alloc_call d ref, r1)] |}).
  set (r2 := answer W (trace s1) (alloc_call d dist)).
  set (s2 := {| data := data s1; trace := trace s1 ++ [(alloc_call d dist, r2)] |}).
  destruct (copy_planes_run d rf df (Z.to_nat (numPlanes (format (vi d)))) 0 s2)
    as (copies & Hrun & Hall & Hin); [done|].
  assert (Hcopies : copies_of d rf df copies).
  { split; [done|]. intros p. destruct (Hin p) as [H1 H2]. split.
    - rewrite H1. split; intros [? ?]; (split; [lia|done]).
    - rewrite H2. split; intros [? ?]; (split; [lia|done]). }
  exists copies.
  rewrite run_bind. cbn [call data trace]. fold r1 s1.
  rewrite run_bind.
  destruct (r1 =? 0) eqn:E1; cbn [negb].
  - apply Z.eqb_eq in E1. cbn [call data trace]. fold r2 s2.
    rewrite run_bind, run_throw_if.
    destruct (r2 =? 0) eqn:E2; cbn [negb].
    + apply Z.eqb_eq in E2. fold s2. rewrite run_bind, Hrun. rewrite run_bind.
      cbn [call data trace].
      rewrite run_throw_if.
      set (r3 := answer W _ _).
      destruct (r3 =? 0) eqn:E3; cbn [negb].
      * apply Z.eqb_eq in E3. eexists _, _. split; [done|]. split; [|apply try_succeeds].
        subst s1 s2. cbn [data trace]. rewrite E1, E2, E3.
        f_equal. f_equal. by rewrite <- !app_assoc.
      * apply Z.eqb_neq in E3. eexists _, _. split; [done|].
        split; [|by apply (try_submit_fails _ _ _ r3)].
        subst s1 s2. cbn [data trace]. rewrite E1, E2.
        f_equal. f_equal. by rewrite <- !app_assoc.
    + apply Z.eqb_neq in E2. eexists _, _. split; [done|].
      split; [|by apply (try_dist_alloc_fails _ _ _ r2)].
      subst s1 s2. cbn [data trace]. rewrite E1. f_equal. f_equal. by rewrite <- !app_assoc.
  - cbn [mret M_ret ret_M]. rewrite run_bind, run_throw_if.
    rewrite E1. cbn [negb]. apply Z.eqb_neq in E1. eexists _, _. split; [done|].
    split; [|by apply (try_ref_alloc_fails _ _ _ r1)].
    done.
Qed.

Lemma vmafGetFrame_ready d n frameCtx tr0 :
  exists copies r new,
    copies_of d (frame_of (reference d) n) (frame_of (distorted d) n) copies
    /\ getFrame_try_outcome d n copies r new
    /\ vmafGetFrame W n arAllFramesReady frameCtx {| data := d; trace := tr0 |}
       = match r with
         | inl _ =>
             (inl (Some (frame_of (reference d) n)),
              {| data := d;
                 trace := tr0 ++ acquire d n ++ new
                            ++ [(freeFrame (frame_of (distorted d) n), 0)] |})
         | inr e =>
             (inl None,
              {| data := d;
                 trace := tr0 ++ acquire d n ++ new
                            ++ unwind d n frameCtx
                                 (match e with
                                  | c_str what | std_string what => what
                                  | undefined_behaviour => ""
                                  end) |})
         end.
Proof.
  unfold vmafGetFrame. rewrite run_bind. cbn [get_data data trace].
  do 2 (rewrite run_bind; cbn [call_void data trace]).
  rewrite run_bind. unfold try_catch_c_str.
  destruct (getFrame_try_run d n (frame_of (reference d) n) (frame_of (distorted d) n)
              {| data := d; trace := (tr0 ++ [(getFrameFilter n (reference d), 0)])
                                       ++ [(getFrameFilter n (distorted d), 0)] |})
    as (copies & r & new & Hcopies & Hrun & Hout).
  exists copies, r, new. split; [done|]. split; [done|].
  unfold frame_of in *. rewrite Hrun. cbn [data trace].
  inversion Hout; subst.
  - do 5 (rewrite run_bind; cbn [call_void data trace]).
    cbn [mret M_ret ret_M]. f_equal. f_equal. unfold acquire, unwind, frame_of.
    rewrite <- !app_assoc. done.
  - do 5 (rewrite run_bind; cbn [call_void data trace]).
    cbn [mret M_ret ret_M]. f_equal. f_equal. unfold acquire, unwind, frame_of.
    rewrite <- !app_assoc. done.
  - do 5 (rewrite run_bind; cbn [call_void data trace]).
    cbn [mret M_ret ret_M]. f_equal. f_equal. unfold acquire, unwind, frame_of.
    rewrite <- !app_assoc. done.
  - rewrite run_bind; cbn [call_void data trace].
    cbn [mret M_ret ret_M]. f_equal. f_equal. unfold acquire, frame_of.
    rewrite <- !app_assoc. done.
Qed.

Lemma copies_answer_0 d rf df copies :
  copies_of d rf df copies -> Forall (fun e : Event => e.2 = 0) copies.
Proof. intros [H _]. eapply Forall_impl; [exact H|]. by intros e [_ ?]. Qed.

Lemma copies_count p d rf df copies :
  copies_of d rf df copies ->
  (forall c, is_bitblt c = true -> p c = false) ->
  count_if p copies = 0%nat.
Proof.
  intros [H _] Hp. apply count_if_none. eapply Forall_impl; [exact H|].
  intros e [? _]. by apply Hp.
Qed.

Ltac in_list :=
  solve [ apply list_elem_of_here
        | assumption
        | apply list_elem_of_further; in_list
        | apply elem_of_app; left; in_list
        | apply elem_of_app; right; in_list ].

Ltac count_simpl := repeat first [rewrite count_if_app | progress cbn].

(** C1.  A frame for which every call succeeds (both pictures allocated,
    the planes copied, the pair submitted): the step returns the reference
    frame it was handed; it releases one frame only, the distorted one, as
    its last call; it submits the pair once to the context and sets no
    error, and the instance data is as before. *)
Theorem frame_success_returns_reference d n frameCtx tr0 r s new :
  vmafGetFrame W n arAllFramesReady frameCtx {| data := d; trace := tr0 |} = (r, s) ->
  trace s = tr0 ++ new ->
  Forall (fun e : Event => e.2 = 0) new ->
  r = inl (Some (frame_of (reference d) n))
  /\ data s = d
  /\ (exists before,
        new = before ++ [(freeFrame (frame_of (distorted d) n), 0)]
        /\ count_if is_freeFrame before = 0%nat)
  /\ (submit_call d n, 0) ∈ new
  /\ count_if is_read_pictures new = 1%nat
  /\ count_if is_setFilterError new = 0%nat.
Proof.
  intros Hrun Htr Hok.
  destruct (vmafGetFrame_ready d n frameCtx tr0) as (copies & r' & new' & Hc & Hout & Heq).
  rewrite Heq in Hrun. clear Heq. rewrite Forall_forall in Hok.
  destruct Hout as [r1 Hr|r2 Hr|r3 Hr|]; injection Hrun as <- <-; cbn [trace] in Htr;
    apply app_inv_head in Htr; subst new.
  1: exfalso; apply Hr, (Hok (alloc_call d ref, r1)); in_list.
  1: exfalso; apply Hr, (Hok (alloc_call d dist, r2)); in_list.
  1: exfalso; apply Hr, (Hok (submit_call d n, r3)); in_list.
  split; [done|]. split; [done|].
  split; [|split; [|split]].
  - exists (acquire d n ++ [(alloc_call d ref, 0); (alloc_call d dist, 0)] ++ copies
              ++ [(submit_call d n, 0)]).
    split; [by rewrite <- !app_assoc|].
    count_simpl. rewrite (copies_count _ _ _ _ _ Hc); [done|].
    by intros [].
  - in_list.
  - count_simpl. rewrite (copies_count _ _ _ _ _ Hc); [done|]. by intros [].
  - count_simpl. rewrite (copies_count _ _ _ _ _ Hc); [done|]. by intros [].
Qed.

(** C2.  A frame for which an allocation or the submission fails: the step
    yields no frame.  The call that failed is not made again; the reason,
    prefixed with the filter name, is set on the context of this frame, and
    both host frames and both engine pictures are released, all before the
    step returns to its caller. *)
Theorem frame_failure_unwinds d n frameCtx tr0 r s new :
  vmafGetFrame W n arAllFramesReady frameCtx {| data := d; trace := tr0 |} = (r, s) ->
  trace s = tr0 ++ new ->
  Exists (fun e : Event => e.2 <> 0) new ->
  r = inl None
  /\ data s = d
  /\ exists before failed code reason,
       new = before ++ [(failed, code);
                        (setFilterError (filterName d +:+ ": " +:+ reason) frameCtx, 0);
                        (freeFrame (frame_of (reference d) n), 0);
                        (freeFrame (frame_of (distorted d) n), 0);
                        (vmaf_picture_unref ref, 0);
                        (vmaf_picture_unref dist, 0)]
       /\ code <> 0
       /\ ((failed = alloc_call d ref \/ failed = alloc_call d dist)
              /\ reason = "failed to allocate picture"%string
           \/ failed = submit_call d n /\ reason = "failed to read pictures"%string)
       /\ Forall (fun e : Event => e.2 = 0) before
       /\ (count_if (is_picture_alloc ref) new <= 1)%nat
       /\ (count_if (is_picture_alloc dist) new <= 1)%nat
       /\ (count_if is_read_pictures new <= 1)%nat
       /\ count_if is_setFilterError new = 1%nat.
Proof.
  intros Hrun Htr Hfail.
  destruct (vmafGetFrame_ready d n frameCtx tr0) as (copies & r' & new' & Hc & Hout & Heq).
  rewrite Heq in Hrun. clear Heq.
  pose proof (copies_answer_0 _ _ _ _ Hc) as H0.
  assert (Hcount : forall p, (forall c, is_bitblt c = true -> p c = false) ->
                             count_if p copies = 0%nat)
    by (intros p; apply (copies_count _ _ _ _ _ Hc)).
  destruct Hout as [r1 Hr|r2 Hr|r3 Hr|]; injection Hrun as <- <-; cbn [trace] in Htr;
    apply app_inv_head in Htr; subst new.
  - split; [done|]. split; [done|].
    exists (acquire d n), (alloc_call d ref), r1, "failed to allocate picture"%string.
    split; [done|]. split; [done|]. split; [by left; split; [left|]|].
    split; [by repeat constructor|]. cbn. lia.
  - split; [done|]. split; [done|].
    exists (acquire d n ++ [(alloc_call d ref, 0)]), (alloc_call d dist), r2,
      "failed to allocate picture"%string.
    split; [done|]. split; [done|]. split; [by left; split; [right|]|].
    split; [by repeat constructor|]. cbn. lia.
  - split; [done|]. split; [done|].
    exists (acquire d n ++ [(alloc_call d ref, 0); (alloc_call d dist, 0)] ++ copies),
      (submit_call d n), r3, "failed to read pictures"%string.
    split; [by rewrite <- !app_assoc|]. split; [done|]. split; [by right|].
    split; [repeat (apply Forall_app; split); try done; by repeat constructor|].
    count_simpl. rewrite !Hcount by (by intros []). cbn. lia.
  - exfalso. apply Exists_exists in Hfail as ((c & x) & Hin & Hx). cbn in Hx.
    rewrite Forall_forall in H0.
    repeat (apply elem_of_app in Hin as [Hin|Hin] || apply elem_of_cons in Hin as [Hin|Hin]);
      try (injection Hin as _ ->; done).
    + by apply H0 in Hin.
    + by apply elem_of_nil in Hin.
    + by apply elem_of_nil in Hin.
Qed.

(** ** Steps of the teardown *)

Lemma without_log_app tr1 tr2 :
  without_log (tr1 ++ tr2) = without_log tr1 ++ without_log tr2.
Proof.
  induction tr1 as [|[c r] tr1 IH]; cbn; [done|].
  destruct (is_logMessage c); cbn; by rewrite IH.
Qed.

Lemma count_failed_app tr1 tr2 :
  count_failed (tr1 ++ tr2) = (count_failed tr1 + count_failed tr2)%nat.
Proof. induction tr1 as [|[c r] tr1 IH]; cbn; [done | rewrite IH; lia]. Qed.

Lemma failures_logged_app d tr1 tr2 :
  failures_logged d tr1 -> failures_logged d tr2 -> failures_logged d (tr1 ++ tr2).
Proof.
  induction tr1 as [|[c r] tr1 IH]; cbn; [done|].
  intros [H1 H2] H3. split; [|by apply IH].
  intros Hr. destruct (H1 Hr) as [rest ->]. by eexists.
Qed.

Lemma step_events_app d calls1 calls2 new1 new2 :
  step_events d calls1 new1 -> step_events d calls2 new2 ->
  step_events d (calls1 ++ calls2) (new1 ++ new2).
Proof.
  intros [] []. split.
  - rewrite without_log_app. congruence.
  - by apply failures_logged_app.
  - rewrite count_if_app, count_failed_app. congruence.
Qed.

Lemma quiet_steps d calls new :
  step_events d calls new -> Forall (fun e : Event => e.2 = 0) new ->
  new = map (fun c => (c, 0)) calls.
Proof.
  intros [<- _ Hcount] Hok.
  assert (Hfailed : count_failed new = 0%nat).
  { clear Hcount. induction Hok as [|[c r] tr He _ IH]; [done|].
    cbn in *. subst r. done. }
  rewrite Hfailed in Hcount. clear Hfailed.
  induction Hok as [|[c r] tr He _ IH]; [done|]. cbn in *. subst r.
  destruct (is_logMessage c); [done|]. cbn. f_equal. by apply IH.
Qed.

Lemma steps_outcome_app stale d calls1 calls2 new1 r new2 :
  steps_outcome stale d calls1 (inl tt) new1 ->
  steps_outcome stale d calls2 r new2 ->
  steps_outcome stale d (calls1 ++ calls2) r (new1 ++ new2).
Proof.
  intros H1 H2. inversion H1 as [? Hs1 Hq1|]; subst.
  inversion H2 as [? Hs2 Hq2|made c code rest Hst Hcalls Hcode]; subst.
  - constructor; [by apply step_events_app|].
    intros Hst. apply Forall_app. split; [by apply Hq1 | by apply Hq2].
  - rewrite (quiet_steps d calls1 new1 Hs1 (Hq1 eq_refl)).
    unfold Event in *. rewrite (app_assoc (map _ calls1)), <- map_app.
    apply (steps_undefined _ _ _ (calls1 ++ made) c code rest); [done| |done].
    by rewrite <- app_assoc.
Qed.

Lemma steps_outcome_stop stale d calls1 calls2 e new1 :
  steps_outcome stale d calls1 (inr e) new1 ->
  steps_outcome stale d (calls1 ++ calls2) (inr e) new1.
Proof.
  intros H1. inversion H1 as [|made c code rest Hst Hcalls Hcode]; subst.
  apply (steps_undefined _ _ _ made c code (rest ++ calls2)); [done| |done].
  by rewrite <- app_assoc.
Qed.

Lemma runs_steps_seq stale d (c1 c2 : M unit) calls1 calls2 :
  runs_steps stale d c1 calls1 -> runs_steps stale d c2 calls2 ->
  runs_steps stale d (c1 ≫= fun _ => c2) (calls1 ++ calls2).
Proof.
  intros H1 H2 s. destruct (H1 s) as (r1 & new1 & E1 & O1).
  rewrite run_bind, E1. destruct r1 as [[]|e].
  - destruct (H2 {| data := data s; trace := trace s ++ new1 |}) as (r2 & new2 & E2 & O2).
    exists r2, (new1 ++ new2). rewrite E2. cbn [data trace]. rewrite app_assoc.
    split; [done|]. by apply steps_outcome_app.
  - exists (inr e), new1. split; [done|]. by apply steps_outcome_stop.
Qed.

Lemma attempt_run stale d c msg :
  is_logMessage c = false ->
  msg = failure_message c ->
  runs_steps stale d (call W c ≫= fun r => log_if stale d r msg) [c].
Proof.
  intros Hc -> s. rewrite run_bind. cbn [call data trace]. unfold log_if.
  set (r := answer W (trace s) c).
  destruct (r =? 0) eqn:E; cbn [negb].
  - exists (inl tt), [(c, r)]. split; [done|]. constructor.
    + split; cbn; rewrite ?Hc, ?E; try done. split; [|done]. apply Z.eqb_eq in E. done.
    + intros _. apply Z.eqb_eq in E. by repeat constructor.
  - destruct stale.
    + exists (inr undefined_behaviour), [(c, r)]. split; [done|].
      apply (steps_undefined _ _ _ [] c r []); [done|done|]. by apply Z.eqb_neq.
    + exists (inl tt), [(c, r); (logMessage (filterName d +:+ ": " +:+ failure_message c), 0)].
      split; [unfold call_void; cbn [data trace]; by rewrite <- app_assoc|].
      constructor; [|done].
      split; cbn; rewrite ?Hc, ?E; try done. split; [by eexists|done].
Qed.

Lemma attempt_then stale d c msg (k : M unit) calls :
  is_logMessage c = false ->
  msg = failure_message c ->
  runs_steps stale d k calls ->
  runs_steps stale d (call W c ≫= fun r => log_if stale d r msg ≫= fun _ => k) (c :: calls).
Proof.
  intros Hc Hmsg Hk s.
  destruct (runs_steps_seq stale d _ k [c] calls (attempt_run stale d c msg Hc Hmsg) Hk s)
    as (r & new & E & O).
  exists r, new. split; [|done]. rewrite <- E. rewrite !run_bind.
  by destruct (call W c s) as [[?|?] ?].
Qed.

Lemma for_each_attempt_run stale d (mk : ptr -> Call) msg l :
  (forall m, is_logMessage (mk m) = false) ->
  (forall m, msg = failure_message (mk m)) ->
  runs_steps stale d
    (for_each (fun m => call W (mk m) ≫= fun r => log_if stale d r msg) l) (map mk l).
Proof.
  intros Hc Hmsg. induction l as [|m l IH].
  - intros s. exists (inl tt), []. cbn. rewrite app_nil_r. split; [by destruct s|].
    constructor; [by split|]. intros _. constructor.
  - cbn [for_each map].
    apply (runs_steps_seq stale d _ _ [mk m] (map mk l)); [|done].
    by apply attempt_run.
Qed.

Lemma void_step stale d c :
  is_logMessage c = false -> runs_steps stale d (call_void c) [c].
Proof.
  intros Hc s. exists (inl tt), [(c, 0)]. split; [done|].
  constructor; [|intros _; by repeat constructor].
  split; cbn; by rewrite ?Hc.
Qed.

Lemma for_each_void_step stale d (mk : ptr -> Call) l :
  (forall m, is_logMessage (mk m) = false) ->
  runs_steps stale d (for_each (fun m => call_void (mk m)) l) (map mk l).
Proof.
  intros Hc. induction l as [|m l IH].
  - intros s. exists (inl tt), []. cbn. rewrite app_nil_r. split; [by destruct s|].
    constructor; [by split|]. intros _. constructor.
  - cbn [for_each map].
    apply (runs_steps_seq stale d _ _ [mk m] (map mk l)); [|done].
    by apply void_step.
Qed.

Lemma for_each_void_steps (mk : ptr -> Call) d l s :
  (forall m, is_logMessage (mk m) = false) ->
  exists new,
    for_each (fun m => call_void (mk m)) l s
      = (inl tt, {| data := data s; trace := trace s ++ new |})
    /\ new = map (fun m => (mk m, 0)) l
    /\ step_events d (map mk l) new.
Proof.
  intros Hc. revert s. induction l as [|m l IH]; intros s.
  - exists []. cbn. rewrite app_nil_r. by destruct s.
  - cbn [for_each]. rewrite run_bind. cbn [call_void data trace].
    destruct (IH {| data := data s; trace := trace s ++ [(mk m, 0)] |}) as (new2 & -> & -> & H2).
    eexists. cbn [data trace]. rewrite <- app_assoc. split; [done|]. split; [done|].
    apply (step_events_app d [mk m] (map mk l) [(mk m, 0)]); [|done].
    split; cbn; rewrite ?Hc; done.
Qed.

(** ** Runs of [vmafCreate] and of its loops *)

Lemma model_body_run model_ i s :
  exists r d' new,
    model_body W model_ i s = (r, {| data := d'; trace := trace s ++ new |})
    /\ model_body_outcome model_ i (data s) r d' new.
Proof.
  unfold model_body.
  rewrite run_bind, run_throw_if.
  fold (model_out_of_range (elem model_ i)).
  destruct (model_out_of_range (elem model_ i)) eqn:Hrange.
  { eexists _, (data s), []. rewrite app_nil_r. split; [by destruct s|]. by constructor. }
  rewrite run_bind, run_throw_if.
  fold (duplicated model_ (elem model_ i)).
  destruct (duplicated model_ (elem model_ i)) eqn:Hdup.
  { eexists _, (data s), []. rewrite app_nil_r. split; [by destruct s|]. by constructor. }
  rewrite run_bind. cbn [call_out data trace].
  set (load := vmaf_model_load _ _).
  set (r1 := answer W (trace s) load). set (p := stored W (trace s) load).
  fold (store_model i p (data s)).
  destruct (r1 =? 0) eqn:E1; cbn [negb].
  - apply Z.eqb_eq in E1. rewrite run_bind. cbn [get_data data trace].
    rewrite run_bind. cbn [call data trace]. rewrite run_throw_if.
    set (r := answer W _ _).
    exists (if r =? 0 then inl tt
            else inr (std_string ("failed to load feature extractors from model: "
                                  +:+ at_index modelVersion (elem model_ i)))),
      (store_model i p (data s)),
      [(load, 0); (vmaf_use_features_from_model (vmaf (data s))
                     (default nullptr (model (store_model i p (data s)) !! Z.to_nat i)), r)].
    split.
    + rewrite E1, <- app_assoc. cbn [app]. by destruct (r =? 0).
    + by apply (resolve_singleton _ _ _ p r).
  - apply Z.eqb_neq in E1. rewrite run_bind. cbn [modify data trace].
    fold (grow_collections (store_model i p (data s))).
    rewrite run_bind. cbn [call_out2 data trace].
    set (cload := vmaf_model_collection_load _ _).
    set (r2 := answer W _ cload). set (p2 := stored W _ cload). set (c := stored2 W _ cload).
    set (d1 := set_modelCollection _ _).
    assert (Hd1 : d1 = store_collection c
                         (store_model i p2 (grow_collections (store_model i p (data s)))))
      by done.
    clearbody d1.
    rewrite run_bind, run_throw_if.
    destruct (r2 =? 0) eqn:E2; cbn [negb].
    + apply Z.eqb_eq in E2. rewrite run_bind. cbn [get_data data trace].
      rewrite run_bind. cbn [call data trace]. rewrite run_throw_if.
      set (r := answer W _ _).
      exists (if r =? 0 then inl tt
              else inr (std_string
                          ("failed to load feature extractors from model collection: "
                           +:+ at_index modelVersion (elem model_ i)))),
        d1,
        [(load, r1); (cload, 0);
         (vmaf_use_features_from_model_collection (vmaf (data s))
            (default nullptr (last (modelCollection d1))), r)].
      split.
      * rewrite E2, <- !app_assoc. cbn [app].
        replace (vmaf d1) with (vmaf (data s)) by (by subst d1).
        by destruct (r =? 0).
      * by apply (resolve_collection _ _ _ p r1 p2 c r).
    + apply Z.eqb_neq in E2.
      eexists _, d1, [(load, r1); (cload, r2)]. split.
      * rewrite <- !app_assoc. done.
      * subst d1. by apply resolve_neither.
Qed.

Lemma feature_body_run feature i s :
  exists r d' new,
    feature_body W feature i s = (r, {| data := d'; trace := trace s ++ new |})
    /\ feature_body_outcome feature i (data s) r d' new.
Proof.
  unfold feature_body.
  rewrite run_bind, run_throw_if.
  fold (feature_out_of_range (elem feature i)).
  destruct (feature_out_of_range (elem feature i)) eqn:Hrange.
  { eexists _, (data s), []. rewrite app_nil_r. split; [by destruct s|]. by constructor. }
  rewrite run_bind, run_throw_if.
  fold (duplicated feature (elem feature i)).
  destruct (duplicated feature (elem feature i)) eqn:Hdup.
  { eexists _, (data s), []. rewrite app_nil_r. split; [by destruct s|]. by constructor. }
  rewrite run_bind. cbn [get_data data trace].
  rewrite run_bind. cbn [call data trace].
  set (r := answer W _ _).
  rewrite run_bind, run_throw_if.
  fold (needs_chroma (elem feature i)).
  destruct (r =? 0) eqn:E; cbn [negb].
  - apply Z.eqb_eq in E. rewrite E.
    eexists _, _, _. split; [|by apply feature_loaded].
    by destruct (needs_chroma (elem feature i)).
  - apply Z.eqb_neq in E.
    eexists _, _, _. split; [|by apply (feature_not_loaded _ _ _ r)]. done.
Qed.

Lemma model_loop_run model_ left i s :
  exists r d' new,
    model_loop W model_ left i s = (r, {| data := d'; trace := trace s ++ new |})
    /\ loop_outcome (model_body_outcome model_) left i (data s) r d' new.
Proof.
  revert i s. induction left as [|left IH]; intros i s.
  - exists (inl tt), (data s), []. rewrite app_nil_r. split; [by destruct s|]. constructor.
  - cbn [model_loop]. rewrite run_bind.
    destruct (model_body_run model_ i s) as (r1 & d1 & new1 & -> & H1).
    destruct r1 as [[]|e].
    + destruct (IH (i + 1) {| data := d1; trace := trace s ++ new1 |})
        as (r & d2 & new2 & -> & H2).
      exists r, d2, (new1 ++ new2). cbn [data trace] in *. rewrite <- app_assoc.
      split; [done|]. by eapply loop_next.
    + exists (inr e), d1, new1. split; [done|]. by apply loop_thrown.
Qed.

Lemma feature_loop_run feature left i s :
  exists r d' new,
    feature_loop W feature left i s = (r, {| data := d'; trace := trace s ++ new |})
    /\ loop_outcome (feature_body_outcome feature) left i (data s) r d' new.
Proof.
  revert i s. induction left as [|left IH]; intros i s.
  - exists (inl tt), (data s), []. rewrite app_nil_r. split; [by destruct s|]. constructor.
  - cbn [feature_loop]. rewrite run_bind.
    destruct (feature_body_run feature i s) as (r1 & d1 & new1 & -> & H1).
    destruct r1 as [[]|e].
    + destruct (IH (i + 1) {| data := d1; trace := trace s ++ new1 |})
        as (r & d2 & new2 & -> & H2).
      exists r, d2, (new1 ++ new2). cbn [data trace] in *. rewrite <- app_assoc.
      split; [done|]. by eapply loop_next.
    + exists (inr e), d1, new1. split; [done|]. by apply loop_thrown.
Qed.

(** ** What the loops leave alone *)

Lemma same_setup_refl d : same_setup d d.
Proof. by destruct d. Qed.

Lemma same_setup_trans d1 d2 d3 :
  same_setup d1 d2 -> same_setup d2 d3 -> same_setup d1 d3.
Proof.
  unfold same_setup. intros H1 H2. rewrite H2 at 1. rewrite H1 at 1.
  by destruct d1.
Qed.

Lemma same_setup_fields d d' :
  same_setup d d' ->
  filterName d' = filterName d /\ reference d' = reference d
  /\ distorted d' = distorted d /\ vi d' = vi d /\ logPath d' = logPath d
  /\ logFormat d' = logFormat d /\ vmaf d' = vmaf d
  /\ pixelFormat d' = pixelFormat d /\ cu_state d' = cu_state d.
Proof. intros ->. by destruct d. Qed.

Lemma loop_invariant body (I : VMAFData -> VMAFData -> Prop) left i d r d' new :
  (forall d, I d d) ->
  (forall d1 d2 d3, I d1 d2 -> I d2 d3 -> I d1 d3) ->
  (forall i d r d1 new1, body i d r d1 new1 -> I d d1) ->
  loop_outcome body left i d r d' new -> I d d'.
Proof.
  intros Hrefl Htrans Hbody. induction 1; eauto.
Qed.

Lemma loop_events body (P : Event -> Prop) left i d r d' new :
  (forall i d r d1 new1, body i d r d1 new1 -> Forall P new1) ->
  loop_outcome body left i d r d' new -> Forall P new.
Proof.
  intros Hbody. induction 1; [constructor | apply Forall_app; eauto | eauto].
Qed.

Lemma loop_completed body (P : Z -> Prop) left i d d' new :
  (forall i d d1 new1, body i d (inl tt) d1 new1 -> P i) ->
  loop_outcome body left i d (inl tt) d' new ->
  forall j, i <= j < i + Z.of_nat left -> P j.
Proof.
  intros Hbody H. remember (inl tt) as r eqn:Hr. revert Hr.
  induction H as [| left i d d1 new1 r d2 new2 H1 H2 IH |]; intros Hr j Hj.
  - lia.
  - destruct (decide (j = i)) as [->|]; [subst; eauto|]. apply IH; first [done | lia].
  - done.
Qed.

Lemma loop_thrown_at body left i d e d' new :
  loop_outcome body left i d (inr e) d' new ->
  exists j dj before new1,
    i <= j < i + Z.of_nat left /\ body j dj (inr e) d' new1 /\ new = before ++ new1.
Proof.
  intros H. remember (inr e) as r eqn:Hr. revert Hr.
  induction H as [| left i d d1 new1 r d2 new2 H1 H2 IH | left i d e' d1 new1 H1];
    intros Hr.
  - done.
  - destruct (IH Hr) as (j & dj & before & new3 & Hj & Hb & ->).
    exists j, dj, (new1 ++ before), new3. split; [lia|]. split; [done|].
    by rewrite <- app_assoc.
  - injection Hr as ->. exists i, d, [], new1. split; [lia|]. done.
Qed.

Lemma model_body_same_setup l i d r d' new :
  model_body_outcome l i d r d' new ->
  same_setup d d' /\ chroma d' = chroma d /\ length (model d') = length (model d).
Proof.
  destruct 1; subst; unfold store_collection, store_model, grow_collections;
    cbn; rewrite ?length_insert; (split; [by destruct d|done]).
Qed.

Lemma model_loop_same_setup l left i d r d' new :
  loop_outcome (model_body_outcome l) left i d r d' new ->
  same_setup d d' /\ chroma d' = chroma d /\ length (model d') = length (model d).
Proof.
  apply (loop_invariant _ (fun d d' =>
    same_setup d d' /\ chroma d' = chroma d /\ length (model d') = length (model d))).
  - intros ?. split; [apply same_setup_refl|done].
  - intros d1 d2 d3 (? & ? & ?) (? & ? & ?). split; [by eapply same_setup_trans|].
    split; congruence.
  - intros. by eapply model_body_same_setup.
Qed.

Lemma feature_body_same_setup l i d r d' new :
  feature_body_outcome l i d r d' new ->
  same_setup d d' /\ model d' = model d /\ modelCollection d' = modelCollection d.
Proof.
  destruct 1; try (split; [apply same_setup_refl|done]).
  destruct (needs_chroma _); (split; [by destruct d|done]).
Qed.

Lemma feature_loop_same_setup l left i d r d' new :
  loop_outcome (feature_body_outcome l) left i d r d' new ->
  same_setup d d' /\ model d' = model d /\ modelCollection d' = modelCollection d.
Proof.
  apply (loop_invariant _ (fun d d' =>
    same_setup d d' /\ model d' = model d /\ modelCollection d' = modelCollection d)).
  - intros ?. split; [apply same_setup_refl|done].
  - intros d1 d2 d3 (? & ? & ?) (? & ? & ?). split; [by eapply same_setup_trans|].
    split; congruence.
  - intros. by eapply feature_body_same_setup.
Qed.

(** ** Lists of identifiers *)

Lemma std_count_nonneg l x : 0 <= std_count l x.
Proof. induction l as [|y l IH]; cbn; [done|]. destruct (y =? x); lia. Qed.

Lemma std_count_elem l x : x ∈ l -> 1 <= std_count l x.
Proof.
  induction 1 as [x l|x y l _ IH]; cbn.
  - rewrite Z.eqb_refl. pose proof (std_count_nonneg l x). lia.
  - destruct (y =? x); lia.
Qed.

Lemma NoDup_std_count l :
  (forall x, x ∈ l -> duplicated l x = false) -> NoDup l.
Proof.
  unfold duplicated. induction l as [|y l IH]; intros H; [constructor|].
  constructor.
  - intros Hy. pose proof (H y (list_elem_of_here _ _)) as Hc.
    apply Z.ltb_ge in Hc. cbn in Hc. rewrite Z.eqb_refl in Hc.
    pose proof (std_count_elem _ _ Hy). lia.
  - apply IH. intros x Hx. pose proof (H x (list_elem_of_further _ _ _ Hx)) as Hc.
    apply Z.ltb_ge in Hc. apply Z.ltb_ge. cbn in Hc.
    destruct (y =? x); lia.
Qed.

Lemma elem_of_elem (l : list Z) x :
  x ∈ l -> exists j, 0 <= j < Z.of_nat (length l) /\ elem l j = x.
Proof.
  intros (n & Hn)%list_elem_of_lookup. exists (Z.of_nat n).
  split; [apply lookup_lt_Some in Hn; lia|].
  unfold elem. by rewrite Nat2Z.id, Hn.
Qed.

Lemma elem_lookup (l : list Z) (j : nat) x :
  l !! j = Some x -> elem l (Z.of_nat j) = x.
Proof. intros H. unfold elem. by rewrite Nat2Z.id, H. Qed.

Lemma length_mapGetIntArray v :
  Z.to_nat (mapNumElements v) = length (mapGetIntArray v).
Proof. destruct v as [l|]; cbn; [lia|done]. Qed.

(** ** Completed loops have checked every identifier *)

Lemma model_body_checked l i d d' new :
  model_body_outcome l i d (inl tt) d' new ->
  model_out_of_range (elem l i) = false /\ duplicated l (elem l i) = false.
Proof. by inversion 1. Qed.

Lemma feature_body_checked l i d d' new :
  feature_body_outcome l i d (inl tt) d' new ->
  feature_out_of_range (elem l i) = false /\ duplicated l (elem l i) = false.
Proof. by inversion 1. Qed.

Lemma models_checked in_ d d' new :
  models_outcome in_ d (inl tt) d' new ->
  Forall (fun m => 0 <= m <= 3) (mapGetIntArray (in_model in_))
  /\ NoDup (mapGetIntArray (in_model in_)).
Proof.
  intros H.
  assert (Hall : forall j, 0 <= j < Z.of_nat (length (mapGetIntArray (in_model in_))) ->
            model_out_of_range (elem (mapGetIntArray (in_model in_)) j) = false
            /\ duplicated (mapGetIntArray (in_model in_))
                 (elem (mapGetIntArray (in_model in_)) j) = false).
  { intros j Hj. eapply (loop_completed _ _ _ _ _ _ _ (model_body_checked _) H).
    rewrite length_mapGetIntArray. lia. }
  split.
  - apply Forall_forall. intros x (j & Hj & <-)%elem_of_elem.
    destruct (Hall j Hj) as [Hr _]. unfold model_out_of_range in Hr.
    apply orb_false_iff in Hr as [?%Z.ltb_ge ?%Z.ltb_ge]. lia.
  - apply NoDup_std_count. intros x (j & Hj & <-)%elem_of_elem. by apply Hall.
Qed.

Lemma features_checked in_ d d' new :
  features_outcome in_ d (inl tt) d' new ->
  Forall (fun f => 0 <= f <= 4) (mapGetIntArray (in_feature in_))
  /\ NoDup (mapGetIntArray (in_feature in_)).
Proof.
  intros H.
  assert (Hall : forall j, 0 <= j < Z.of_nat (length (mapGetIntArray (in_feature in_))) ->
            feature_out_of_range (elem (mapGetIntArray (in_feature in_)) j) = false
            /\ duplicated (mapGetIntArray (in_feature in_))
                 (elem (mapGetIntArray (in_feature in_)) j) = false).
  { intros j Hj. eapply (loop_completed _ _ _ _ _ _ _ (feature_body_checked _) H).
    rewrite length_mapGetIntArray. lia. }
  split.
  - apply Forall_forall. intros x (j & Hj & <-)%elem_of_elem.
    destruct (Hall j Hj) as [Hr _]. unfold feature_out_of_range in Hr.
    apply orb_false_iff in Hr as [?%Z.ltb_ge ?%Z.ltb_ge]. lia.
  - apply NoDup_std_count. intros x (j & Hj & <-)%elem_of_elem. by apply Hall.
Qed.

(** ** The chroma flag after the feature loop *)

Lemma feature_loop_chroma l left i d d' new :
  loop_outcome (feature_body_outcome l) left i d (inl tt) d' new ->
  chroma d' = true
  <-> chroma d = true
      \/ exists j, i <= j < i + Z.of_nat left /\ needs_chroma (elem l j) = true.
Proof.
  intros H. remember (inl tt) as r eqn:Hr. revert Hr.
  induction H as [| left i d d1 new1 r d2 new2 H1 H2 IH |]; intros Hr.
  - split; [by left|]. intros [?|(j & ? & _)]; [done|lia].
  - rewrite (IH Hr). inversion H1 as [| | |Hrange Hdup Hres Hd1 Hnew]; subst.
    split.
    + intros [Hc|(j & Hj & Hn)].
      * destruct (needs_chroma (elem l i)) eqn:E; [|by left].
        right. exists i. split; [lia|done].
      * right. exists j. split; [lia|done].
    + intros [Hc|(j & Hj & Hn)].
      * left. destruct (needs_chroma (elem l i)); [by destruct d|done].
      * destruct (decide (j = i)) as [->|].
        -- left. rewrite Hn. by destruct d.
        -- right. exists j. split; [lia|done].
  - done.
Qed.

Lemma features_chroma in_ d d' new :
  features_outcome in_ d (inl tt) d' new ->
  chroma d' = true
  <-> chroma d = true
      \/ exists f, f ∈ mapGetIntArray (in_feature in_) /\ needs_chroma f = true.
Proof.
  intros H. rewrite (feature_loop_chroma _ _ _ _ _ _ H).
  rewrite length_mapGetIntArray. split; (intros [?|Hex]; [by left|right]).
  - destruct Hex as (j & Hj & Hn). exists (elem (mapGetIntArray (in_feature in_)) j).
    split; [|done]. unfold elem.
    destruct (lookup_lt_is_Some_2 (mapGetIntArray (in_feature in_)) (Z.to_nat j))
      as [x Hx]; [lia|].
    rewrite Hx. cbn. apply list_elem_of_lookup. eauto.
  - destruct Hex as (f & (j & Hj & <-)%elem_of_elem & Hn). exists j. split; [lia|done].
Qed.

(** ** The calls of the set-up *)

Lemma model_loop_calls l left i d r d' new :
  loop_outcome (model_body_outcome l) left i d r d' new ->
  Forall (fun e : Event => is_model_call e.1 = true) new.
Proof.
  apply loop_events. intros ????? H. destruct H; by repeat constructor.
Qed.

Lemma feature_loop_calls l left i d r d' new :
  loop_outcome (feature_body_outcome l) left i d r d' new ->
  Forall (fun e : Event => is_feature_call e.1 = true) new.
Proof.
  apply loop_events. intros ????? H. destruct H; by repeat constructor.
Qed.

Lemma create_try_calls in_ userData nt d0 r d new :
  create_try_outcome in_ userData nt d0 r d new ->
  Forall (fun e : Event => is_setup_call e.1 = true) new.
Proof.
  assert (Hm : forall l, Forall (fun e : Event => is_model_call e.1 = true) l ->
                         Forall (fun e : Event => is_setup_call e.1 = true) l).
  { intros l Hl. eapply Forall_impl; [exact Hl|]. intros e He. unfold is_setup_call.
    rewrite He. by destruct (is_init_call e.1). }
  assert (Hf : forall l, Forall (fun e : Event => is_feature_call e.1 = true) l ->
                         Forall (fun e : Event => is_setup_call e.1 = true) l).
  { intros l Hl. eapply Forall_impl; [exact Hl|]. intros e He. unfold is_setup_call.
    rewrite He. by destruct (is_init_call e.1), (is_model_call e.1). }
  destruct 1; try (by repeat constructor).
  - apply Forall_app. split; [by repeat constructor|].
    eapply Hm, model_loop_calls. eassumption.
  - apply Forall_app. split; [by repeat constructor|]. apply Forall_app. split.
    + eapply Hm, model_loop_calls. eassumption.
    + eapply Hf, feature_loop_calls. eassumption.
  - apply Forall_app. split; [by repeat constructor|]. apply Forall_app. split.
    + eapply Hm, model_loop_calls. eassumption.
    + eapply Hf, feature_loop_calls. eassumption.
Qed.

(** ** What a created filter holds *)

Lemma created_data in_ userData nt d0 d new :
  create_try_outcome in_ userData nt d0 (inl tt) d new ->
  filterName d = userData
  /\ reference d = in_reference in_
  /\ distorted d = in_distorted in_
  /\ vi d = getVideoInfo (in_reference in_)
  /\ logPath d = c_string (in_log_path in_)
  /\ logFormat d = to_int (mapGetIntSaturated (in_log_format in_) + 1)
  /\ pixelFormat d = pick_pixelFormat (getVideoInfo (in_reference in_))
  /\ (chroma d = true
      <-> chroma d0 = true
          \/ exists f, f ∈ mapGetIntArray (in_feature in_) /\ needs_chroma f = true)
  /\ (model d0 = [] -> length (model d) = length (mapGetIntArray (in_model in_))).
Proof.
  inversion 1 as [| | | | | | | | | | |ctx cu d1 new1 d2 new2 Hsup Hlog Hmatch Hm Hf];
    subst.
  destruct (model_loop_same_setup _ _ _ _ _ _ _ Hm) as (Hs1 & Hc1 & Hl1).
  destruct (feature_loop_same_setup _ _ _ _ _ _ _ Hf) as (Hs2 & Hm2 & Hmc2).
  pose proof (same_setup_trans _ _ _ Hs1 Hs2) as Hs.
  apply same_setup_fields in Hs as (H1 & H2 & H3 & H4 & H5 & H6 & H7 & H8 & H9).
  pose proof (features_chroma _ _ _ _ Hf) as Hchroma.
  assert (Hsized : forall (P : VMAFData -> Prop),
             (forall x, P (set_model x (initialised in_ userData d0 ctx cu))) ->
             P (initialised in_ userData d0 ctx cu) ->
             P (sized in_ (initialised in_ userData d0 ctx cu))).
  { intros P HP1 HP2. unfold sized. by destruct (0 <? _). }
  assert (Hc0 : chroma (sized in_ (initialised in_ userData d0 ctx cu)) = chroma d0)
    by (by apply Hsized).
  cbn [filterName reference distorted vi logPath logFormat pixelFormat chroma model
         set_pixelFormat].
  rewrite H1, H2, H3, H4, H5, H6, Hm2, Hl1.
  do 7 (split; [by apply Hsized|]).
  split.
  - by rewrite Hchroma, Hc1, Hc0.
  - intros Hd0. unfold sized. rewrite <- length_mapGetIntArray.
    destruct (0 <? mapNumElements (in_model in_)) eqn:E; cbn.
    + by rewrite length_resize.
    + rewrite Hd0. cbn. apply Z.ltb_ge in E. lia.
Qed.

(** ** Errors of the loops *)

Lemma model_loop_error l left i d e d' new :
  loop_outcome (model_body_outcome l) left i d (inr e) d' new -> model_error e.
Proof.
  intros (j & dj & before & new1 & _ & H & _)%loop_thrown_at.
  unfold model_error.
  inversion H as [| |p r d1 ? ? ? Hr|p r1 p2 c r2|p r1 p2 c r d1 ? ? ? ? Hr]; subst; eauto.
  - destruct (r =? 0); [done|]. injection Hr as <-. eauto 6.
  - eauto 6.
  - destruct (r =? 0); [done|]. injection Hr as <-. eauto 6.
Qed.

Lemma feature_loop_error l left i d e d' new :
  loop_outcome (feature_body_outcome l) left i d (inr e) d' new -> feature_error e.
Proof.
  intros (j & dj & before & new1 & _ & H & _)%loop_thrown_at.
  unfold feature_error. inversion H; subst; eauto.
Qed.

Lemma create_try_filterName in_ userData nt d0 r d new :
  create_try_outcome in_ userData nt d0 r d new -> filterName d = userData.
Proof.
  assert (Hsized : forall ctx cu,
             filterName (sized in_ (initialised in_ userData d0 ctx cu)) = userData).
  { intros. unfold sized. by destruct (0 <? _). }
  destruct 1; try done.
  - match goal with H : models_outcome _ _ _ _ _ |- _ =>
      apply model_loop_same_setup in H as (Hs & _) end.
    apply same_setup_fields in Hs as (-> & _). apply Hsized.
  - repeat match goal with
           | H : models_outcome _ _ _ _ _ |- _ =>
               apply model_loop_same_setup in H as (?Hs & _)
           | H : features_outcome _ _ _ _ _ |- _ =>
               apply feature_loop_same_setup in H as (?Hs & _)
           end.
    pose proof (same_setup_trans _ _ _ Hs Hs0) as Hs1.
    apply same_setup_fields in Hs1 as (-> & _). apply Hsized.
  - repeat match goal with
           | H : models_outcome _ _ _ _ _ |- _ =>
               apply model_loop_same_setup in H as (?Hs & _)
           | H : features_outcome _ _ _ _ _ |- _ =>
               apply feature_loop_same_setup in H as (?Hs & _)
           end.
    pose proof (same_setup_trans _ _ _ Hs Hs0) as Hs1.
    apply same_setup_fields in Hs1 as (Hname & _). cbn. rewrite Hname. apply Hsized.
Qed.

(** Which guard threw the three messages that concern the arguments
    compared here. *)
Lemma create_try_error_cause in_ userData nt d0 error d new :
  create_try_outcome in_ userData nt d0 (inr (std_string error)) d new ->
  (error = "both clips must have the same format and dimensions"%string ->
   isSameVideoInfo (getVideoInfo (in_distorted in_)) (getVideoInfo (in_reference in_))
     = false)
  /\ (error = "both clips' number of frames do not match"%string ->
      (numFrames (getVideoInfo (in_distorted in_))
         =? numFrames (getVideoInfo (in_reference in_))) = false)
  /\ (error = "log_format must be 0, 1, 2, or 3"%string ->
      log_format_out_of_range (mapGetIntSaturated (in_log_format in_)) = true).
Proof.
  inversion 1 as [| | | | | | | | |ctx cu e d1 new1 ? ? ? Hm
                  |ctx cu d1 new1 e d2 new2 ? ? ? Hm Hf|]; subst;
    try (by repeat split; intros; simplify_eq).
  - apply model_loop_error in Hm as [He|[He|(v & [He|[He|He]])]];
      injection He as ->; repeat split; intros Heq; cbn in Heq; discriminate.
  - apply feature_loop_error in Hf as [He|[He|(v & He)]];
      injection He as ->; repeat split; intros Heq; cbn in Heq; discriminate.
Qed.

Lemma append_inj_l (p a b : string) : p +:+ a = p +:+ b -> a = b.
Proof. induction p as [|c p IH]; cbn; [done|]. intros [=]. auto. Qed.

(** ** Resolution of the requested models *)

Lemma collection_loads_follow_any prev tr :
  collection_loads_follow None tr -> collection_loads_follow prev tr.
Proof.
  destruct tr as [|[c r] tr]; [done|]. cbn. intros [H1 H2]. split; [|done].
  destruct c; try done. by destruct H1 as (? & ? & _).
Qed.

Lemma collection_loads_follow_app prev a b :
  collection_loads_follow prev a -> collection_loads_follow None b ->
  collection_loads_follow prev (a ++ b).
Proof.
  revert prev. induction a as [|e a IH]; intros prev Ha Hb.
  - by apply collection_loads_follow_any.
  - cbn in *. destruct Ha as [H1 H2]. split; [done|]. by apply IH.
Qed.

Lemma collection_loads_follow_none prev tr :
  Forall (fun e : Event =>
            match e.1 with vmaf_model_collection_load _ _ => False | _ => True end) tr ->
  collection_loads_follow prev tr.
Proof.
  intros H. revert prev. induction H as [|[c r] tr Hc _ IH]; intros prev; [done|].
  cbn in *. split; [by destruct c|]. apply IH.
Qed.

Lemma collection_loads_follow_split prev tr before name version r2 after :
  collection_loads_follow prev tr ->
  tr = before ++ (vmaf_model_collection_load name version, r2) :: after ->
  exists r1, last (option_list prev ++ before) = Some (vmaf_model_load name version, r1)
             /\ r1 <> 0.
Proof.
  revert prev tr. induction before as [|e before IH]; intros prev tr H ->.
  - cbn in H. destruct H as [(r1 & -> & Hr) _]. exists r1. by cbn.
  - cbn in H. destruct H as [_ H].
    destruct (IH (Some e) _ H eq_refl) as (r1 & Hlast & Hr). exists r1. split; [|done].
    destruct prev; exact Hlast.
Qed.

Lemma model_body_collection_loads l i d r d' new :
  model_body_outcome l i d r d' new -> collection_loads_follow None new.
Proof. destruct 1; cbn; eauto 10. Qed.

Lemma loop_closed body (P : list Event -> Prop) left i d r d' new :
  P [] ->
  (forall a b, P a -> P b -> P (a ++ b)) ->
  (forall i d r d1 new1, body i d r d1 new1 -> P new1) ->
  loop_outcome body left i d r d' new -> P new.
Proof. intros Hnil Happ Hbody. induction 1; eauto. Qed.

Lemma model_loop_collection_loads l left i d r d' new :
  loop_outcome (model_body_outcome l) left i d r d' new ->
  collection_loads_follow None new.
Proof.
  apply loop_closed; [done| |].
  - intros. by apply collection_loads_follow_app.
  - intros. by eapply model_body_collection_loads.
Qed.

(** A collection load that fails ends the resolution with the error that
    names the model version. *)
Lemma model_body_collection_failed l i d r d' new name version r2 :
  model_body_outcome l i d r d' new ->
  (vmaf_model_collection_load name version, r2) ∈ new -> r2 <> 0 ->
  r = inr (std_string ("failed to load model: " +:+ version)).
Proof.
  intros H Hin Hr2.
  destruct H; repeat (apply elem_of_cons in Hin as [Hin|Hin]);
    try (by apply elem_of_nil in Hin); simplify_eq; done.
Qed.

Lemma model_loop_collection_failed l left i d r d' new name version r2 :
  loop_outcome (model_body_outcome l) left i d r d' new ->
  (vmaf_model_collection_load name version, r2) ∈ new -> r2 <> 0 ->
  r = inr (std_string ("failed to load model: " +:+ version)).
Proof.
  induction 1 as [| left i d d1 new1 r d2 new2 H1 H2 IH | left i d e d1 new1 H1];
    intros Hin Hr2.
  - by apply elem_of_nil in Hin.
  - apply elem_of_app in Hin as [Hin|Hin]; [|by apply IH].
    by pose proof (model_body_collection_failed _ _ _ _ _ _ _ _ _ H1 Hin Hr2).
  - by eapply model_body_collection_failed.
Qed.

Lemma not_model_call_collection_load (P : Call -> bool) tr name version r2 :
  Forall (fun e : Event => P e.1 = true) tr ->
  P (vmaf_model_collection_load name version) = false ->
  (vmaf_model_collection_load name version, r2) ∉ tr.
Proof.
  intros H HP Hin. rewrite Forall_forall in H. apply H in Hin. cbn in Hin. congruence.
Qed.

Lemma create_try_collection_failed in_ userData nt d0 r d new name version r2 :
  create_try_outcome in_ userData nt d0 r d new ->
  (vmaf_model_collection_load name version, r2) ∈ new -> r2 <> 0 ->
  r = inr (std_string ("failed to load model: " +:+ version)).
Proof.
  intros H Hin Hr2.
  assert (Hinit : forall ctx cu r, (vmaf_model_collection_load name version, r2)
                                     ∉ init_events nt ctx cu r).
  { intros ctx cu r0 H0. repeat (apply elem_of_cons in H0 as [H0|H0]); try done.
    by apply elem_of_nil in H0. }
  assert (Hfeat : forall l left i d r d' new,
             loop_outcome (feature_body_outcome l) left i d r d' new ->
             (vmaf_model_collection_load name version, r2) ∉ new).
  { intros. eapply (not_model_call_collection_load is_feature_call); [|done].
    by eapply feature_loop_calls. }
  destruct H;
    repeat match goal with
           | H : _ ∈ _ ++ _ |- _ => apply elem_of_app in H as [H|H]
           | H : _ ∈ init_events _ _ _ _ |- _ => by apply Hinit in H
           | H : _ ∈ _ :: _ |- _ => apply elem_of_cons in H as [H|H]
           | H : _ ∈ [] |- _ => by apply elem_of_nil in H
           | H : features_outcome _ _ _ _ _, H' : _ ∈ ?new |- _ =>
               by apply (Hfeat _ _ _ _ _ _ _ H) in H'
           | H : models_outcome _ _ ?r _ ?new, H' : _ ∈ ?new |- _ =>
               pose proof (model_loop_collection_failed _ _ _ _ _ _ _ _ _ _ H H' Hr2);
               clear H'
           end;
    by simplify_eq.
Qed.

Lemma create_try_collection_loads in_ userData nt d0 r d new :
  create_try_outcome in_ userData nt d0 r d new -> collection_loads_follow None new.
Proof.
  assert (Hfeat : forall l left i d r d' new,
             loop_outcome (feature_body_outcome l) left i d r d' new ->
             collection_loads_follow None new).
  { intros ??????? H. apply collection_loads_follow_none.
    eapply Forall_impl; [by eapply feature_loop_calls|]. intros [[] ?]; done. }
  destruct 1; try (cbn; by eauto 10).
  - apply collection_loads_follow_app; [cbn; by eauto 10|].
    by eapply model_loop_collection_loads.
  - apply collection_loads_follow_app; [cbn; by eauto 10|].
    apply collection_loads_follow_app; [by eapply model_loop_collection_loads|].
    by eapply Hfeat.
  - apply collection_loads_follow_app; [cbn; by eauto 10|].
    apply collection_loads_follow_app; [by eapply model_loop_collection_loads|].
    by eapply Hfeat.
Qed.

(** ** [vmafFree] *)

Lemma index_high_in_range n :
  0 < n <= INT_MAX -> to_unsigned (to_int (n - 1)) = n - 1.
Proof.
  unfold INT_MAX, to_unsigned, to_int. intros H.
  rewrite (Z.mod_small (n - 1 + 2 ^ 31)) by lia.
  rewrite Z.mod_small by lia. lia.
Qed.

Lemma step_events_void d c :
  is_logMessage c = false -> step_events d [c] [(c, 0)].
Proof. intros Hc. split; cbn; by rewrite ?Hc. Qed.

Lemma made_by_an_earlier_call_app tr1 tr2 :
  made_by_an_earlier_call (tr1 ++ tr2)
  = made_by_an_earlier_call tr1 || made_by_an_earlier_call tr2.
Proof. apply existsb_app. Qed.

(** Every teardown: the steps of [vmafFree], by the state of its lambda. *)
Lemma vmafFree_steps d tr0 :
  exists r new,
    vmafFree W {| data := d; trace := tr0 |} = (r, {| data := d; trace := tr0 ++ new |})
    /\ steps_outcome (made_by_an_earlier_call tr0) d (teardown_calls d) r new.
Proof.
  unfold vmafFree. rewrite run_bind. cbn [get_data data trace].
  do 2 (rewrite run_bind; cbn [call_void data trace]).
  rewrite run_bind. cbn [get_trace data trace].
  rewrite !made_by_an_earlier_call_app. cbn [made_by_an_earlier_call existsb is_flush fst].
  rewrite !orb_false_r.
  set (stale := made_by_an_earlier_call tr0).
  lazymatch goal with
  | |- exists r new, ?body ?s = _ /\ _ =>
      assert (Hbody : runs_steps stale d body (drop 2 (teardown_calls d)))
  end.
  { unfold teardown_calls. cbn [drop app].
    apply attempt_then; [done|done|].
    apply runs_steps_seq; [by apply for_each_attempt_run|].
    apply runs_steps_seq; [by apply for_each_attempt_run|].
    apply attempt_then; [done|done|].
    apply runs_steps_seq; [by apply for_each_void_step|].
    apply runs_steps_seq; [by apply for_each_void_step|].
    by apply void_step. }
  lazymatch goal with
  | |- exists r new, ?body ?s = _ /\ _ => destruct (Hbody s) as (r & new & -> & Hout)
  end.
  exists r, ([(freeNode (reference d), 0); (freeNode (distorted d), 0)] ++ new).
  cbn [data trace]. split; [by rewrite <- !app_assoc|].
  apply (steps_outcome_app stale d [freeNode (reference d); freeNode (distorted d)]
           (drop 2 (teardown_calls d))); [|done].
  constructor; [by split|]. intros _. by repeat constructor.
Qed.

(** The first teardown of a process. *)
Lemma vmafFree_run d tr0 :
  made_by_an_earlier_call tr0 = false ->
  exists new,
    vmafFree W {| data := d; trace := tr0 |}
      = (inl tt, {| data := d; trace := tr0 ++ new |})
    /\ step_events d (teardown_calls d) new.
Proof.
  intros Hfirst. destruct (vmafFree_steps d tr0) as (r & new & Heq & Hout).
  rewrite Hfirst in Hout. inversion Hout as [? Hsteps _|]; subst; [|done].
  by exists new.
Qed.

Lemma count_if_map_none p (mk : ptr -> Call) l :
  (forall m, p (mk m) = false) ->
  count_if p (map (fun m => (mk m, 0)) l) = 0%nat.
Proof. intros H. induction l as [|m l IH]; cbn; [done|]. by rewrite H, IH. Qed.

Lemma count_if_without_log p tr :
  (forall c, is_logMessage c = true -> p c = false) ->
  count_if p tr = count_if p (map (fun c => (c, 0)) (without_log tr)).
Proof.
  intros H. induction tr as [|[c r] tr IH]; cbn; [done|].
  destruct (is_logMessage c) eqn:E; cbn; [by rewrite (H c E)|by rewrite IH].
Qed.

(** Whatever the state of the lambda, the steps call nothing that is
    neither one of their [calls] nor a log message. *)
Lemma steps_outcome_count stale d calls r new p :
  steps_outcome stale d calls r new ->
  (forall c, is_logMessage c = true -> p c = false) ->
  count_if p (map (fun c => (c, 0)) calls) = 0%nat ->
  count_if p new = 0%nat.
Proof.
  intros Hout Hlog Hcalls.
  inversion Hout as [? [Hsteps _ _] _|made c code rest _ Hsplit _]; subst.
  - by rewrite (count_if_without_log p new Hlog).
  - rewrite map_app, count_if_app in Hcalls. cbn in Hcalls.
    rewrite count_if_app. cbn. destruct (p c); lia.
Qed.

Lemma extractions_app l1 l2 : extractions (l1 ++ l2) = extractions l1 ++ extractions l2.
Proof.
  induction l1 as [|c l1 IH]; cbn; [done|]. destruct c; cbn; by rewrite ?IH.
Qed.

Lemma extractions_map_all (mk : ptr -> Call) l :
  (forall m, extractions [mk m] = [mk m]) -> extractions (map mk l) = map mk l.
Proof.
  intros H. induction l as [|m l IH]; [done|]. cbn [map].
  change (extractions (mk m :: map mk l)) with (extractions ([mk m] ++ map mk l)).
  rewrite extractions_app, H, IH. done.
Qed.

Lemma extractions_map_none (mk : ptr -> Call) l :
  (forall m, extractions [mk m] = []) -> extractions (map mk l) = [].
Proof.
  intros H. induction l as [|m l IH]; [done|]. cbn [map].
  change (extractions (mk m :: map mk l)) with (extractions ([mk m] ++ map mk l)).
  rewrite extractions_app, H, IH. done.
Qed.

(** C3, as the code has it, for the first teardown of a process (no context
    was flushed before: the lambda that logs is the one this call makes).
    The calls of [vmafFree], its log messages left out, are always the same,
    whatever fails: the two nodes are freed; the context is flushed once,
    by [vmaf_read_pictures] with no pictures and index 0 (not the last
    frame index); a pooled mean score over [0, numFrames - 1] is asked for
    every entry of the model vector, then for every model collection; the
    log is written; every model and every collection is destroyed and the
    context closed.  Each call that fails is followed by its log message,
    nothing else is logged, and [vmafFree] returns normally. *)
Theorem teardown_runs_every_step d tr0 r s new :
  made_by_an_earlier_call tr0 = false ->
  vmafFree W {| data := d; trace := tr0 |} = (r, s) ->
  trace s = tr0 ++ new ->
  0 < numFrames (vi d) <= INT_MAX ->
  r = inl tt
  /\ without_log new
     = [freeNode (reference d); freeNode (distorted d);
        vmaf_read_pictures (vmaf d) None None 0]
       ++ map (fun m => vmaf_score_pooled (vmaf d) m VMAF_POOL_METHOD_MEAN 0
                          (numFrames (vi d) - 1)) (model d)
       ++ map (fun m => vmaf_score_pooled_model_collection (vmaf d) m VMAF_POOL_METHOD_MEAN 0
                          (numFrames (vi d) - 1)) (modelCollection d)
       ++ [vmaf_write_output (vmaf d) (logPath d) (logFormat d)]
       ++ map vmaf_model_destroy (model d)
       ++ map vmaf_model_collection_destroy (modelCollection d)
       ++ [vmaf_close (vmaf d)]
  /\ failures_logged d new
  /\ count_if is_logMessage new = count_failed new
  /\ count_if is_read_pictures new = 1%nat.
Proof.
  intros Hfirst Hrun Htr Hn.
  destruct (vmafFree_run d tr0 Hfirst) as (new' & Heq & [Hcalls Hlogged Hcount]).
  rewrite Heq in Hrun. injection Hrun as <- <-. cbn [trace] in Htr.
  apply app_inv_head in Htr. subst new'.
  split; [done|]. split; [|split; [done|split; [done|]]].
  - rewrite Hcalls. unfold teardown_calls. by rewrite (index_high_in_range _ Hn).
  - rewrite (count_if_without_log is_read_pictures) by (by intros []).
    rewrite Hcalls. unfold teardown_calls. rewrite !map_app, !count_if_app, !map_map.
    rewrite !count_if_map_none by done. done.
Qed.

(** ** The whole of [vmafCreate] *)

Lemma count_if_setup p tr :
  Forall (fun e : Event => is_setup_call e.1 = true) tr ->
  (forall c, is_setup_call c = true -> p c = false) ->
  count_if p tr = 0%nat.
Proof.
  intros H Hp. apply count_if_none. eapply Forall_impl; [exact H|]. intros e. apply Hp.
Qed.

Lemma abort_events_calls d error e :
  e ∈ abort_events d error ->
  e = (mapSetError (filterName d +:+ ": " +:+ error), 0)
  \/ is_setup_call e.1 = false /\ is_createVideoFilter e.1 = false
     /\ is_mapSetError e.1 = false /\ is_read_pictures e.1 = false
     /\ match e.1 with vmaf_model_collection_load _ _ => False | _ => True end.
Proof.
  unfold abort_events. intros H.
  repeat (apply elem_of_app in H as [H|H] || apply elem_of_cons in H as [H|H]);
    try (by left); try (by subst; right);
    try (by apply elem_of_nil in H).
  - apply list_elem_of_fmap in H as (m & -> & _). by right.
  - apply list_elem_of_fmap in H as (m & -> & _). by right.
Qed.

Lemma count_if_abort p d error :
  p (mapSetError (filterName d +:+ ": " +:+ error)) = false ->
  (forall c, is_setup_call c = false -> is_createVideoFilter c = false ->
             is_mapSetError c = false -> is_read_pictures c = false -> p c = false) ->
  count_if p (abort_events d error) = 0%nat.
Proof.
  intros H1 H2. apply count_if_none. apply Forall_forall. intros e He.
  apply abort_events_calls in He as [->|(? & ? & ? & ? & _)]; [done|by apply H2].
Qed.

(** ** The handles that the calls store *)

Lemma grown_collections l (c : ptr) :
  <[(length (resize (S (length l)) nullptr l) - 1)%nat := c]>
    (resize (S (length l)) nullptr l)
  = l ++ [c].
Proof.
  rewrite length_resize. replace (S (length l) - 1)%nat with (length l + 0)%nat by lia.
  rewrite resize_ge by lia. replace (S (length l) - length l)%nat with 1%nat by lia.
  cbn [replicate]. by rewrite insert_app_r.
Qed.

Lemma resolved_by_extend h a d d' j name version tr b :
  resolved_by W (h ++ a) d j name version tr ->
  vmaf d' = vmaf d ->
  model d' !! j = model d !! j ->
  (forall c, c ∈ modelCollection d -> c ∈ modelCollection d') ->
  resolved_by W h d' j name version (a ++ tr ++ b).
Proof.
  intros [(before & after & -> & Hm)|(before & r1 & after & Hr & -> & Hm & Hc)] Hctx Hj Hcs.
  - left. exists (a ++ before), (after ++ b). rewrite Hctx, Hj.
    rewrite <- !app_assoc in *. done.
  - right. exists (a ++ before), r1, (after ++ b). rewrite Hctx, Hj.
    rewrite <- !app_assoc in *. split; [done|]. split; [done|]. split; [done|].
    by apply Hcs.
Qed.

(** One iteration of the model loop that completes, by the handles that
    its loads stored. *)
Lemma model_body_stored model_ i s s' :
  model_body W model_ i s = (inl tt, s') ->
  (Z.to_nat i < length (model (data s)))%nat ->
  vmaf (data s') = vmaf (data s)
  /\ length (model (data s')) = length (model (data s))
  /\ (forall j, j <> Z.to_nat i -> model (data s') !! j = model (data s) !! j)
  /\ (exists extra, modelCollection (data s') = modelCollection (data s) ++ extra)
  /\ exists new,
       trace s' = trace s ++ new
       /\ resolved_by W (trace s) (data s') (Z.to_nat i)
            (at_index modelName (elem model_ i)) (at_index modelVersion (elem model_ i)) new.
Proof.
  intros Hrun Hi. revert Hrun. unfold model_body.
  rewrite run_bind, run_throw_if.
  destruct ((elem model_ i <? 0) || (3 <? elem model_ i)); [done|].
  rewrite run_bind, run_throw_if.
  destruct (1 <? std_count model_ (elem model_ i)); [done|].
  rewrite run_bind. cbn [call_out data trace].
  set (load := vmaf_model_load _ _).
  set (r1 := answer W (trace s) load). set (p := stored W (trace s) load).
  destruct (r1 =? 0) eqn:E1; cbn [negb].
  - apply Z.eqb_eq in E1. rewrite run_bind. cbn [get_data data trace].
    rewrite run_bind. cbn [call data trace]. rewrite run_throw_if.
    set (r := answer W _ _).
    destruct (r =? 0) eqn:E; cbn [negb]; [|done]. apply Z.eqb_eq in E.
    intros [= <-]. cbn [data trace model modelCollection vmaf set_model].
    split; [done|]. split; [by rewrite length_insert|].
    split; [intros j Hj; by rewrite list_lookup_insert_ne|].
    split; [exists []; by rewrite app_nil_r|].
    eexists. split; [by rewrite <- app_assoc|].
    left. exists [], []. rewrite !app_nil_r. cbn [app].
    rewrite list_lookup_insert_eq by done. fold load p. rewrite E1, E.
    cbn [vmaf model set_model default]. by rewrite list_lookup_insert_eq.
  - apply Z.eqb_neq in E1. rewrite run_bind. cbn [modify data trace].
    rewrite run_bind. cbn [call_out2 data trace].
    set (cload := vmaf_model_collection_load _ _).
    set (r2 := answer W _ cload). set (p2 := stored W _ cload). set (c := stored2 W _ cload).
    set (d1 := set_modelCollection _ _).
    assert (Hv : vmaf d1 = vmaf (data s)) by done.
    assert (Hm : model d1 = <[Z.to_nat i := p2]> (<[Z.to_nat i := p]> (model (data s))))
      by done.
    assert (Hc : modelCollection d1 = modelCollection (data s) ++ [c]).
    { subst d1. cbn [model modelCollection set_model set_modelCollection].
      apply grown_collections. }
    clearbody d1.
    rewrite run_bind, run_throw_if.
    destruct (r2 =? 0) eqn:E2; cbn [negb]; [|done]. apply Z.eqb_eq in E2.
    rewrite run_bind. cbn [get_data data trace].
    rewrite run_bind. cbn [call data trace]. rewrite run_throw_if.
    rewrite Hv, Hc, last_snoc. cbn [default].
    set (r := answer W _ _).
    destruct (r =? 0) eqn:E; cbn [negb]; [|done]. apply Z.eqb_eq in E.
    intros [= <-]. cbn [data trace]. rewrite Hv, Hm, Hc.
    split; [done|]. split; [by rewrite !length_insert|].
    split; [intros j Hj; by rewrite !list_lookup_insert_ne|].
    split; [by exists [c]|].
    eexists. split; [by rewrite <- !app_assoc|].
    right. exists [], r1, []. rewrite !app_nil_r. cbn [app].
    fold load cload p2 c. rewrite E2, E, Hv, Hm, Hc.
    rewrite list_lookup_insert_eq by (by rewrite length_insert).
    split; [done|]. split; [done|]. split; [done|].
    apply elem_of_app. right. apply list_elem_of_here.
Qed.

(** The model loop, when it completes: every model that it was asked for is
    resolved, by the handles that the loads stored. *)
Lemma model_loop_stored model_ left : forall i s s',
  model_loop W model_ left i s = (inl tt, s') ->
  0 <= i ->
  (Z.to_nat i + left <= length (model (data s)))%nat ->
  vmaf (data s') = vmaf (data s)
  /\ length (model (data s')) = length (model (data s))
  /\ (forall j, (j < Z.to_nat i)%nat -> model (data s') !! j = model (data s) !! j)
  /\ (exists extra, modelCollection (data s') = modelCollection (data s) ++ extra)
  /\ exists new,
       trace s' = trace s ++ new
       /\ forall j, (Z.to_nat i <= j < Z.to_nat i + left)%nat ->
            resolved_by W (trace s) (data s') j
              (at_index modelName (elem model_ (Z.of_nat j)))
              (at_index modelVersion (elem model_ (Z.of_nat j))) new.
Proof.
  induction left as [|left IH]; intros i s s' Hrun Hi Hlen.
  - injection Hrun as <-. split; [done|]. split; [done|]. split; [done|].
    split; [exists []; by rewrite app_nil_r|].
    exists []. rewrite app_nil_r. split; [done|]. intros j Hj. lia.
  - cbn [model_loop] in Hrun. rewrite run_bind in Hrun.
    destruct (model_body W model_ i s) as [[[]|e] s1] eqn:Hbody; [|done].
    destruct (model_body_stored _ _ _ _ Hbody) as (Hv1 & Hl1 & Hk1 & (x1 & Hc1) & new1 & Ht1 & Hr1);
      [lia|].
    destruct (IH _ _ _ Hrun) as (Hv2 & Hl2 & Hk2 & (x2 & Hc2) & new2 & Ht2 & Hr2);
      [lia|rewrite Hl1; lia|].
    split; [congruence|]. split; [congruence|].
    split; [intros j Hj; rewrite Hk2 by lia; apply Hk1; lia|].
    split; [exists (x1 ++ x2); by rewrite Hc2, Hc1, app_assoc|].
    exists (new1 ++ new2). split; [by rewrite Ht2, Ht1, app_assoc|].
    intros j Hj. destruct (decide (j = Z.to_nat i)) as [->|Hne].
    + rewrite Z2Nat.id by done.
      rewrite <- (app_nil_r (trace s)) in Hr1.
      pose proof (resolved_by_extend (trace s) [] (data s1) (data s') (Z.to_nat i) _ _
                    new1 new2 Hr1 Hv2) as H. cbn [app] in H. apply H.
      * apply Hk2. lia.
      * intros c Hc. rewrite Hc2. apply elem_of_app. by left.
    + rewrite Ht1 in Hr2.
      pose proof (resolved_by_extend (trace s) new1 (data s') (data s') j _ _ new2 []
                    (Hr2 j ltac:(lia)) eq_refl eq_refl (fun _ H => H)) as H.
      by rewrite app_nil_r in H.
Qed.

(** The [try] block of [vmafCreate]: its outcome, and the handles that its
    calls stored. *)
Lemma create_try_stored in_ userData s :
  exists r d' new,
    create_try W in_ userData s = (r, {| data := d'; trace := trace s ++ new |})
    /\ create_try_outcome in_ userData (numThreads W) (data s) r d' new
    /\ context_stored W (trace s) d' new
    /\ (r = inl tt ->
        forall (j : nat) m,
          mapGetIntArray (in_model in_) !! j = Some m ->
          resolved_by W (trace s) d' j (at_index modelName m) (at_index modelVersion m) new).
Proof.
  assert (Hnone : forall d', context_stored W (trace s) d' []).
  { intros d'. split; intros ? ? [=]. }
  unfold create_try.
  do 4 (rewrite run_bind; cbn [modify data trace]).
  rewrite run_bind; cbn [get_data data trace].
  set (d1 := set_vi _ _).
  assert (Hd1 : d1 = opened in_ userData (data s)) by reflexivity.
  assert (Hv : vi d1 = getVideoInfo (in_reference in_)) by reflexivity.
  assert (Hdist : distorted d1 = in_distorted in_) by reflexivity.
  clearbody d1. rewrite !Hv.
  set (v := getVideoInfo (in_reference in_)) in *.
  rewrite run_bind, run_throw_if. fold (unsupported_format v).
  destruct (unsupported_format v) eqn:G1.
  { exists (inr (c_str "only constant YUV format integer input supported")), d1, [].
    rewrite app_nil_r. split; [done|]. subst d1. split; [by constructor|]. done. }
  rewrite run_bind, run_throw_if. fold (unsupported_depth v).
  destruct (unsupported_depth v) eqn:G2.
  { exists (inr (c_str "only 8, 10, 12 and 16 bit depth supported")), d1, [].
    rewrite app_nil_r. split; [done|]. subst d1. split; [by constructor|]. done. }
  rewrite run_bind, run_throw_if. fold (unsupported_subsampling v).
  destruct (unsupported_subsampling v) eqn:G3.
  { exists (inr (std_string "only 420/422/444 chroma subsampling is supported")), d1, [].
    rewrite app_nil_r. split; [done|]. subst d1. split; [by constructor|]. done. }
  assert (Hsup : supported v) by done.
  rewrite run_bind; cbn [modify data trace].
  rewrite run_bind, run_throw_if.
  fold (log_format_out_of_range (mapGetIntSaturated (in_log_format in_))).
  destruct (log_format_out_of_range (mapGetIntSaturated (in_log_format in_))) eqn:G4.
  { eexists _, _, []. rewrite app_nil_r. split; [done|]. subst d1.
    split; [by constructor|]. done. }
  rewrite run_bind; cbn [modify data trace].
  set (d3 := set_logFormat _ _).
  assert (Hd3 : d3 = configured in_ userData (data s)) by (by subst d1).
  assert (Hv3 : vi d3 = v) by done.
  assert (Hdist3 : distorted d3 = in_distorted in_) by done.
  clearbody d3. clear Hd1 Hv Hdist d1.
  rewrite run_bind; cbn [call_out data trace].
  set (e0 := vmaf_init (numThreads W) 1).
  set (r0 := answer W (trace s) e0). set (ctx := stored W (trace s) e0).
  rewrite run_bind, run_throw_if.
  destruct (r0 =? 0) eqn:E0; cbn [negb].
  2: { apply Z.eqb_neq in E0. eexists _, _, [(e0, r0)]. split; [done|].
       subst d3. split; [by constructor|]. split; [|done].
       split; [by intros ? ? _|intros ? ? [=]]. }
  apply Z.eqb_eq in E0. rewrite E0. clear E0 r0.
  rewrite run_bind; cbn [call_out data trace].
  set (r1 := answer W _ vmaf_cuda_state_init).
  set (cu := stored W _ vmaf_cuda_state_init).
  set (d5 := set_cu_state cu (set_vmaf ctx d3)).
  assert (Hd5 : d5 = initialised in_ userData (data s) ctx cu) by (by subst d3).
  assert (Hv5 : vi d5 = v) by done.
  assert (Hdist5 : distorted d5 = in_distorted in_) by done.
  assert (Hctx : vmaf d5 = ctx) by done.
  assert (Hcu : cu_state d5 = cu) by done.
  clearbody d5. clear Hd3 Hv3 Hdist3 d3.
  assert (Hstored : forall d' code rest,
             vmaf d' = ctx -> cu_state d' = cu ->
             context_stored W (trace s) d' ((e0, 0) :: (vmaf_cuda_state_init, code) :: rest)).
  { intros d' code rest Hv' Hcu'. split; intros; [by rewrite Hv'|by rewrite Hcu']. }
  rewrite run_bind, run_throw_if.
  destruct (r1 =? 0) eqn:E1; cbn [negb].
  2: { apply Z.eqb_neq in E1. eexists _, _, [(e0, 0); (vmaf_cuda_state_init, r1)].
       split; [by rewrite <- app_assoc|]. split; [subst d5; by constructor|].
       split; [by apply Hstored|done]. }
  apply Z.eqb_eq in E1. rewrite E1. clear E1 r1.
  rewrite run_bind; cbn [get_data data trace].
  rewrite run_bind; cbn [call data trace].
  rewrite Hctx, Hcu, Hv5, Hdist5.
  set (r2 := answer W _ (vmaf_cuda_import_state ctx cu)).
  rewrite run_bind, run_throw_if.
  destruct (r2 =? 0) eqn:E2; cbn [negb].
  2: { apply Z.eqb_neq in E2. eexists _, _, (init_events (numThreads W) ctx cu r2).
       split; [by rewrite <- !app_assoc|]. split; [subst d5; by constructor|].
       split; [by apply Hstored|done]. }
  apply Z.eqb_eq in E2. rewrite E2. clear E2 r2.
  set (s5 := {| data := d5; trace := _ |}).
  assert (Hs5 : trace s5 = trace s ++ init_events (numThreads W) ctx cu 0)
    by (cbn; by rewrite <- !app_assoc).
  assert (Hds5 : data s5 = d5) by done.
  clearbody s5.
  rewrite run_bind, run_throw_if.
  destruct (isSameVideoInfo (getVideoInfo (in_distorted in_)) v) eqn:G5; cbn [negb].
  2: { exists (inr (std_string "both clips must have the same format and dimensions")),
         d5, (init_events (numThreads W) ctx cu 0).
       split; [rewrite <- Hs5, <- Hds5; by destruct s5|]. split; [subst d5; by constructor|].
       split; [by apply Hstored|done]. }
  rewrite run_bind, run_throw_if.
  destruct (numFrames (getVideoInfo (in_distorted in_)) =? numFrames v) eqn:G6; cbn [negb].
  2: { exists (inr (std_string "both clips' number of frames do not match")),
         d5, (init_events (numThreads W) ctx cu 0).
       split; [rewrite <- Hs5, <- Hds5; by destruct s5|]. split; [subst d5; by constructor|].
       split; [by apply Hstored|done]. }
  assert (Hmatch : clips_match in_) by done.
  rewrite run_bind.
  set (s6 := {| data := sized in_ (data s5); trace := trace s5 |}).
  assert (Hs6 : (if 0 <? mapNumElements (in_model in_)
                 then modify (fun d0 => set_model
                        (resize (Z.to_nat (mapNumElements (in_model in_))) nullptr (model d0))
                        d0)
                 else mret ()) s5 = (inl tt, s6)).
  { subst s6. unfold sized. destruct (0 <? mapNumElements (in_model in_)); [done|].
    by destruct s5. }
  rewrite Hs6. clear Hs6.
  rewrite run_bind.
  destruct (model_loop_run (mapGetIntArray (in_model in_))
              (Z.to_nat (mapNumElements (in_model in_))) 0 s6)
    as (rm & dm & newm & Hrunm & Hm).
  assert (Hsized : vmaf (sized in_ d5) = ctx /\ cu_state (sized in_ d5) = cu
                   /\ (Z.to_nat (mapNumElements (in_model in_))
                         <= length (model (sized in_ d5)))%nat).
  { unfold sized. destruct (0 <? mapNumElements (in_model in_)) eqn:E.
    - cbn. rewrite length_resize. done.
    - apply Z.ltb_ge in E. split; [done|]. split; [done|]. lia. }
  destruct Hsized as (Hv6 & Hcu6 & Hlen6).
  assert (Hresolved : rm = inl tt ->
            vmaf dm = ctx
            /\ forall (j : nat) m,
                 mapGetIntArray (in_model in_) !! j = Some m ->
                 resolved_by W (trace s ++ init_events (numThreads W) ctx cu 0) dm j
                   (at_index modelName m) (at_index modelVersion m) newm).
  { intros ->.
    destruct (model_loop_stored _ _ _ _ _ Hrunm) as (Hvm & _ & _ & _ & new' & Htr & Hres);
      [done|subst s6; cbn [data]; rewrite Hds5; cbn; lia|].
    subst s6. cbn [data trace] in *. rewrite Hds5 in *. rewrite Hs5 in *.
    apply app_inv_head in Htr. subst new'.
    split; [congruence|]. intros j m Hj.
    rewrite <- (elem_lookup _ _ _ Hj). apply Hres.
    apply lookup_lt_Some in Hj. rewrite length_mapGetIntArray. cbn. lia. }
  rewrite Hrunm. clear Hrunm.
  destruct (model_loop_same_setup _ _ _ _ _ _ _ Hm) as (Hsame & _).
  apply same_setup_fields in Hsame as (_ & _ & _ & _ & _ & _ & Hvm & _ & Hcum).
  subst s6. cbn [data trace] in *. rewrite Hds5 in Hvm, Hcum.
  rewrite Hs5, Hds5, Hd5 in *. clear Hs5 Hds5 s5.
  destruct rm as [[]|e].
  2: { exists (inr e), dm, (init_events (numThreads W) ctx cu 0 ++ newm).
       split; [by rewrite <- !app_assoc|]. split; [by apply create_models_failed|].
       split; [|done]. apply Hstored; congruence. }
  destruct (Hresolved eq_refl) as (_ & Hres). clear Hresolved.
  rewrite run_bind.
  destruct (feature_loop_run (mapGetIntArray (in_feature in_))
              (Z.to_nat (mapNumElements (in_feature in_))) 0
              {| data := dm; trace := (trace s ++ init_events (numThreads W) ctx cu 0) ++ newm |})
    as (rf & df & newf & -> & Hf).
  cbn [data trace] in *.
  destruct (feature_loop_same_setup _ _ _ _ _ _ _ Hf) as (Hsame & Hmf & Hcf).
  apply same_setup_fields in Hsame as (_ & _ & _ & _ & _ & _ & Hvf & _ & Hcuf).
  destruct rf as [[]|e].
  2: { exists (inr e), df, (init_events (numThreads W) ctx cu 0 ++ newm ++ newf).
       split; [by rewrite <- !app_assoc|]. split; [by eapply create_features_failed|].
       split; [|done]. apply Hstored; congruence. }
  rewrite run_bind; cbn [get_data data trace].
  exists (inl tt), (set_pixelFormat (pick_pixelFormat (vi df)) df),
    (init_events (numThreads W) ctx cu 0 ++ newm ++ newf).
  split; [|split; [by eapply create_done|split]].
  - rewrite <- !app_assoc. unfold pick_pixelFormat.
    destruct ((subSamplingW (format (vi df)) =? 1) && (subSamplingH (format (vi df)) =? 1));
      [done|].
    by destruct ((subSamplingW (format (vi df)) =? 1) && (subSamplingH (format (vi df)) =? 0)).
  - apply Hstored; cbn; congruence.
  - intros _ j m Hj.
    apply (resolved_by_extend (trace s) (init_events (numThreads W) ctx cu 0) dm).
    + by apply Hres.
    + cbn. congruence.
    + cbn. by rewrite Hmf.
    + intros c Hc. cbn. by rewrite Hcf.
Qed.

Lemma for_each_void_run (mk : ptr -> Call) l s :
  for_each (fun m => call_void (mk m)) l s
    = (inl tt, {| data := data s; trace := trace s ++ map (fun m => (mk m, 0)) l |}).
Proof.
  revert s. induction l as [|m l IH]; intros s.
  - cbn. rewrite app_nil_r. by destruct s.
  - cbn [for_each]. rewrite run_bind. cbn [call_void data trace].
    rewrite IH. cbn [data trace map]. by rewrite <- app_assoc.
Qed.

(** The [try] block of [vmafCreate] throws strings only. *)
Lemma create_try_defined in_ userData nt d0 d new :
  ~ create_try_outcome in_ userData nt d0 (inr undefined_behaviour) d new.
Proof.
  inversion 1 as [| | | | | | | | |? ? ? ? ? ? ? ? Hm|? ? ? ? ? ? ? ? ? ? ? Hf|]; subst.
  - apply model_loop_error in Hm as [?|[?|(? & [?|[?|?]])]]; done.
  - apply feature_loop_error in Hf as [?|[?|(? & ?)]]; done.
Qed.

Lemma context_stored_app h d new tail :
  context_stored W h d new ->
  match tail with (vmaf_init _ _, _) :: _ => False | _ => True end ->
  (forall code, new = [(vmaf_init (numThreads W) 1, code)] ->
     match tail with (vmaf_cuda_state_init, _) :: _ => False | _ => True end) ->
  context_stored W h d (new ++ tail).
Proof.
  intros [H1 H2] Htail Htail2. split.
  - intros code rest Heq. destruct new as [|e new]; [|injection Heq as -> _; by eapply H1].
    cbn in Heq. subst tail. done.
  - intros code rest Heq. destruct new as [|e new].
    { cbn in Heq. subst tail. done. }
    injection Heq as -> Heq. destruct new as [|e new].
    { cbn in Heq. subst tail. by destruct (Htail2 0 eq_refl). }
    injection Heq as -> _. by eapply H2.
Qed.

(** [vmafCreate]: its outcome, and the handles that its calls stored. *)
Lemma vmafCreate_stored in_ userData s :
  exists r d' new,
    vmafCreate W in_ userData s = (r, {| data := d'; trace := trace s ++ new |})
    /\ vmafCreate_outcome in_ userData (numThreads W) (data s) r d' new
    /\ context_stored W (trace s) d' new
    /\ (forall name v d x before,
          new = before ++ [(createVideoFilter name v d, x)] ->
          forall (j : nat) m,
            mapGetIntArray (in_model in_) !! j = Some m ->
            resolved_by W (trace s) d j (at_index modelName m) (at_index modelVersion m)
              before).
Proof.
  unfold vmafCreate. rewrite run_bind. unfold try_catch_std_string.
  destruct (create_try_stored in_ userData s) as (r & d & new & -> & H & Hctx & Hres).
  destruct r as [[]|[what|error|]].
  - rewrite run_bind. cbn [get_data call_void data trace].
    exists (inl tt), d, (new ++ [(createVideoFilter (filterName d) (vi d) d, 0)]).
    split; [unfold call_void; cbn [data trace]; by rewrite <- app_assoc|].
    split; [by apply filter_created|]. split; [by apply context_stored_app|].
    intros name v d' x before Heq j m Hj.
    apply app_inj_tail in Heq as [<- [= _ _ <- _]]. by apply Hres.
  - eexists _, _, _. split; [done|]. split; [by apply exception_escaped|].
    split; [done|].
    intros name v d' x before ->. pose proof (create_try_calls _ _ _ _ _ _ _ H) as Hcalls.
    apply Forall_app in Hcalls as [_ Hcalls]. by apply Forall_cons in Hcalls as [? _].
  - rewrite run_bind. cbn [get_data data trace].
    do 3 (rewrite run_bind; cbn [call_void data trace]).
    rewrite run_bind, for_each_void_run. cbn [data trace].
    rewrite run_bind, for_each_void_run. cbn [call_void data trace].
    exists (inl tt), d, (new ++ abort_events d error).
    split; [unfold abort_events, call_void; cbn [data trace]; by rewrite <- !app_assoc|].
    split; [by apply error_set|]. split; [by apply context_stored_app|].
    intros name v d' x before Heq. exfalso. unfold abort_events in Heq.
    rewrite !app_assoc in Heq. by apply app_inj_tail in Heq as [_ [=]].
  - by apply create_try_defined in H.
Qed.

Lemma vmafCreate_run in_ userData s :
  exists r d' new,
    vmafCreate W in_ userData s = (r, {| data := d'; trace := trace s ++ new |})
    /\ vmafCreate_outcome in_ userData (numThreads W) (data s) r d' new.
Proof.
  destruct (vmafCreate_stored in_ userData s) as (r & d' & new & Heq & Hout & _).
  by exists r, d', new.
Qed.


Lemma created_inv in_ userData nt d0 r d' new name v d x :
  vmafCreate_outcome in_ userData nt d0 r d' new ->
  (createVideoFilter name v d, x) ∈ new ->
  r = inl tt /\ d' = d /\ name = filterName d /\ v = vi d /\ x = 0
  /\ exists before,
       create_try_outcome in_ userData nt d0 (inl tt) d before
       /\ new = before ++ [(createVideoFilter name v d, x)].
Proof.
  intros H Hin.
  assert (Htry : forall r d new,
             create_try_outcome in_ userData nt d0 r d new ->
             (createVideoFilter name v d, x) ∉ new).
  { intros r1 d1 new1 H1 Hin1. apply create_try_calls in H1.
    rewrite Forall_forall in H1. by apply H1 in Hin1. }
  destruct H as [d1 new1 H1|error d1 new1 H1|what d1 new1 H1].
  - apply elem_of_app in Hin as [Hin|Hin].
    + exfalso. apply create_try_calls in H1. rewrite Forall_forall in H1.
      by apply H1 in Hin.
    + apply list_elem_of_singleton in Hin. injection Hin as -> -> -> ->. eauto 10.
  - exfalso. apply elem_of_app in Hin as [Hin|Hin].
    + apply create_try_calls in H1. rewrite Forall_forall in H1. by apply H1 in Hin.
    + by apply abort_events_calls in Hin as [?|(_ & ? & _)].
  - exfalso. apply create_try_calls in H1. rewrite Forall_forall in H1.
    by apply H1 in Hin.
Qed.

Lemma vmafCreate_no_frames in_ userData nt d0 r d new :
  vmafCreate_outcome in_ userData nt d0 r d new ->
  count_if is_read_pictures new = 0%nat.
Proof.
  destruct 1 as [d1 new1 H1|error d1 new1 H1|what d1 new1 H1];
    rewrite ?count_if_app;
    rewrite (count_if_setup _ _ (create_try_calls _ _ _ _ _ _ _ H1)) by (by intros []);
    [done| |done].
  by rewrite count_if_abort.
Qed.

Lemma vmafCreate_not_created in_ userData nt d0 r d new :
  vmafCreate_outcome in_ userData nt d0 r d new ->
  (forall d' before, create_try_outcome in_ userData nt d0 (inl tt) d' before -> False) ->
  count_if is_createVideoFilter new = 0%nat
  /\ (count_if is_mapSetError new = 1%nat \/ exists what, r = inr (c_str what)).
Proof.
  intros H Hno. destruct H as [d1 new1 H1|error d1 new1 H1|what d1 new1 H1].
  - by apply Hno in H1.
  - rewrite !count_if_app.
    rewrite !(count_if_setup _ _ (create_try_calls _ _ _ _ _ _ _ H1)) by (by intros []).
    split; [by rewrite count_if_abort|]. left.
    unfold abort_events. rewrite !count_if_app, !count_if_map_none by done. done.
  - rewrite !(count_if_setup _ _ (create_try_calls _ _ _ _ _ _ _ H1)) by (by intros []).
    eauto.
Qed.

Lemma vmafCreate_collection_loads in_ userData nt d0 r d new :
  vmafCreate_outcome in_ userData nt d0 r d new -> collection_loads_follow None new.
Proof.
  destruct 1 as [d1 new1 H1|error d1 new1 H1|what d1 new1 H1].
  - apply collection_loads_follow_app; [by eapply create_try_collection_loads|].
    by cbn.
  - apply collection_loads_follow_app; [by eapply create_try_collection_loads|].
    apply collection_loads_follow_none, Forall_forall. intros e He.
    by apply abort_events_calls in He as [->|(_ & _ & _ & _ & ?)].
  - by eapply create_try_collection_loads.
Qed.

Lemma vmafCreate_collection_failed in_ userData nt d0 r d new name version r2 :
  vmafCreate_outcome in_ userData nt d0 r d new ->
  (vmaf_model_collection_load name version, r2) ∈ new -> r2 <> 0 ->
  (mapSetError (userData +:+ ": " +:+ "failed to load model: " +:+ version), 0) ∈ new
  /\ count_if is_createVideoFilter new = 0%nat.
Proof.
  intros H Hin Hr2.
  assert (Htry : forall r d new,
             create_try_outcome in_ userData nt d0 r d new ->
             (vmaf_model_collection_load name version, r2) ∈ new ->
             r = inr (std_string ("failed to load model: " +:+ version))).
  { intros. by eapply create_try_collection_failed. }
  destruct H as [d1 new1 H1|error d1 new1 H1|what d1 new1 H1].
  - apply elem_of_app in Hin as [Hin|Hin]; [by apply (Htry _ _ _ H1) in Hin|].
    by apply list_elem_of_singleton in Hin.
  - apply elem_of_app in Hin as [Hin|Hin].
    + pose proof (Htry _ _ _ H1 Hin) as [= ->].
      rewrite <- (create_try_filterName _ _ _ _ _ _ _ H1).
      split.
      * apply elem_of_app. right. unfold abort_events. apply elem_of_app. left.
        apply list_elem_of_here.
      * rewrite count_if_app.
        rewrite (count_if_setup _ _ (create_try_calls _ _ _ _ _ _ _ H1))
          by (by intros []).
        by rewrite count_if_abort.
    + by apply abort_events_calls in Hin as [?|(_ & _ & _ & _ & ?)].
  - by apply (Htry _ _ _ H1) in Hin.
Qed.

(** A failed singleton load falls back to the collection load. *)
Lemma failed_loads_fall_back_app a b :
  failed_loads_fall_back a -> failed_loads_fall_back b -> failed_loads_fall_back (a ++ b).
Proof.
  induction a as [|[c x] a IH]; [done|]. cbn. intros [H1 H2] Hb. split; [|by apply IH].
  destruct c; try done. intros Hx. destruct (H1 Hx) as (r2 & rest & ->).
  by exists r2, (rest ++ b).
Qed.

Lemma failed_loads_fall_back_none tr :
  Forall (fun e : Event => is_model_load e.1 = false) tr -> failed_loads_fall_back tr.
Proof.
  induction 1 as [|[c x] tr Hc _ IH]; [done|]. cbn in *. split; [|done]. by destruct c.
Qed.

Lemma failed_loads_fall_back_split tr before name version r1 after :
  failed_loads_fall_back tr ->
  tr = before ++ (vmaf_model_load name version, r1) :: after ->
  r1 <> 0 ->
  exists r2 rest, after = (vmaf_model_collection_load name version, r2) :: rest.
Proof.
  revert tr. induction before as [|e before IH]; intros tr H -> Hr1.
  - cbn in H. destruct H as [H _]. by apply H.
  - cbn in H. destruct H as [_ H]. by eapply IH.
Qed.

Lemma model_body_falls_back l i d r d' new :
  model_body_outcome l i d r d' new -> failed_loads_fall_back new.
Proof.
  destruct 1; cbn; repeat split; try done; intros Hr; first [done | by eauto].
Qed.

Lemma model_loop_falls_back l left i d r d' new :
  loop_outcome (model_body_outcome l) left i d r d' new -> failed_loads_fall_back new.
Proof.
  apply loop_closed; [done| |].
  - intros. by apply failed_loads_fall_back_app.
  - intros. by eapply model_body_falls_back.
Qed.

Lemma create_try_falls_back in_ userData nt d0 r d new :
  create_try_outcome in_ userData nt d0 r d new -> failed_loads_fall_back new.
Proof.
  assert (Hfeat : forall l left i d r d' new,
             loop_outcome (feature_body_outcome l) left i d r d' new ->
             failed_loads_fall_back new).
  { intros ??????? H. apply failed_loads_fall_back_none.
    eapply Forall_impl; [by eapply feature_loop_calls|]. intros [[] ?]; done. }
  destruct 1; try (cbn; by eauto 10).
  - apply failed_loads_fall_back_app; [cbn; by eauto 10|].
    by eapply model_loop_falls_back.
  - apply failed_loads_fall_back_app; [cbn; by eauto 10|].
    apply failed_loads_fall_back_app; [by eapply model_loop_falls_back|].
    by eapply Hfeat.
  - apply failed_loads_fall_back_app; [cbn; by eauto 10|].
    apply failed_loads_fall_back_app; [by eapply model_loop_falls_back|].
    by eapply Hfeat.
Qed.

Lemma vmafCreate_falls_back in_ userData nt d0 r d new :
  vmafCreate_outcome in_ userData nt d0 r d new -> failed_loads_fall_back new.
Proof.
  destruct 1 as [d1 new1 H1|error d1 new1 H1|what d1 new1 H1].
  - apply failed_loads_fall_back_app; [by eapply create_try_falls_back|].
    by cbn.
  - apply failed_loads_fall_back_app; [by eapply create_try_falls_back|].
    apply failed_loads_fall_back_none, Forall_forall. intros e He.
    apply abort_events_calls in He as [->|(Hs & _)]; [done|].
    by destruct e as [[] ?].
  - by eapply create_try_falls_back.
Qed.

(** C4.  Model resolution in [vmafCreate].  A singleton load that fails is
    followed at once by the collection load of the same model, and a
    collection load is only made there, right after the singleton load of
    the same model has failed.  If the collection load fails too, the
    error that names the model version, prefixed with the filter name, is
    set and no filter is created.  No frame is submitted during set-up.
    When the filter is created, its context is the one that [vmaf_init]
    stored, and every requested model has been resolved before the filter
    exists: the feature extractors registered into that context are those
    of the very model, or of the very collection, that the successful load
    stored, and the model vector holds the model that this load stored. *)
Theorem model_resolution in_ userData tr0 r s new :
  vmafCreate W in_ userData {| data := make_unique_VMAFData; trace := tr0 |} = (r, s) ->
  trace s = tr0 ++ new ->
  (forall before name version r1 after,
      new = before ++ (vmaf_model_load name version, r1) :: after ->
      r1 <> 0 ->
      exists r2 after', after = (vmaf_model_collection_load name version, r2) :: after')
  /\ (forall before name version r2 after,
        new = before ++ (vmaf_model_collection_load name version, r2) :: after ->
        exists before' r1,
          before = before' ++ [(vmaf_model_load name version, r1)] /\ r1 <> 0)
  /\ (forall name version r2,
        (vmaf_model_collection_load name version, r2) ∈ new -> r2 <> 0 ->
        (mapSetError (userData +:+ ": " +:+ "failed to load model: " +:+ version), 0)
          ∈ new
        /\ count_if is_createVideoFilter new = 0%nat)
  /\ count_if is_read_pictures new = 0%nat
  /\ (forall name v d,
        (createVideoFilter name v d, 0) ∈ new ->
        exists before,
          new = before ++ [(createVideoFilter name v d, 0)]
          /\ vmaf d = stored W tr0 (vmaf_init (numThreads W) 1)
          /\ forall (j : nat) m,
               mapGetIntArray (in_model in_) !! j = Some m ->
               resolved_by W tr0 d j (at_index modelName m) (at_index modelVersion m)
                 before).
Proof.
  intros Hrun Htr.
  destruct (vmafCreate_stored in_ userData {| data := make_unique_VMAFData; trace := tr0 |})
    as (r' & d' & new' & Heq & Hout & [Hctx _] & Hres).
  rewrite Heq in Hrun. injection Hrun as <- <-. cbn [trace data] in *.
  apply app_inv_head in Htr. subst new'.
  split; [|split; [|split; [|split]]].
  - intros before name version r1 after Hsplit Hr1.
    by eapply failed_loads_fall_back_split; [eapply vmafCreate_falls_back| |].
  - intros before name version r2 after Hsplit.
    destruct (collection_loads_follow_split None new before name version r2 after
                (vmafCreate_collection_loads _ _ _ _ _ _ _ Hout) Hsplit)
      as (r1 & Hlast & Hr1).
    cbn in Hlast. apply last_Some in Hlast as [before' ->]. eauto.
  - intros. by eapply vmafCreate_collection_failed.
  - by eapply vmafCreate_no_frames.
  - intros name v d Hin.
    destruct (created_inv _ _ _ _ _ _ _ _ _ _ _ Hout Hin)
      as (_ & -> & _ & _ & _ & before & Htry & ->).
    exists before. split; [done|]. split; [|by eapply Hres].
    inversion Htry; subst. by eapply Hctx.
Qed.

(** ** How many collection handles a created filter holds *)

Lemma count_failed_loads_app tr1 tr2 :
  count_failed_loads (tr1 ++ tr2)
  = (count_failed_loads tr1 + count_failed_loads tr2)%nat.
Proof.
  induction tr1 as [|[c r] tr1 IH]; cbn; [done|].
  destruct c; rewrite ?IH; lia.
Qed.

Lemma count_failed_loads_none (P : Call -> bool) tr :
  Forall (fun e : Event => P e.1 = true) tr ->
  (forall name version, P (vmaf_model_load name version) = false) ->
  count_failed_loads tr = 0%nat.
Proof.
  intros H HP. induction H as [|[c r] tr Hc _ IH]; cbn; [done|].
  destruct c; try done. cbn in Hc. by rewrite HP in Hc.
Qed.

Lemma model_body_collections l i d d1 new1 :
  model_body_outcome l i d (inl tt) d1 new1 ->
  length (modelCollection d1)
  = (length (modelCollection d) + count_failed_loads new1)%nat.
Proof.
  inversion 1 as [| |p r d2 ? ? ? Hr| |p r1 p2 c r d2 ? ? Hr1 ? Hr]; subst.
  - cbn. lia.
  - cbn. apply Z.eqb_neq in Hr1. rewrite Hr1.
    rewrite length_insert, length_resize. lia.
Qed.

Lemma model_loop_collections l left i d d' new :
  loop_outcome (model_body_outcome l) left i d (inl tt) d' new ->
  length (modelCollection d')
  = (length (modelCollection d) + count_failed_loads new)%nat.
Proof.
  intros H. remember (inl tt) as r eqn:Hr. revert Hr.
  induction H as [| left i d d1 new1 r d2 new2 H1 H2 IH |]; intros Hr.
  - cbn. lia.
  - rewrite (IH Hr), (model_body_collections _ _ _ _ _ H1), count_failed_loads_app. lia.
  - done.
Qed.

Lemma created_collections in_ userData nt d0 d new :
  create_try_outcome in_ userData nt d0 (inl tt) d new ->
  modelCollection d0 = [] ->
  length (modelCollection d) = count_failed_loads new.
Proof.
  inversion 1 as [| | | | | | | | | | |ctx cu d1 new1 d2 new2 Hsup Hlog Hmatch Hm Hf];
    subst. intros Hd0.
  destruct (feature_loop_same_setup _ _ _ _ _ _ _ Hf) as (_ & _ & Hmc).
  cbn [modelCollection set_pixelFormat]. rewrite Hmc.
  rewrite (model_loop_collections _ _ _ _ _ _ Hm).
  rewrite !count_failed_loads_app.
  rewrite (count_failed_loads_none is_feature_call new2)
    by (by eapply feature_loop_calls || done).
  assert (Hlen : length (modelCollection (sized in_ (initialised in_ userData d0 ctx cu)))
                 = 0%nat).
  { unfold sized. destruct (0 <? _); cbn; by rewrite Hd0. }
  rewrite Hlen. cbn. lia.
Qed.

(** C5, as the code has it.  Every requested model of a created filter was
    resolved one way or the other, and entry [j] of the model vector is the
    model that the successful load of model [j] stored: the singleton
    load, or else the collection load, through its first out-parameter,
    whose collection is in the vector of collections.  The model vector has
    one entry per requested model, however it was resolved, and there is
    one collection handle per failed singleton load.  At the teardown of
    the filter, the first of the process, [vmaf_score_pooled] is called
    once for every entry of the model vector and
    [vmaf_score_pooled_model_collection] once for every collection handle:
    a model resolved as a collection gets both calls. *)
Theorem extraction_per_handle in_ userData tr0 r0 s0 new0 name v d tr1 r s new :
  vmafCreate W in_ userData {| data := make_unique_VMAFData; trace := tr0 |}
    = (r0, s0) ->
  trace s0 = tr0 ++ new0 ->
  (createVideoFilter name v d, 0) ∈ new0 ->
  made_by_an_earlier_call tr1 = false ->
  vmafFree W {| data := d; trace := tr1 |} = (r, s) ->
  trace s = tr1 ++ new ->
  (forall (j : nat) m,
      mapGetIntArray (in_model in_) !! j = Some m ->
      resolved_by W tr0 d j (at_index modelName m) (at_index modelVersion m) new0)
  /\ length (model d) = length (mapGetIntArray (in_model in_))
  /\ length (modelCollection d) = count_failed_loads new0
  /\ extractions (without_log new)
     = map (fun m => vmaf_score_pooled (vmaf d) m VMAF_POOL_METHOD_MEAN 0
                       (to_unsigned (to_int (numFrames (vi d) - 1)))) (model d)
       ++ map (fun m => vmaf_score_pooled_model_collection (vmaf d) m VMAF_POOL_METHOD_MEAN 0
                          (to_unsigned (to_int (numFrames (vi d) - 1))))
            (modelCollection d).
Proof.
  intros Hrun0 Htr0 Hin Hfirst Hrun Htr.
  destruct (vmafCreate_stored in_ userData {| data := make_unique_VMAFData; trace := tr0 |})
    as (r' & d' & new' & Heq & Hout & _ & Hres).
  rewrite Heq in Hrun0. injection Hrun0 as <- <-. cbn [trace data] in *.
  apply app_inv_head in Htr0. subst new'.
  destruct (created_inv _ _ _ _ _ _ _ _ _ _ _ Hout Hin)
    as (_ & _ & _ & _ & _ & before & Htry & ->).
  destruct (vmafFree_run d tr1 Hfirst) as (new' & Heq' & [Hcalls _ _]).
  rewrite Heq' in Hrun. injection Hrun as <- <-. cbn [trace] in Htr.
  apply app_inv_head in Htr. subst new'.
  split; [|split; [|split]].
  - intros j m Hj.
    pose proof (Hres _ _ _ _ _ eq_refl j m Hj) as Hr.
    rewrite <- (app_nil_r tr0) in Hr.
    by apply (resolved_by_extend tr0 [] d d j _ _ before
                [(createVideoFilter name v d, 0)]) in Hr.
  - by apply (created_data _ _ _ _ _ _ Htry).
  - rewrite count_failed_loads_app. cbn. rewrite Nat.add_0_r.
    by apply (created_collections _ _ _ _ _ _ Htry).
  - rewrite Hcalls. unfold teardown_calls.
    rewrite !extractions_app.
    rewrite (extractions_map_all (fun m => vmaf_score_pooled _ m _ _ _)) by done.
    rewrite (extractions_map_all (fun m => vmaf_score_pooled_model_collection _ m _ _ _))
      by done.
    rewrite (extractions_map_none vmaf_model_destroy) by done.
    rewrite (extractions_map_none vmaf_model_collection_destroy) by done.
    cbn. by rewrite !app_nil_r.
Qed.

(** ** Facts about the guards *)

Lemma isSameVideoInfo_true a b :
  isSameVideoInfo a b = true ->
  colorFamily (format a) = colorFamily (format b)
  /\ sampleType (format a) = sampleType (format b)
  /\ bitsPerSample (format a) = bitsPerSample (format b)
  /\ subSamplingW (format a) = subSamplingW (format b)
  /\ subSamplingH (format a) = subSamplingH (format b)
  /\ width a = width b
  /\ height a = height b.
Proof.
  unfold isSameVideoInfo, isSameVideoFormat. rewrite !andb_true_iff.
  rewrite !bool_decide_eq_true, !Z.eqb_eq. tauto.
Qed.


Lemma needs_chroma_true f : needs_chroma f = true <-> f = 0 \/ f = 1 \/ f = 4.
Proof. unfold needs_chroma. rewrite !orb_true_iff, !Z.eqb_eq. tauto. Qed.

Lemma log_format_in_range x :
  log_format_out_of_range (int64ToIntS x) = false <-> 0 <= x <= 3.
Proof.
  unfold log_format_out_of_range, int64ToIntS, INT_MAX, INT_MIN.
  rewrite orb_false_iff, !Z.ltb_ge.
  destruct (2 ^ 31 - 1 <? x) eqn:E1; [apply Z.ltb_lt in E1; lia|].
  apply Z.ltb_ge in E1.
  destruct (x <? - 2 ^ 31) eqn:E2; [apply Z.ltb_lt in E2; lia|].
  lia.
Qed.

Lemma mapSetError_inv in_ userData nt d0 r d new msg x :
  vmafCreate_outcome in_ userData nt d0 r d new ->
  (mapSetError msg, x) ∈ new ->
  exists error before,
    create_try_outcome in_ userData nt d0 (inr (std_string error)) d before
    /\ msg = userData +:+ ": " +:+ error.
Proof.
  intros H Hin.
  assert (Htry : forall r d new,
             create_try_outcome in_ userData nt d0 r d new -> (mapSetError msg, x) ∉ new).
  { intros r1 d1 new1 H1 Hin1. apply create_try_calls in H1.
    rewrite Forall_forall in H1. by apply H1 in Hin1. }
  destruct H as [d1 new1 H1|error d1 new1 H1|what d1 new1 H1].
  - apply elem_of_app in Hin as [Hin|Hin]; [by apply (Htry _ _ _ H1) in Hin|].
    by apply list_elem_of_singleton in Hin.
  - apply elem_of_app in Hin as [Hin|Hin]; [by apply (Htry _ _ _ H1) in Hin|].
    apply abort_events_calls in Hin as [[= -> _]|(_ & _ & ? & _)]; [|done].
    exists error, new1. split; [done|].
    by rewrite (create_try_filterName _ _ _ _ _ _ _ H1).
  - by apply (Htry _ _ _ H1) in Hin.
Qed.


Lemma created_checked in_ userData nt d0 d new :
  create_try_outcome in_ userData nt d0 (inl tt) d new ->
  supported (getVideoInfo (in_reference in_))
  /\ log_format_out_of_range (mapGetIntSaturated (in_log_format in_)) = false
  /\ clips_match in_
  /\ Forall (fun m => 0 <= m <= 3) (mapGetIntArray (in_model in_))
  /\ NoDup (mapGetIntArray (in_model in_))
  /\ Forall (fun f => 0 <= f <= 4) (mapGetIntArray (in_feature in_))
  /\ NoDup (mapGetIntArray (in_feature in_)).
Proof.
  inversion 1 as [| | | | | | | | | | |? ? ? ? ? ? ? ? ? Hm Hf]; subst.
  apply models_checked in Hm as [? ?]. apply features_checked in Hf as [? ?]. done.
Qed.

(** C9.  If a model is outside 0..3, a feature outside 0..4, the model or
    the feature list has a duplicate (wherever it stands), or [log_format]
    is outside 0..3, no filter is created and no frame is submitted.  In a
    created filter the selector x of 0..3 is stored as x + 1, one of the
    four distinct output formats XML, JSON, CSV, SUB. *)
Theorem invalid_selection_rejected in_ userData tr0 r s new :
  vmafCreate W in_ userData {| data := make_unique_VMAFData; trace := tr0 |} = (r, s) ->
  trace s = tr0 ++ new ->
  ((exists m, m ∈ mapGetIntArray (in_model in_) /\ ~ 0 <= m <= 3)
   \/ (exists f, f ∈ mapGetIntArray (in_feature in_) /\ ~ 0 <= f <= 4)
   \/ ~ NoDup (mapGetIntArray (in_model in_))
   \/ ~ NoDup (mapGetIntArray (in_feature in_))
   \/ (exists x, in_log_format in_ = Some x /\ ~ 0 <= x <= 3) ->
   count_if is_createVideoFilter new = 0%nat
   /\ count_if is_read_pictures new = 0%nat
   /\ (count_if is_mapSetError new = 1%nat \/ exists what, r = inr (c_str what)))
  /\ (forall name v d x,
        (createVideoFilter name v d, 0) ∈ new ->
        in_log_format in_ = Some x ->
        0 <= x <= 3
        /\ logFormat d = x + 1
        /\ logFormat d ∈ [VMAF_OUTPUT_FORMAT_XML; VMAF_OUTPUT_FORMAT_JSON;
                          VMAF_OUTPUT_FORMAT_CSV; VMAF_OUTPUT_FORMAT_SUB])
  /\ NoDup [VMAF_OUTPUT_FORMAT_XML; VMAF_OUTPUT_FORMAT_JSON;
            VMAF_OUTPUT_FORMAT_CSV; VMAF_OUTPUT_FORMAT_SUB].
Proof.
  intros Hrun Htr.
  destruct (vmafCreate_run in_ userData {| data := make_unique_VMAFData; trace := tr0 |})
    as (r' & d' & new' & Heq & Hout).
  rewrite Heq in Hrun. injection Hrun as <- <-. cbn [trace data] in *.
  apply app_inv_head in Htr. subst new'.
  split; [|split].
  - intros Hbad.
    destruct (vmafCreate_not_created _ _ _ _ _ _ _ Hout) as [Hnone Herr].
    { intros d1 before Htry.
      pose proof (created_checked _ _ _ _ _ _ Htry)
        as (_ & Hlog & _ & Hm1 & Hm2 & Hf1 & Hf2).
      rewrite Forall_forall in Hm1, Hf1.
      destruct Hbad as [(m & Hin & Hm)|[(f & Hin & Hf)|[?|[?|(x & Hx & Hr)]]]];
        [by apply Hm, Hm1|by apply Hf, Hf1|done|done|].
      rewrite Hx in Hlog. cbn in Hlog. by apply log_format_in_range in Hlog. }
    split; [done|]. split; [by eapply vmafCreate_no_frames|done].
  - intros name v d x Hin Hx.
    destruct (created_inv _ _ _ _ _ _ _ _ _ _ _ Hout Hin)
      as (_ & _ & _ & _ & _ & before & Htry & _).
    pose proof (created_data _ _ _ _ _ _ Htry) as (_ & _ & _ & _ & _ & Hfmt & _).
    pose proof (created_checked _ _ _ _ _ _ Htry) as (_ & Hlog & _).
    rewrite Hx in Hlog, Hfmt. cbn in Hlog, Hfmt.
    apply log_format_in_range in Hlog.
    assert (Hsat : int64ToIntS x = x).
    { unfold int64ToIntS, INT_MAX, INT_MIN.
      destruct (2 ^ 31 - 1 <? x) eqn:E1; [apply Z.ltb_lt in E1; lia|].
      destruct (x <? - 2 ^ 31) eqn:E2; [apply Z.ltb_lt in E2; lia|done]. }
    rewrite Hsat in Hfmt.
    assert (Hint : to_int (x + 1) = x + 1).
    { unfold to_int. rewrite Z.mod_small; lia. }
    rewrite Hint in Hfmt. split; [done|]. split; [done|]. rewrite Hfmt.
    unfold VMAF_OUTPUT_FORMAT_XML, VMAF_OUTPUT_FORMAT_JSON, VMAF_OUTPUT_FORMAT_CSV,
      VMAF_OUTPUT_FORMAT_SUB.
    rewrite !elem_of_cons.
    assert (x = 0 \/ x = 1 \/ x = 2 \/ x = 3) as [-> | [-> | [-> | ->]]] by lia; auto.
  - unfold VMAF_OUTPUT_FORMAT_XML, VMAF_OUTPUT_FORMAT_JSON, VMAF_OUTPUT_FORMAT_CSV,
      VMAF_OUTPUT_FORMAT_SUB.
    repeat (constructor; [rewrite ?elem_of_cons, ?elem_of_nil; lia|]). constructor.
Qed.

(** C10.  Leaving [log_format] out is the same as passing 0, and leaving
    [model] or [feature] out the same as passing the empty list:
    [vmafCreate] runs identically, and the loops make no iteration.  With
    [log_format] left out, no run sets the log_format error, and a created
    filter writes the first of the four formats, XML. *)
Theorem omitted_arguments_default ref_clip dist_clip path lf models features userData :
  (forall s,
      vmafCreate W {| in_reference := ref_clip; in_distorted := dist_clip;
                      in_log_path := path; in_log_format := None;
                      in_model := models; in_feature := features |} userData s
      = vmafCreate W {| in_reference := ref_clip; in_distorted := dist_clip;
                        in_log_path := path; in_log_format := Some 0;
                        in_model := models; in_feature := features |} userData s)
  /\ (forall s,
        vmafCreate W {| in_reference := ref_clip; in_distorted := dist_clip;
                        in_log_path := path; in_log_format := lf;
                        in_model := None; in_feature := features |} userData s
        = vmafCreate W {| in_reference := ref_clip; in_distorted := dist_clip;
                          in_log_path := path; in_log_format := lf;
                          in_model := Some []; in_feature := features |} userData s)
  /\ (forall s,
        vmafCreate W {| in_reference := ref_clip; in_distorted := dist_clip;
                        in_log_path := path; in_log_format := lf;
                        in_model := models; in_feature := None |} userData s
        = vmafCreate W {| in_reference := ref_clip; in_distorted := dist_clip;
                          in_log_path := path; in_log_format := lf;
                          in_model := models; in_feature := Some [] |} userData s)
  /\ (forall s,
        model_loop W (mapGetIntArray None) (Z.to_nat (mapNumElements None)) 0 s
        = (inl tt, s)
        /\ feature_loop W (mapGetIntArray None) (Z.to_nat (mapNumElements None)) 0 s
           = (inl tt, s))
  /\ (forall tr0 r s new,
        vmafCreate W {| in_reference := ref_clip; in_distorted := dist_clip;
                        in_log_path := path; in_log_format := None;
                        in_model := models; in_feature := features |} userData
          {| data := make_unique_VMAFData; trace := tr0 |} = (r, s) ->
        trace s = tr0 ++ new ->
        (forall msg x,
            (mapSetError msg, x) ∈ new ->
            msg <> userData +:+ ": " +:+ "log_format must be 0, 1, 2, or 3")
        /\ (forall name v d,
              (createVideoFilter name v d, 0) ∈ new ->
              logFormat d = VMAF_OUTPUT_FORMAT_XML)).
Proof.
  split; [done|]. split; [done|]. split; [done|]. split; [done|].
  intros tr0 r s new Hrun Htr.
  set (in_ := {| in_reference := ref_clip; in_log_format := None |}) in *.
  destruct (vmafCreate_run in_ userData {| data := make_unique_VMAFData; trace := tr0 |})
    as (r' & d' & new' & Heq & Hout).
  rewrite Heq in Hrun. injection Hrun as <- <-. cbn [trace data] in *.
  apply app_inv_head in Htr. subst new'.
  split.
  - intros msg x Hin.
    destruct (mapSetError_inv _ _ _ _ _ _ _ _ _ Hout Hin) as (error & before & Htry & ->).
    destruct (create_try_error_cause _ _ _ _ _ _ _ Htry) as (_ & _ & H3).
    intros Heq2. do 2 apply append_inj_l in Heq2. by apply H3 in Heq2.
  - intros name v d Hin.
    destruct (created_inv _ _ _ _ _ _ _ _ _ _ _ Hout Hin)
      as (_ & _ & _ & _ & _ & before & Htry & _).
    by pose proof (created_data _ _ _ _ _ _ Htry) as (_ & _ & _ & _ & _ & -> & _).
Qed.

(** ** Literals that the handler does not catch *)

(** C7.  What the code does with a reference clip that is not of a constant
    YUV integer format, or whose bit depth is not 8, 10, 12 or 16: the
    [const char*] that is thrown is not caught by the [std::string]
    handler and leaves [vmafCreate]; no call has been made, so no error is
    set on the output map and no node is freed. *)
Theorem unsupported_format_escapes in_ userData tr0 :
  unsupported_format (getVideoInfo (in_reference in_)) = true
  \/ unsupported_depth (getVideoInfo (in_reference in_)) = true ->
  exists what,
    vmafCreate W in_ userData {| data := make_unique_VMAFData; trace := tr0 |}
    = (inr (c_str what),
       {| data := opened in_ userData make_unique_VMAFData; trace := tr0 |})
    /\ (what = "only constant YUV format integer input supported"%string
        \/ what = "only 8, 10, 12 and 16 bit depth supported"%string).
Proof.
  intros Hbad.
  destruct (vmafCreate_run in_ userData {| data := make_unique_VMAFData; trace := tr0 |})
    as (r & d & new & Heq & Hout).
  cbn [data trace] in *. rewrite Heq.
  assert (Htry : forall r d new,
             create_try_outcome in_ userData (numThreads W) make_unique_VMAFData r d new ->
             new = [] /\ d = opened in_ userData make_unique_VMAFData
             /\ (r = inr (c_str "only constant YUV format integer input supported")
                 \/ r = inr (c_str "only 8, 10, 12 and 16 bit depth supported"))).
  { intros r1 d1 new1 H1.
    destruct H1;
      repeat match goal with H : supported _ |- _ => destruct H as (? & ? & ?) end;
      try (destruct Hbad; congruence); auto. }
  destruct Hout as [d1 new1 H1|error d1 new1 H1|what d1 new1 H1];
    destruct (Htry _ _ _ H1) as (-> & -> & [Hr|Hr]); try done;
    injection Hr as ->; rewrite app_nil_r; eauto.
Qed.

(** ** Planes copied for a frame *)

(** C6, as the code has it.  For a frame of a created filter (three planes) whose two
    pictures were allocated: plane 0 is copied into both pictures; planes 1
    and 2 are copied exactly when the chroma flag is set; and the flag is
    set exactly when the feature list has 0 (psnr), 1 (psnr_hvs) or
    4 (ciede). *)
Theorem planes_copied in_ userData tr0 r0 s0 new0 name v d n frameCtx tr1 r s new :
  vmafCreate W in_ userData {| data := make_unique_VMAFData; trace := tr0 |}
    = (r0, s0) ->
  trace s0 = tr0 ++ new0 ->
  (createVideoFilter name v d, 0) ∈ new0 ->
  numPlanes (format (vi d)) = 3 ->
  vmafGetFrame W n arAllFramesReady frameCtx {| data := d; trace := tr1 |} = (r, s) ->
  trace s = tr1 ++ new ->
  (alloc_call d ref, 0) ∈ new ->
  (alloc_call d dist, 0) ∈ new ->
  (chroma d = true
   <-> exists f, f ∈ mapGetIntArray (in_feature in_) /\ (f = 0 \/ f = 1 \/ f = 4))
  /\ (exists w h, (bitblt ref 0 (frame_of (reference d) n) w h, 0) ∈ new)
  /\ (exists w h, (bitblt dist 0 (frame_of (distorted d) n) w h, 0) ∈ new)
  /\ forall p, p = 1 \/ p = 2 ->
       ((exists w h, (bitblt ref p (frame_of (reference d) n) w h, 0) ∈ new)
          <-> chroma d = true)
       /\ ((exists w h, (bitblt dist p (frame_of (distorted d) n) w h, 0) ∈ new)
          <-> chroma d = true).
Proof.
  intros Hrun0 Htr0 Hin Hplanes Hrun Htr Href Hdist.
  split.
  { destruct (vmafCreate_run in_ userData
                {| data := make_unique_VMAFData; trace := tr0 |})
      as (r' & d' & new' & Heq & Hout).
    rewrite Heq in Hrun0. injection Hrun0 as <- <-. cbn [trace data] in *.
    apply app_inv_head in Htr0. subst new'.
    destruct (created_inv _ _ _ _ _ _ _ _ _ _ _ Hout Hin)
      as (_ & _ & _ & _ & _ & before & Htry & _).
    pose proof (created_data _ _ _ _ _ _ Htry)
      as (_ & _ & _ & _ & _ & _ & _ & Hchroma & _).
    rewrite Hchroma. cbn. split.
    - intros [?|(f & ? & ?%needs_chroma_true)]; [done|eauto].
    - intros (f & ? & ?%needs_chroma_true). eauto. }
  destruct (vmafGetFrame_ready d n frameCtx tr1) as (copies & r' & new' & Hc & Hout & Heq).
  rewrite Heq in Hrun. clear Heq.
  assert (Hcopied : forall pic p w h,
             (bitblt pic p (match pic with
                            | ref => frame_of (reference d) n
                            | dist => frame_of (distorted d) n
                            end) w h, 0) ∈ new ->
             new' = [(alloc_call d ref, 0); (alloc_call d dist, 0)] ++ copies
                      ++ [(submit_call d n, 0)]
             \/ (exists r3, new' = [(alloc_call d ref, 0); (alloc_call d dist, 0)]
                                     ++ copies ++ [(submit_call d n, r3)]) ->
             (bitblt pic p (match pic with
                            | ref => frame_of (reference d) n
                            | dist => frame_of (distorted d) n
                            end) w h, 0) ∈ copies).
  { intros pic p w h Hb Hnew. destruct r' as [[]|e]; injection Hrun as <- <-;
      cbn [trace] in Htr; apply app_inv_head in Htr; subst new;
      (destruct Hnew as [->|(r3 & ->)]);
      repeat (apply elem_of_app in Hb as [Hb|Hb] || apply elem_of_cons in Hb as [Hb|Hb]);
      try done; try (by apply elem_of_nil in Hb). }
  destruct Hc as [Hall Hcopies].
  assert (Hnew : new' = [(alloc_call d ref, 0); (alloc_call d dist, 0)] ++ copies
                          ++ [(submit_call d n, 0)]
                 \/ (exists r3, new' = [(alloc_call d ref, 0); (alloc_call d dist, 0)]
                                         ++ copies ++ [(submit_call d n, r3)])).
  { destruct Hout as [r1 Hr|r2 Hr|r3 Hr|]; [| |eauto|eauto];
      exfalso; injection Hrun as <- <-; cbn [trace] in Htr;
      apply app_inv_head in Htr; subst new.
    - repeat (apply elem_of_app in Href as [Href|Href]
              || apply elem_of_cons in Href as [Href|Href]);
        try done; try (by apply elem_of_nil in Href). by simplify_eq.
    - repeat (apply elem_of_app in Hdist as [Hdist|Hdist]
              || apply elem_of_cons in Hdist as [Hdist|Hdist]);
        try done; try (by apply elem_of_nil in Hdist). by simplify_eq. }
  assert (Hsub : forall e, e ∈ copies -> e ∈ new).
  { intros e He. destruct r' as [[]|e']; injection Hrun as <- <-;
      cbn [trace] in Htr; apply app_inv_head in Htr; subst new;
      (destruct Hnew as [->|(r3 & ->)]); in_list. }
  split; [|split].
  - destruct (Hcopies 0) as [[_ H] _]. destruct H as (w & h & H); [split; [lia|by left]|].
    exists w, h. by apply Hsub.
  - destruct (Hcopies 0) as [_ [_ H]]. destruct H as (w & h & H); [split; [lia|by left]|].
    exists w, h. by apply Hsub.
  - intros p Hp. destruct (Hcopies p) as [Hr Hd]. split; split.
    + intros (w & h & H). apply (Hcopied ref) in H; [|done].
      destruct Hr as [Hr _]. destruct Hr as [_ [?|?]]; [by eauto|lia|done].
    + intros Hch. destruct Hr as [_ Hr]. destruct Hr as (w & h & H); [split; [lia|by right]|].
      exists w, h. by apply Hsub.
    + intros (w & h & H). apply (Hcopied dist) in H; [|done].
      destruct Hd as [Hd _]. destruct Hd as [_ [?|?]]; [by eauto|lia|done].
    + intros Hch. destruct Hd as [_ Hd]. destruct Hd as (w & h & H); [split; [lia|by right]|].
      exists w, h. by apply Hsub.
Qed.

End Proofs.

(** * Further properties of the callbacks *)

Section Properties.

Variable W : World.

Ltac in_events :=
  solve [ apply list_elem_of_here
        | assumption
        | apply list_elem_of_further; in_events
        | apply elem_of_app; left; in_events
        | apply elem_of_app; right; in_events ].

Ltac counts := repeat first [rewrite count_if_app | progress cbn].

(** ** Frames *)

Lemma fetched_app tr1 tr2 : fetched (tr1 ++ tr2) = fetched tr1 ++ fetched tr2.
Proof.
  induction tr1 as [|[c x] tr1 IH]; [done|]. cbn [app fetched].
  destruct c; cbn; by rewrite ?IH.
Qed.

Lemma fetched_none tr :
  Forall (fun e : Event => is_getFrameFilter e.1 = false) tr -> fetched tr = [].
Proof.
  induction 1 as [|[c x] tr He _ IH]; [done|]. cbn in *. by destruct c.
Qed.

Lemma plane_loop_run d rf df left plane s :
  0 <= plane ->
  copy_planes W d rf df left plane s
  = (inl tt,
     {| data := data s;
        trace := trace s
                 ++ flat_map (fun k => plane_copies W d rf df (plane + Z.of_nat k))
                      (seq 0 (if chroma d then left
                              else if plane =? 0 then Nat.min 1 left else 0%nat)) |}).
Proof.
  revert plane s. induction left as [|left IH]; intros plane s Hp.
  - cbn [copy_planes]. destruct (chroma d), (plane =? 0); cbn; rewrite app_nil_r;
      by destruct s.
  - cbn [copy_planes].
    destruct (negb (plane =? 0) && negb (chroma d)) eqn:Hb.
    + apply andb_true_iff in Hb as [H1 H2]. apply negb_true_iff in H1, H2.
      rewrite H1, H2. cbn. rewrite app_nil_r. by destruct s.
    + do 2 (rewrite run_bind; cbn [call_void data trace]).
      rewrite IH by lia. cbn [data trace]. f_equal. f_equal.
      rewrite <- !app_assoc. f_equal.
      assert (Hc : plane = 0 \/ chroma d = true).
      { apply andb_false_iff in Hb as [H|H]; apply negb_false_iff in H;
          [left; by apply Z.eqb_eq | by right]. }
      assert (Hshift : forall m,
                 flat_map (fun k => plane_copies W d rf df (plane + 1 + Z.of_nat k)) (seq 0 m)
                 = flat_map (fun k => plane_copies W d rf df (plane + Z.of_nat k)) (seq 1 m)).
      { intros m. rewrite <- (fmap_S_seq 0 m). rewrite flat_map_concat_map.
        rewrite (flat_map_concat_map _ (S <$> seq 0 m)). f_equal.
        change (S <$> seq 0 m) with (map S (seq 0 m)). rewrite map_map.
        apply map_ext. intros k. f_equal. lia. }
      destruct (chroma d) eqn:Hch.
      * rewrite Hshift. cbn [seq flat_map]. rewrite Z.add_0_r. done.
      * destruct Hc as [->|?]; [|done]. cbn [Z.eqb Z.add]. 
        replace (0 + 1 =? 0) with false by done.
        cbn. done.
Qed.


Lemma frame_try_run d n rf df s :
  exists r new,
    getFrame_try W d n rf df s = (r, {| data := data s; trace := trace s ++ new |})
    /\ getFrame_try_outcome d n (expected_copies W d rf df) r new.
Proof.
  unfold getFrame_try. fold (alloc_call d ref) (alloc_call d dist) (submit_call d n).
  set (r1 := answer W (trace s) (alloc_call d ref)).
  set (s1 := {| data := data s; trace := trace s ++ [(alloc_call d ref, r1)] |}).
  set (r2 := answer W (trace s1) (alloc_call d dist)).
  set (s2 := {| data := data s1; trace := trace s1 ++ [(alloc_call d dist, r2)] |}).
  pose proof (plane_loop_run d rf df (Z.to_nat (numPlanes (format (vi d)))) 0 s2 (Z.le_refl 0))
    as Hrun.
  change (0 =? 0) with true in Hrun. cbn beta iota in Hrun.
  fold (planes_read d) in Hrun.
  change (flat_map _ (seq 0 (planes_read d))) with (expected_copies W d rf df) in Hrun.
  rewrite run_bind. cbn [call data trace]. fold r1 s1.
  rewrite run_bind.
  destruct (r1 =? 0) eqn:E1; cbn [negb].
  - apply Z.eqb_eq in E1. cbn [call data trace]. fold r2 s2.
    rewrite run_bind, run_throw_if.
    destruct (r2 =? 0) eqn:E2; cbn [negb].
    + apply Z.eqb_eq in E2. fold s2. rewrite run_bind, Hrun. rewrite run_bind.
      cbn [call data trace].
      rewrite run_throw_if.
      set (r3 := answer W _ _).
      destruct (r3 =? 0) eqn:E3; cbn [negb].
      * apply Z.eqb_eq in E3. eexists _, _. split; [|apply try_succeeds].
        subst s1 s2. cbn [data trace]. rewrite E1, E2, E3.
        f_equal. f_equal. by rewrite <- !app_assoc.
      * apply Z.eqb_neq in E3. eexists _, _.
        split; [|by apply (try_submit_fails _ _ _ r3)].
        subst s1 s2. cbn [data trace]. rewrite E1, E2.
        f_equal. f_equal. by rewrite <- !app_assoc.
    + apply Z.eqb_neq in E2. eexists _, _.
      split; [|by apply (try_dist_alloc_fails _ _ _ r2)].
      subst s1 s2. cbn [data trace]. rewrite E1. f_equal. f_equal. by rewrite <- !app_assoc.
  - cbn [mret M_ret ret_M]. rewrite run_bind, run_throw_if.
    rewrite E1. cbn [negb]. apply Z.eqb_neq in E1. eexists _, _.
    split; [|by apply (try_ref_alloc_fails _ _ _ r1)].
    done.
Qed.

(** A ready activation: the frames are taken, the [try] block runs, and
    what follows is decided by how it ended. *)
Lemma ready_run d n frameCtx tr0 :
  exists r new,
    getFrame_try_outcome d n
      (expected_copies W d (frame_of (reference d) n) (frame_of (distorted d) n)) r new
    /\ vmafGetFrame W n arAllFramesReady frameCtx {| data := d; trace := tr0 |}
       = match r with
         | inl _ =>
             (inl (Some (frame_of (reference d) n)),
              {| data := d;
                 trace := tr0 ++ acquire d n ++ new
                            ++ [(freeFrame (frame_of (distorted d) n), 0)] |})
         | inr e =>
             (inl None,
              {| data := d;
                 trace := tr0 ++ acquire d n ++ new
                            ++ unwind d n frameCtx
                                 (match e with
                                  | c_str what | std_string what => what
                                  | undefined_behaviour => ""
                                  end) |})
         end.
Proof.
  unfold vmafGetFrame. rewrite run_bind. cbn [get_data data trace].
  do 2 (rewrite run_bind; cbn [call_void data trace]).
  rewrite run_bind. unfold try_catch_c_str.
  destruct (frame_try_run d n (frame_of (reference d) n) (frame_of (distorted d) n)
              {| data := d; trace := (tr0 ++ [(getFrameFilter n (reference d), 0)])
                                       ++ [(getFrameFilter n (distorted d), 0)] |})
    as (r & new & Hrun & Hout).
  exists r, new. split; [done|].
  unfold frame_of in *. rewrite Hrun. cbn [data trace].
  inversion Hout; subst.
  - do 5 (rewrite run_bind; cbn [call_void data trace]).
    cbn [mret M_ret ret_M]. f_equal. f_equal. unfold acquire, unwind, frame_of.
    rewrite <- !app_assoc. done.
  - do 5 (rewrite run_bind; cbn [call_void data trace]).
    cbn [mret M_ret ret_M]. f_equal. f_equal. unfold acquire, unwind, frame_of.
    rewrite <- !app_assoc. done.
  - do 5 (rewrite run_bind; cbn [call_void data trace]).
    cbn [mret M_ret ret_M]. f_equal. f_equal. unfold acquire, unwind, frame_of.
    rewrite <- !app_assoc. done.
  - rewrite run_bind; cbn [call_void data trace].
    cbn [mret M_ret ret_M]. f_equal. f_equal. unfold acquire, frame_of.
    rewrite <- !app_assoc. done.
Qed.

Lemma expected_copies_bitblt d rf df :
  Forall (fun e : Event => is_bitblt e.1 = true /\ e.2 = 0) (expected_copies W d rf df).
Proof.
  unfold expected_copies. induction (seq 0 (planes_read d)) as [|p l IH]; [constructor|].
  cbn [flat_map]. apply Forall_app. split; [|done]. by repeat constructor.
Qed.

Lemma expected_copies_count p d rf df :
  (forall c, is_bitblt c = true -> p c = false) ->
  count_if p (expected_copies W d rf df) = 0%nat.
Proof.
  intros Hp. apply count_if_none. eapply Forall_impl; [apply expected_copies_bitblt|].
  intros e [? _]. by apply Hp.
Qed.

Lemma expected_copies_in c x d rf df :
  (c, x) ∈ expected_copies W d rf df -> is_bitblt c = true /\ x = 0.
Proof.
  intros H. pose proof (expected_copies_bitblt d rf df) as HF.
  rewrite Forall_forall in HF. by apply HF in H.
Qed.

(** X1.  The two activations of a frame.  The initial one asks the host for
    frame [n] of the reference and of the distorted clip, in this order, and
    for nothing else; it returns no frame.  The frames that the ready
    activation takes from the host are the frames that were asked for.  Any
    other activation makes no call and returns no frame. *)
Theorem fetched_frames_were_requested d n frameCtx tr0 tr1 :
  let initial := vmafGetFrame W n arInitial frameCtx {| data := d; trace := tr0 |} in
  let ready := vmafGetFrame W n arAllFramesReady frameCtx {| data := d; trace := tr1 |} in
  initial
  = (inl None,
     {| data := d;
        trace := tr0 ++ [(requestFrameFilter n (reference d), 0);
                         (requestFrameFilter n (distorted d), 0)] |})
  /\ (exists asked taken,
        trace initial.2 = tr0 ++ asked
        /\ trace ready.2 = tr1 ++ taken
        /\ requested asked = [frame_of (reference d) n; frame_of (distorted d) n]
        /\ fetched taken = requested asked
        /\ fetched asked = [])
  /\ forall s, vmafGetFrame W n arError frameCtx s = (inl None, s).
Proof.
  intros initial ready.
  assert (Hi : initial
               = (inl None,
                  {| data := d;
                     trace := tr0 ++ [(requestFrameFilter n (reference d), 0);
                                      (requestFrameFilter n (distorted d), 0)] |})).
  { subst initial. unfold vmafGetFrame. rewrite run_bind. cbn [get_data data trace].
    do 2 (rewrite run_bind; cbn [call_void data trace]).
    cbn [mret M_ret ret_M]. by rewrite <- app_assoc. }
  split; [done|]. split.
  - destruct (ready_run d n frameCtx tr1) as (r & new & Hout & Heq).
    exists [(requestFrameFilter n (reference d), 0); (requestFrameFilter n (distorted d), 0)].
    assert (Hnone : fetched new = []).
    { apply fetched_none.
      pose proof (expected_copies_bitblt d (frame_of (reference d) n)
                    (frame_of (distorted d) n)) as Hc.
      assert (Hc' : Forall (fun e : Event => is_getFrameFilter e.1 = false)
                      (expected_copies W d (frame_of (reference d) n)
                         (frame_of (distorted d) n))).
      { eapply Forall_impl; [exact Hc|]. intros [c x] [H _]. by destruct c. }
      destruct Hout;
        repeat first [ exact Hc' | apply Forall_nil | apply Forall_cons; split
                     | apply Forall_app; split ]; done. }
    subst ready. rewrite Heq, Hi.
    destruct r as [[]|e].
    + eexists. cbn [snd trace]. split; [done|]. split; [done|]. split; [done|].
      rewrite !fetched_app, Hnone. done.
    + eexists. cbn [snd trace]. split; [done|]. split; [done|]. split; [done|].
      rewrite !fetched_app, Hnone. done.
  - intros s. unfold vmafGetFrame. rewrite run_bind. cbn [get_data]. by destruct s.
Qed.

(** X2.  Every ready activation returns normally and accounts for the two
    frames it took: each is released or handed back.  The reference frame is
    handed back exactly when every call of the activation succeeded;
    otherwise one error is set and both engine pictures are released, which
    the filter never does for a frame it hands back. *)
Theorem fetched_frames_are_accounted_for d n frameCtx tr0 r s new :
  vmafGetFrame W n arAllFramesReady frameCtx {| data := d; trace := tr0 |} = (r, s) ->
  trace s = tr0 ++ new ->
  exists o : option VSFrame,
    r = inl o
    /\ fetched new = [frame_of (reference d) n; frame_of (distorted d) n]
    /\ (length (fetched new) = count_if is_freeFrame new + handed_back o)%nat
    /\ (o = Some (frame_of (reference d) n)
        <-> Forall (fun e : Event => e.2 = 0) new)
    /\ (o = None <-> Exists (fun e : Event => e.2 <> 0) new)
    /\ count_if is_setFilterError new = (1 - handed_back o)%nat
    /\ count_if is_picture_unref new = (2 - 2 * handed_back o)%nat.
Proof.
  intros Hrun Htr.
  destruct (ready_run d n frameCtx tr0) as (r' & new' & Hout & Heq).
  rewrite Heq in Hrun. clear Heq.
  set (rf := frame_of (reference d) n) in *. set (df := frame_of (distorted d) n) in *.
  pose proof (expected_copies_bitblt d rf df) as Hc.
  assert (Hc0 : Forall (fun e : Event => e.2 = 0) (expected_copies W d rf df))
    by (eapply Forall_impl; [exact Hc|]; by intros e [_ ?]).
  assert (Hcf : fetched (expected_copies W d rf df) = []).
  { apply fetched_none. eapply Forall_impl; [exact Hc|]. intros [c x] [H _]. by destruct c. }
  assert (Hcount : forall p, (forall c, is_bitblt c = true -> p c = false) ->
                             count_if p (expected_copies W d rf df) = 0%nat)
    by (intros p; apply expected_copies_count).
  assert (Hfail : forall (before after : list Event) c code,
             code <> 0 ->
             ~ Forall (fun e : Event => e.2 = 0) (before ++ (c, code) :: after)).
  { intros before after c code Hcode HF. apply Forall_app in HF as [_ HF].
    apply Forall_cons in HF as [HF _]. done. }
  destruct Hout as [r1 Hr|r2 Hr|r3 Hr|]; injection Hrun as <- <-; cbn [trace] in Htr;
    apply app_inv_head in Htr; subst new.
  - exists None. split; [done|]. split; [done|]. split; [done|].
    split; [|split; [|done]].
    + split; [done|]. intros HF. exfalso.
      by apply (Hfail (acquire d n) (unwind d n frameCtx "failed to allocate picture")
                  (alloc_call d ref) r1).
    + split; [|done]. intros _. apply Exists_exists. exists (alloc_call d ref, r1).
      split; [in_events|done].
  - exists None. split; [done|]. split; [done|]. split; [done|].
    split; [|split; [|done]].
    + split; [done|]. intros HF. exfalso.
      by apply (Hfail (acquire d n ++ [(alloc_call d ref, 0)])
                  (unwind d n frameCtx "failed to allocate picture")
                  (alloc_call d dist) r2); [|rewrite <- app_assoc].
    + split; [|done]. intros _. apply Exists_exists. exists (alloc_call d dist, r2).
      split; [in_events|done].
  - exists None. split; [done|].
    split; [by repeat first [rewrite fetched_app | rewrite Hcf | progress cbn]|].
    split; [repeat first [rewrite fetched_app | rewrite Hcf | progress cbn]; counts;
            rewrite Hcount by (by intros []); done|].
    split; [|split].
    + split; [done|]. intros HF. exfalso.
      apply (Hfail (acquire d n ++ [(alloc_call d ref, 0); (alloc_call d dist, 0)]
                      ++ expected_copies W d rf df)
               (unwind d n frameCtx "failed to read pictures") (submit_call d n) r3 Hr).
      by rewrite <- !app_assoc in *.
    + split; [|done]. intros _. apply Exists_exists. exists (submit_call d n, r3).
      split; [in_events|done].
    + counts. rewrite !Hcount by (by intros []). done.
  - exists (Some rf). split; [done|].
    split; [by repeat first [rewrite fetched_app | rewrite Hcf | progress cbn]|].
    split; [repeat first [rewrite fetched_app | rewrite Hcf | progress cbn]; counts;
            rewrite Hcount by (by intros []); done|].
    split; [|split].
    + split; [|done]. intros _.
      repeat first [ exact Hc0 | apply Forall_nil | apply Forall_cons; split
                   | apply Forall_app; split ]; done.
    + split; [done|]. intros HE. exfalso.
      apply Exists_exists in HE as ((c & x) & Hin & Hx). cbn in Hx.
      rewrite Forall_forall in Hc0.
      repeat (apply elem_of_app in Hin as [Hin|Hin] || apply elem_of_cons in Hin as [Hin|Hin]);
        try (injection Hin as _ ->; done).
      * by apply Hc0 in Hin.
      * by apply elem_of_nil in Hin.
      * by apply elem_of_nil in Hin.
    + counts. rewrite !Hcount by (by intros []). done.
Qed.


Lemma expected_copies_length d rf df :
  count_if is_bitblt (expected_copies W d rf df) = (2 * planes_read d)%nat.
Proof.
  unfold expected_copies.
  assert (H : forall k from,
             count_if is_bitblt
               (flat_map (fun p => plane_copies W d rf df (Z.of_nat p)) (seq from k))
             = (2 * k)%nat); [|apply H].
  induction k as [|k IH]; intros from; [done|].
  cbn [seq flat_map]. rewrite count_if_app, IH. cbn. lia.
Qed.

Ltac split_in H :=
  repeat first [ apply elem_of_app in H as [H|H]
               | apply elem_of_cons in H as [H|H]
               | apply elem_of_nil in H; destruct H ].

(** X3.  When a picture cannot be allocated, nothing is read from the
    frames and nothing is submitted.  If it is the reference picture, the
    allocation of the distorted one is not attempted.  The unwinding is the
    same in both cases: it releases both pictures, allocated or not. *)
Theorem failed_allocation_skips_the_frame d n frameCtx tr0 r s new pic code :
  vmafGetFrame W n arAllFramesReady frameCtx {| data := d; trace := tr0 |} = (r, s) ->
  trace s = tr0 ++ new ->
  (alloc_call d pic, code) ∈ new ->
  code <> 0 ->
  r = inl None
  /\ new = acquire d n
           ++ match pic with ref => [] | dist => [(alloc_call d ref, 0)] end
           ++ [(alloc_call d pic, code)]
           ++ unwind d n frameCtx "failed to allocate picture"
  /\ count_if is_bitblt new = 0%nat
  /\ count_if is_read_pictures new = 0%nat
  /\ count_if is_picture_unref new = 2%nat
  /\ (pic = ref -> count_if (is_picture_alloc dist) new = 0%nat).
Proof.
  intros Hrun Htr Hin Hcode.
  destruct (ready_run d n frameCtx tr0) as (r' & new' & Hout & Heq).
  rewrite Heq in Hrun. clear Heq.
  set (rf := frame_of (reference d) n) in *. set (df := frame_of (distorted d) n) in *.
  assert (Hcopy : (alloc_call d pic, code) ∈ expected_copies W d rf df -> False).
  { intros H. by apply expected_copies_in in H as [? ?]. }
  destruct Hout as [r1 Hr|r2 Hr|r3 Hr|]; injection Hrun as <- <-; cbn [trace] in Htr;
    apply app_inv_head in Htr; subst new; unfold acquire, unwind in Hin;
    split_in Hin; try done; try (by destruct pic); unfold alloc_call in Hin;
    try (injection Hin as -> ->; done); try (injection Hin as ->; done).
Qed.

Lemma row_size_exact d f plane :
  0 <= getFrameWidth W f plane * bytesPerSample (format (vi d)) <= INT_MAX ->
  row_size W d f plane = getFrameWidth W f plane * bytesPerSample (format (vi d)).
Proof.
  unfold row_size, to_size_t, to_int, INT_MAX. intros H.
  rewrite (Z.mod_small (_ + 2 ^ 31)) by lia. rewrite Z.mod_small by lia. lia.
Qed.

(** X4.  When both pictures were allocated, the planes are copied in
    increasing order, each from the reference frame into the reference
    picture and then from the distorted frame into the distorted picture;
    all planes of the format with the chroma flag, the first one without.
    A copy takes the rows of the plane of the source frame, their number
    converted to [size_t]; the size of a row is the width of that plane
    times the bytes per sample, multiplied in [int] and converted to
    [size_t], which is the product itself when it is not negative and fits
    an [int].  The submission follows the last copy, and nothing is copied
    after it. *)
Theorem planes_are_copied_in_order d n frameCtx tr0 r s new :
  vmafGetFrame W n arAllFramesReady frameCtx {| data := d; trace := tr0 |} = (r, s) ->
  trace s = tr0 ++ new ->
  (alloc_call d ref, 0) ∈ new ->
  (alloc_call d dist, 0) ∈ new ->
  (exists code rest,
     new = acquire d n
           ++ [(alloc_call d ref, 0); (alloc_call d dist, 0)]
           ++ expected_copies W d (frame_of (reference d) n) (frame_of (distorted d) n)
           ++ (submit_call d n, code) :: rest
     /\ count_if is_bitblt rest = 0%nat
     /\ count_if is_bitblt new = (2 * planes_read d)%nat)
  /\ (forall f plane,
        row_size W d f plane
        = to_int (getFrameWidth W f plane * bytesPerSample (format (vi d))) `mod` 2 ^ 64)
  /\ (forall f plane,
        0 <= getFrameWidth W f plane * bytesPerSample (format (vi d)) <= INT_MAX ->
        row_size W d f plane = getFrameWidth W f plane * bytesPerSample (format (vi d))).
Proof.
  intros Hrun Htr Href Hdist.
  split; [|split; [done|apply row_size_exact]].
  destruct (ready_run d n frameCtx tr0) as (r' & new' & Hout & Heq).
  rewrite Heq in Hrun. clear Heq.
  set (rf := frame_of (reference d) n) in *. set (df := frame_of (distorted d) n) in *.
  destruct Hout as [r1 Hr|r2 Hr|r3 Hr|]; injection Hrun as <- <-; cbn [trace] in Htr;
    apply app_inv_head in Htr; subst new.
  - exfalso. unfold acquire, unwind in Href. split_in Href; try done.
    injection Href as <-. done.
  - exfalso. unfold acquire, unwind in Hdist. split_in Hdist; try done.
    injection Hdist as <-. done.
  - exists r3, (unwind d n frameCtx "failed to read pictures").
    split; [by rewrite <- !app_assoc|]. split; [done|].
    counts. rewrite expected_copies_length. lia.
  - exists 0, [(freeFrame df, 0)].
    split; [by rewrite <- !app_assoc|]. split; [done|].
    counts. rewrite expected_copies_length. lia.
Qed.

(** ** Set-up *)

Lemma create_try_nodes in_ userData nt d0 r d new :
  create_try_outcome in_ userData nt d0 r d new ->
  filterName d = userData
  /\ reference d = in_reference in_
  /\ distorted d = in_distorted in_
  /\ vi d = getVideoInfo (in_reference in_).
Proof.
  assert (Hsized : forall ctx cu (P : VMAFData -> Prop),
             (forall x, P (set_model x (initialised in_ userData d0 ctx cu))) ->
             P (initialised in_ userData d0 ctx cu) ->
             P (sized in_ (initialised in_ userData d0 ctx cu))).
  { intros ctx cu P HP1 HP2. unfold sized. by destruct (0 <? _). }
  assert (Hbase : forall ctx cu,
             filterName (sized in_ (initialised in_ userData d0 ctx cu)) = userData
             /\ reference (sized in_ (initialised in_ userData d0 ctx cu)) = in_reference in_
             /\ distorted (sized in_ (initialised in_ userData d0 ctx cu)) = in_distorted in_
             /\ vi (sized in_ (initialised in_ userData d0 ctx cu))
                = getVideoInfo (in_reference in_)).
  { intros ctx cu. by apply Hsized. }
  destruct 1; try done.
  - match goal with H : models_outcome _ _ _ _ _ |- _ =>
      apply model_loop_same_setup in H as (Hs & _) end.
    apply same_setup_fields in Hs as (-> & -> & -> & -> & _). apply Hbase.
  - repeat match goal with
           | H : models_outcome _ _ _ _ _ |- _ =>
               apply model_loop_same_setup in H as (?Hs & _)
           | H : features_outcome _ _ _ _ _ |- _ =>
               apply feature_loop_same_setup in H as (?Hs & _)
           end.
    pose proof (same_setup_trans _ _ _ Hs Hs0) as Hs1.
    apply same_setup_fields in Hs1 as (-> & -> & -> & -> & _). apply Hbase.
  - repeat match goal with
           | H : models_outcome _ _ _ _ _ |- _ =>
               apply model_loop_same_setup in H as (?Hs & _)
           | H : features_outcome _ _ _ _ _ |- _ =>
               apply feature_loop_same_setup in H as (?Hs & _)
           end.
    pose proof (same_setup_trans _ _ _ Hs Hs0) as Hs1.
    apply same_setup_fields in Hs1 as (Ha & Hb & Hc & Hd & _). cbn.
    rewrite Ha, Hb, Hc, Hd. apply Hbase.
Qed.

Lemma abort_events_count p d error :
  count_if p (abort_events d error)
  = ((if p (mapSetError (filterName d +:+ ": " +:+ error)) then 1 else 0)
     + (if p (freeNode (reference d)) then 1 else 0)
     + (if p (freeNode (distorted d)) then 1 else 0)
     + count_if p (map (fun m => (vmaf_model_destroy m, 0%Z)) (model d))
     + count_if p (map (fun m => (vmaf_model_collection_destroy m, 0%Z))
                     (modelCollection d))
     + (if p (vmaf_close (vmaf d)) then 1 else 0))%nat.
Proof. unfold abort_events. rewrite !count_if_app. cbn. lia. Qed.

Lemma count_if_map_all p (mk : ptr -> Call) l :
  (forall m, p (mk m) = true) ->
  count_if p (map (fun m => (mk m, 0)) l) = length l.
Proof. intros Hp. induction l as [|m l IH]; cbn; [done|]. by rewrite Hp, IH. Qed.

(** X5.  When [vmafCreate] registers the filter, it does so once, as its
    last call, under the name it was given, with the video info of the
    reference clip and with the instance data it has built.  It has
    released nothing, neither a node nor a model nor the context, and has
    set no error: what it acquired now belongs to the filter. *)
Theorem created_filter_keeps_what_was_acquired in_ userData tr0 r s new name v d x :
  vmafCreate W in_ userData {| data := make_unique_VMAFData; trace := tr0 |} = (r, s) ->
  trace s = tr0 ++ new ->
  (createVideoFilter name v d, x) ∈ new ->
  r = inl tt /\ x = 0 /\ data s = d
  /\ name = userData
  /\ v = getVideoInfo (in_reference in_)
  /\ reference d = in_reference in_
  /\ distorted d = in_distorted in_
  /\ last new = Some (createVideoFilter name v d, 0)
  /\ count_if is_createVideoFilter new = 1%nat
  /\ count_if is_release new = 0%nat
  /\ count_if is_mapSetError new = 0%nat.
Proof.
  intros Hrun Htr Hin.
  destruct (vmafCreate_run W in_ userData {| data := make_unique_VMAFData; trace := tr0 |})
    as (r' & d' & new' & Heq & Hout).
  rewrite Heq in Hrun. injection Hrun as <- <-. cbn [data trace] in *.
  apply app_inv_head in Htr. subst new'.
  destruct (created_inv _ _ _ _ _ _ _ _ _ _ _ Hout Hin)
    as (-> & -> & -> & -> & -> & before & Htry & ->).
  destruct (create_try_nodes _ _ _ _ _ _ _ Htry) as (Hn & Hr & Hd & Hv).
  pose proof (create_try_calls _ _ _ _ _ _ _ Htry) as Hcalls.
  do 7 (split; [done|]).
  split; [by rewrite last_snoc|].
  rewrite !count_if_app. cbn.
  rewrite !(count_if_setup _ _ Hcalls); [done| |
                                         |]; by intros [].
Qed.

(** X6.  When [vmafCreate] sets an error, it is the only one, prefixed with
    the name the function was given; no filter is registered and
    [vmafCreate] returns normally.  What follows the message is the whole
    clean-up and nothing else: the two nodes taken from the arguments are
    freed, every entry of the model vector and every collection is
    destroyed, and the context is closed, once each.  Nothing had been
    released before the message. *)
Theorem reported_error_releases_everything in_ userData tr0 r s new msg x :
  vmafCreate W in_ userData {| data := make_unique_VMAFData; trace := tr0 |} = (r, s) ->
  trace s = tr0 ++ new ->
  (mapSetError msg, x) ∈ new ->
  r = inl tt /\ x = 0
  /\ (exists error, msg = userData +:+ ": " +:+ error)
  /\ (exists before,
        new = before
              ++ [(mapSetError msg, 0);
                  (freeNode (in_reference in_), 0);
                  (freeNode (in_distorted in_), 0)]
              ++ map (fun m => (vmaf_model_destroy m, 0)) (model (data s))
              ++ map (fun m => (vmaf_model_collection_destroy m, 0))
                   (modelCollection (data s))
              ++ [(vmaf_close (vmaf (data s)), 0)]
        /\ Forall (fun e : Event => is_setup_call e.1 = true) before)
  /\ count_if is_mapSetError new = 1%nat
  /\ count_if is_createVideoFilter new = 0%nat
  /\ count_if is_freeNode new = 2%nat
  /\ count_if is_vmaf_close new = 1%nat.
Proof.
  intros Hrun Htr Hin.
  destruct (vmafCreate_run W in_ userData {| data := make_unique_VMAFData; trace := tr0 |})
    as (r' & d' & new' & Heq & Hout).
  rewrite Heq in Hrun. injection Hrun as <- <-. cbn [data trace] in *.
  apply app_inv_head in Htr. subst new'.
  assert (Hnot : forall tr, Forall (fun e : Event => is_setup_call e.1 = true) tr ->
                            (mapSetError msg, x) ∈ tr -> False).
  { intros tr HF H. rewrite Forall_forall in HF. by apply HF in H. }
  destruct Hout as [d before Htry|error d before Htry|what d before Htry].
  - exfalso. apply elem_of_app in Hin as [Hin|Hin].
    + eapply Hnot; [|exact Hin]. by eapply create_try_calls.
    + split_in Hin. done.
  - pose proof (create_try_calls _ _ _ _ _ _ _ Htry) as Hcalls.
    destruct (create_try_nodes _ _ _ _ _ _ _ Htry) as (Hn & Hr & Hd & Hv).
    apply elem_of_app in Hin as [Hin|Hin]; [exfalso; by eapply Hnot|].
    assert (Hmsg : msg = userData +:+ ": " +:+ error /\ x = 0).
    { unfold abort_events in Hin. rewrite Hn in Hin.
      apply elem_of_app in Hin as [Hin|Hin].
      - split_in Hin; try done. by injection Hin as -> ->.
      - exfalso. split_in Hin; try done.
        + apply list_elem_of_fmap in Hin as (m & Hm & _). done.
        + apply list_elem_of_fmap in Hin as (m & Hm & _). done. }
    destruct Hmsg as [-> ->].
    split; [done|]. split; [done|]. split; [by eexists|]. split.
    { exists before. split; [|done]. unfold abort_events. cbn [data].
      by rewrite Hn, Hr, Hd. }
    rewrite !count_if_app, !abort_events_count.
    rewrite !(count_if_setup _ _ Hcalls) by (by intros []).
    rewrite !count_if_map_none by done. done.
  - exfalso. eapply Hnot; [|exact Hin]. by eapply create_try_calls.
Qed.

Lemma model_call_not_init c : is_model_call c = true -> is_init_call c = false.
Proof. by destruct c. Qed.

Lemma feature_call_not_init c : is_feature_call c = true -> is_init_call c = false.
Proof. by destruct c. Qed.

(** The call of the engine set-up that failed, if one did, is the last
    call of the [try] block, and decides what is thrown. *)
Lemma failed_init_call in_ userData nt d0 r d new c code :
  create_try_outcome in_ userData nt d0 r d new ->
  (c, code) ∈ new ->
  code <> 0 ->
  is_init_call c = true ->
  (c = vmaf_init nt 1
   /\ new = [(c, code)]
   /\ r = inr (std_string "failed to initialize VMAF context"))
  \/ (c = vmaf_cuda_state_init
      /\ new = [(vmaf_init nt 1, 0); (c, code)]
      /\ r = inr (c_str "problem during vmaf_cuda_state_init"))
  \/ (exists ctx cu,
        c = vmaf_cuda_import_state ctx cu
        /\ new = [(vmaf_init nt 1, 0); (vmaf_cuda_state_init, 0); (c, code)]
        /\ r = inr (c_str "problem during vmaf_cuda_import_state")).
Proof.
  intros Htry Hin Hcode Hinit.
  assert (Hloop : forall l1 left1 i1 d1 r1 d1' tr1,
             loop_outcome (model_body_outcome l1) left1 i1 d1 r1 d1' tr1 ->
             (c, code) ∈ tr1 -> False).
  { intros l1 left1 i1 d1 r1 d1' tr1 H Hc. apply model_loop_calls in H.
    rewrite Forall_forall in H. apply H in Hc. apply model_call_not_init in Hc.
    cbn in Hc. congruence. }
  assert (Hloop2 : forall l1 left1 i1 d1 r1 d1' tr1,
             loop_outcome (feature_body_outcome l1) left1 i1 d1 r1 d1' tr1 ->
             (c, code) ∈ tr1 -> False).
  { intros l1 left1 i1 d1 r1 d1' tr1 H Hc. apply feature_loop_calls in H.
    rewrite Forall_forall in H. apply H in Hc. apply feature_call_not_init in Hc.
    cbn in Hc. congruence. }
  destruct Htry; unfold init_events in Hin; split_in Hin;
    try (injection Hin as -> ->); try done;
    try (exfalso; unfold models_outcome, features_outcome in *; by eauto).
  - by left.
  - right. by left.
  - right. right. by eauto 6.
Qed.

(** X7.  An error found before the engine is set up (the chroma
    subsampling of the clip, the [log_format] argument) is reported without
    any call to the engine.  The clean-up is the one of every error: the
    nodes are freed and [vmaf_close] is called, here on the null context
    that was never initialised; there is no model to destroy. *)
Theorem early_error_closes_the_null_context in_ userData tr0 :
  unsupported_format (getVideoInfo (in_reference in_)) = false ->
  unsupported_depth (getVideoInfo (in_reference in_)) = false ->
  unsupported_subsampling (getVideoInfo (in_reference in_)) = true
  \/ log_format_out_of_range (mapGetIntSaturated (in_log_format in_)) = true ->
  exists error d,
    vmafCreate W in_ userData {| data := make_unique_VMAFData; trace := tr0 |}
    = (inl tt,
       {| data := d;
          trace := tr0 ++ [(mapSetError (userData +:+ ": " +:+ error), 0);
                           (freeNode (in_reference in_), 0);
                           (freeNode (in_distorted in_), 0);
                           (vmaf_close nullptr, 0)] |})
    /\ (error = "only 420/422/444 chroma subsampling is supported"%string
        \/ error = "log_format must be 0, 1, 2, or 3"%string)
    /\ vmaf d = nullptr /\ model d = [] /\ modelCollection d = [].
Proof.
  intros Hf Hd Hor.
  destruct (vmafCreate_run W in_ userData {| data := make_unique_VMAFData; trace := tr0 |})
    as (r & d & new & Heq & Hout).
  rewrite Heq. clear Heq. cbn [data trace] in *.
  assert (Hcontra : supported (getVideoInfo (in_reference in_)) ->
                    log_format_out_of_range (mapGetIntSaturated (in_log_format in_)) = false ->
                    False).
  { intros (_ & _ & Hs) Hl. destruct Hor; congruence. }
  destruct Hout as [d before Htry|error d before Htry|what d before Htry];
    inversion Htry; subst; try congruence; try (exfalso; by eauto).
  - exists "only 420/422/444 chroma subsampling is supported"%string. eexists.
    split; [reflexivity|]. split; [by left|]. done.
  - exists "log_format must be 0, 1, 2, or 3"%string. eexists.
    split; [reflexivity|]. split; [by right|]. done.
Qed.

(** X8.  A failure of [vmaf_cuda_state_init] or of
    [vmaf_cuda_import_state] throws a string literal, which the handler of
    [vmafCreate] does not catch: the exception leaves [vmafCreate] right
    after the failed call.  No error is set on the output map and no filter
    is registered; the context that [vmaf_init] had made is not closed and
    the nodes are not freed. *)
Theorem cuda_failure_escapes in_ userData tr0 r s new c code :
  vmafCreate W in_ userData {| data := make_unique_VMAFData; trace := tr0 |} = (r, s) ->
  trace s = tr0 ++ new ->
  (c, code) ∈ new ->
  code <> 0 ->
  c = vmaf_cuda_state_init \/ (exists ctx cu, c = vmaf_cuda_import_state ctx cu) ->
  (r = inr (c_str "problem during vmaf_cuda_state_init")
   \/ r = inr (c_str "problem during vmaf_cuda_import_state"))
  /\ last new = Some (c, code)
  /\ (vmaf_init (numThreads W) 1, 0) ∈ new
  /\ count_if is_mapSetError new = 0%nat
  /\ count_if is_createVideoFilter new = 0%nat
  /\ count_if is_release new = 0%nat.
Proof.
  intros Hrun Htr Hin Hcode Hc.
  assert (Hinit : is_init_call c = true) by (by destruct Hc as [->|(? & ? & ->)]).
  destruct (vmafCreate_run W in_ userData {| data := make_unique_VMAFData; trace := tr0 |})
    as (r' & d' & new' & Heq & Hout).
  rewrite Heq in Hrun. injection Hrun as <- <-. cbn [data trace] in *.
  apply app_inv_head in Htr. subst new'.
  assert (Htail : forall d error, (c, code) ∈ abort_events d error -> False).
  { intros d error H. apply abort_events_calls in H as [H|(H & _)].
    - injection H as -> _. done.
    - cbn in H. unfold is_setup_call in H. by rewrite Hinit in H. }
  destruct Hout as [d before Htry|error d before Htry|what d before Htry].
  - exfalso. apply elem_of_app in Hin as [Hin|Hin].
    + destruct (failed_init_call _ _ _ _ _ _ _ _ _ Htry Hin Hcode Hinit)
        as [(_ & _ & ?)|[(_ & _ & ?)|(? & ? & _ & _ & ?)]]; done.
    + split_in Hin. injection Hin as -> _. done.
  - exfalso. apply elem_of_app in Hin as [Hin|Hin]; [|by eapply Htail].
    destruct (failed_init_call _ _ _ _ _ _ _ _ _ Htry Hin Hcode Hinit)
      as [(-> & _ & _)|[(_ & _ & ?)|(? & ? & _ & _ & ?)]]; try done.
    by destruct Hc as [?|(? & ? & ?)].
  - destruct (failed_init_call _ _ _ _ _ _ _ _ _ Htry Hin Hcode Hinit)
      as [(_ & _ & ?)|[(-> & -> & ->)|(ctx & cu & -> & -> & ->)]]; try done.
    + split; [by left|]. split; [done|]. split; [in_events|]. done.
    + split; [by right|]. split; [done|]. split; [in_events|]. done.
Qed.

Lemma abort_events_not_setup d error :
  Forall (fun e : Event => is_setup_call e.1 = false) (abort_events d error).
Proof.
  apply Forall_forall. intros e [->|(H & _)]%abort_events_calls; done.
Qed.

(** The [try] block of [vmafCreate] goes through its phases in order. *)
Lemma create_try_phases in_ userData nt d0 r d new :
  create_try_outcome in_ userData nt d0 r d new ->
  exists init models features ctx cu,
    new = init ++ models ++ features
    /\ map fst init = take (length init) (init_calls nt ctx cu)
    /\ Forall (fun e : Event => is_model_call e.1 = true) models
    /\ Forall (fun e : Event => is_feature_call e.1 = true) features
    /\ (models ++ features <> [] ->
        length init = 3%nat /\ Forall (fun e : Event => e.2 = 0) init).
Proof.
  destruct 1.
  1-4: by exists [], [], [], 0, 0.
  - by exists [(vmaf_init nt 1, r)], [], [], 0, 0.
  - by exists [(vmaf_init nt 1, 0); (vmaf_cuda_state_init, r)], [], [], 0, 0.
  - by exists (init_events nt ctx cu r), [], [], ctx, cu.
  - by exists (init_events nt ctx cu 0), [], [], ctx, cu.
  - by exists (init_events nt ctx cu 0), [], [], ctx, cu.
  - exists (init_events nt ctx cu 0), new1, [], ctx, cu. rewrite app_nil_r.
    split; [done|]. split; [done|]. split; [by eapply model_loop_calls|].
    split; [done|]. intros _. split; [done|]. by repeat constructor.
  - exists (init_events nt ctx cu 0), new1, new2, ctx, cu.
    split; [done|]. split; [done|]. split; [by eapply model_loop_calls|].
    split; [by eapply feature_loop_calls|]. intros _. split; [done|].
    by repeat constructor.
  - exists (init_events nt ctx cu 0), new1, new2, ctx, cu.
    split; [done|]. split; [done|]. split; [by eapply model_loop_calls|].
    split; [by eapply feature_loop_calls|]. intros _. split; [done|].
    by repeat constructor.
Qed.

(** X9.  The calls of [vmafCreate] come in phases, in this order: the
    context is made ([vmaf_init], [vmaf_cuda_state_init],
    [vmaf_cuda_import_state], each at most once); the models are loaded;
    the features are registered; the filter is registered or the clean-up
    runs.  No model is loaded and no feature registered unless all three
    calls of the first phase were made and succeeded. *)
Theorem setup_runs_in_phases in_ userData tr0 r s new :
  vmafCreate W in_ userData {| data := make_unique_VMAFData; trace := tr0 |} = (r, s) ->
  trace s = tr0 ++ new ->
  exists init models features tail ctx cu,
    new = init ++ models ++ features ++ tail
    /\ map fst init = take (length init) (init_calls (numThreads W) ctx cu)
    /\ Forall (fun e : Event => is_model_call e.1 = true) models
    /\ Forall (fun e : Event => is_feature_call e.1 = true) features
    /\ Forall (fun e : Event => is_setup_call e.1 = false) tail
    /\ (models ++ features <> [] ->
        length init = 3%nat /\ Forall (fun e : Event => e.2 = 0) init).
Proof.
  intros Hrun Htr.
  destruct (vmafCreate_run W in_ userData {| data := make_unique_VMAFData; trace := tr0 |})
    as (r' & d' & new' & Heq & Hout).
  rewrite Heq in Hrun. injection Hrun as <- <-. cbn [data trace] in *.
  apply app_inv_head in Htr. subst new'.
  destruct Hout as [d before Htry|error d before Htry|what d before Htry];
    destruct (create_try_phases _ _ _ _ _ _ _ Htry)
      as (init & models & features & ctx & cu & -> & Hi & Hm & Hf & Hall).
  - exists init, models, features, [(createVideoFilter (filterName d) (vi d) d, 0)], ctx, cu.
    rewrite <- !app_assoc. do 4 (split; [done|]). split; [by repeat constructor|]. done.
  - exists init, models, features, (abort_events d error), ctx, cu.
    rewrite <- !app_assoc. do 4 (split; [done|]).
    split; [apply abort_events_not_setup|]. done.
  - exists init, models, features, [], ctx, cu.
    rewrite app_nil_r. do 4 (split; [done|]). split; [constructor|]. done.
Qed.

(** ** What the loops call, in order *)

Lemma select_app p tr1 tr2 : select p (tr1 ++ tr2) = select p tr1 ++ select p tr2.
Proof.
  induction tr1 as [|e tr1 IH]; [done|]. cbn. destruct (p e.1); by rewrite IH.
Qed.

Lemma select_none p tr :
  Forall (fun e : Event => p e.1 = false) tr -> select p tr = [].
Proof. induction 1 as [|e tr He _ IH]; cbn; [done | by rewrite He]. Qed.

Lemma select_all p tr :
  Forall (fun e : Event => p e.1 = true) tr -> select p tr = tr.
Proof. induction 1 as [|e tr He _ IH]; cbn; [done | by rewrite He, IH]. Qed.

(** What a completed loop has produced, one iteration after the other. *)
Lemma loop_collect {X} body (I : VMAFData -> Prop) (f : list Event -> list X)
    (g : Z -> list X) left i d d' new :
  f [] = [] ->
  (forall a b, f (a ++ b) = f a ++ f b) ->
  (forall i d r d1 new1, body i d r d1 new1 -> I d -> I d1) ->
  (forall i d d1 new1, I d -> body i d (inl tt) d1 new1 -> f new1 = g i) ->
  I d ->
  loop_outcome body left i d (inl tt) d' new ->
  f new = flat_map g (map (fun k => i + Z.of_nat k) (seq 0 left)).
Proof.
  intros Hnil Happ Hinv Hbody HI H. remember (inl tt) as r eqn:Hr. revert Hr HI.
  induction H as [| left i d d1 new1 r d2 new2 H1 H2 IH |]; intros Hr HI.
  - done.
  - subst r. rewrite Happ, (Hbody _ _ _ _ HI H1), IH by eauto.
    cbn [seq map flat_map]. rewrite Z.add_0_r. f_equal.
    rewrite <- (fmap_S_seq 0 left). change (S <$> seq 0 left) with (map S (seq 0 left)).
    rewrite map_map. f_equal. apply map_ext. intros k. lia.
  - done.
Qed.

Lemma elems_in_order {X} (h : Z -> X) (l : list Z) :
  flat_map (fun i => [h (elem l i)]) (map (fun k => 0 + Z.of_nat k) (seq 0 (length l)))
  = map h l.
Proof.
  rewrite flat_map_concat_map, map_map.
  assert (H : forall (l : list Z) from (pre : list Z),
             length pre = from ->
             concat (map (fun k => [h (elem (pre ++ l) (0 + Z.of_nat k))])
                       (seq from (length l))) = map h l).
  { clear l. induction l as [|x l IH]; intros from pre Hpre; [done|].
    cbn [length seq map concat app]. f_equal.
    - unfold elem. rewrite Z.add_0_l, Nat2Z.id, <- Hpre.
      by rewrite list_lookup_middle.
    - rewrite <- (IH (S from) (pre ++ [x])) by (rewrite length_app; cbn; lia).
      by rewrite <- app_assoc. }
  apply (H l 0%nat []). done.
Qed.


Lemma model_body_loads l i d d1 new1 :
  True -> model_body_outcome l i d (inl tt) d1 new1 ->
  map fst (select is_model_load new1)
  = [vmaf_model_load (at_index modelName (elem l i)) (at_index modelVersion (elem l i))].
Proof.
  intros _ Hb.
  inversion Hb as [| |p r0 d4 ? ? ? Hr| |p r1 p2 c r0 d4 ? ? Hr1 ? Hr]; by subst.
Qed.

Lemma feature_body_context l ctx i d r d1 new1 :
  feature_body_outcome l i d r d1 new1 -> vmaf d = ctx -> vmaf d1 = ctx.
Proof.
  intros (Hs & _)%feature_body_same_setup Hd.
  apply same_setup_fields in Hs as (_ & _ & _ & _ & _ & _ & Hv & _). congruence.
Qed.

Lemma feature_body_registers l ctx i d d1 new1 :
  vmaf d = ctx -> feature_body_outcome l i d (inl tt) d1 new1 ->
  new1 = [(vmaf_use_feature ctx (at_index featureName (elem l i)), 0)].
Proof. intros Hd Hb. inversion Hb; subst. done. Qed.

(** X10.  In a created filter the models were loaded and the features
    registered as requested and in the order of the request: one singleton
    load per requested model, under the name and the version of the tables,
    and one registration per requested feature, under the name of the
    table, into the context of the filter, all of which succeeded. *)
Theorem requests_are_honoured_in_order in_ userData tr0 r s new name v d :
  vmafCreate W in_ userData {| data := make_unique_VMAFData; trace := tr0 |} = (r, s) ->
  trace s = tr0 ++ new ->
  (createVideoFilter name v d, 0) ∈ new ->
  map fst (select is_model_load new)
  = map (fun m => vmaf_model_load (at_index modelName m) (at_index modelVersion m))
      (mapGetIntArray (in_model in_))
  /\ select is_feature_call new
     = map (fun f => (vmaf_use_feature (vmaf d) (at_index featureName f), 0))
         (mapGetIntArray (in_feature in_)).
Proof.
  intros Hrun Htr Hin.
  destruct (vmafCreate_run W in_ userData {| data := make_unique_VMAFData; trace := tr0 |})
    as (r' & d' & new' & Heq & Hout).
  rewrite Heq in Hrun. injection Hrun as <- <-. cbn [data trace] in *.
  apply app_inv_head in Htr. subst new'.
  destruct (created_inv _ _ _ _ _ _ _ _ _ _ _ Hout Hin)
    as (-> & -> & -> & -> & _ & before & Htry & ->).
  clear Hout Hin.
  inversion Htry as [| | | | | | | | | | |ctx cu d1 new1 d2 new2 Hsup Hlog Hmatch Hm Hf];
    subst.
  unfold models_outcome, features_outcome in *.
  rewrite !length_mapGetIntArray in *.
  set (models := mapGetIntArray (in_model in_)) in *.
  set (features := mapGetIntArray (in_feature in_)) in *.
  pose proof (model_loop_calls _ _ _ _ _ _ _ Hm) as Hmc.
  pose proof (feature_loop_calls _ _ _ _ _ _ _ Hf) as Hfc.
  destruct (model_loop_same_setup _ _ _ _ _ _ _ Hm) as (Hs1 & _).
  destruct (feature_loop_same_setup _ _ _ _ _ _ _ Hf) as (Hs2 & _).
  apply same_setup_fields in Hs1 as (_ & _ & _ & _ & _ & _ & Hv1 & _).
  apply same_setup_fields in Hs2 as (_ & _ & _ & _ & _ & _ & Hv2 & _).
  split.
  - rewrite !select_app, !map_app.
    rewrite (select_none _ (init_events _ _ _ _)) by (by repeat constructor).
    rewrite (select_none _ new2)
      by (eapply Forall_impl; [exact Hfc|]; intros [c x] H; by destruct c).
    rewrite (select_none _ [_]) by (by repeat constructor).
    cbn [map app]. rewrite !app_nil_r.
    etrans; [|apply (elems_in_order
                       (fun m => vmaf_model_load (at_index modelName m)
                                   (at_index modelVersion m)))].
    apply (loop_collect (model_body_outcome models) (fun _ => True)
               (fun tr => map fst (select is_model_load tr))
               (fun i => [vmaf_model_load (at_index modelName (elem models i))
                            (at_index modelVersion (elem models i))])
               _ _ _ _ _ eq_refl (fun a b => eq_trans (f_equal (map fst) (select_app _ a b))
                                                (map_app _ _ _))
               (fun _ _ _ _ _ _ _ => I)
               (model_body_loads models) I Hm).
  - rewrite !select_app.
    rewrite (select_none _ (init_events _ _ _ _)) by (by repeat constructor).
    rewrite (select_none _ new1)
      by (eapply Forall_impl; [exact Hmc|]; intros [c x] H; by destruct c).
    rewrite (select_none _ [_]) by (by repeat constructor).
    cbn [app]. rewrite !app_nil_r, (select_all _ _ Hfc).
    cbn [vmaf set_pixelFormat].
    etrans; [|apply (elems_in_order
                       (fun f => (vmaf_use_feature (vmaf d2) (at_index featureName f), 0)))].
    apply (loop_collect (feature_body_outcome features) (fun d => vmaf d = vmaf d2)
               (fun tr => tr)
               (fun i => [(vmaf_use_feature (vmaf d2) (at_index featureName (elem features i)),
                           0)])
               _ _ _ _ _ eq_refl (fun a b => eq_refl)
               (feature_body_context features (vmaf d2))
               (feature_body_registers features (vmaf d2)) (eq_sym Hv2) Hf).
Qed.

(** ** The vectors of handles *)

Lemma model_body_vectors l i d r d1 new1 :
  model_body_outcome l i d r d1 new1 ->
  (count_if is_model_load new1 <= 1)%nat
  /\ length (modelCollection d1)
     = (length (modelCollection d) + count_if is_model_collection_load new1)%nat
  /\ count_if is_model_collection_load new1 = count_failed_loads new1.
Proof.
  destruct 1; subst; unfold store_collection, store_model, grow_collections; cbn;
    rewrite ?length_insert, ?length_resize;
    repeat match goal with
           | H : ?r <> 0 |- context [?r =? 0] =>
               let E := fresh in destruct (Z.eqb_spec r 0) as [E|E]; [done|]
           end; lia.
Qed.

Lemma model_loop_vectors l left i d r d' new :
  loop_outcome (model_body_outcome l) left i d r d' new ->
  (count_if is_model_load new <= left)%nat
  /\ length (modelCollection d')
     = (length (modelCollection d) + count_if is_model_collection_load new)%nat
  /\ count_if is_model_collection_load new = count_failed_loads new.
Proof.
  induction 1 as [| left i d d1 new1 r d2 new2 H1 H2 IH | left i d e d1 new1 H1].
  - cbn. lia.
  - apply model_body_vectors in H1. rewrite !count_if_app, count_failed_loads_app. lia.
  - apply model_body_vectors in H1. lia.
Qed.

Lemma sized_vectors in_ userData d0 ctx cu :
  model d0 = [] -> modelCollection d0 = [] ->
  length (model (sized in_ (initialised in_ userData d0 ctx cu)))
  = length (mapGetIntArray (in_model in_))
  /\ modelCollection (sized in_ (initialised in_ userData d0 ctx cu)) = [].
Proof.
  intros Hm Hc. unfold sized. rewrite <- length_mapGetIntArray.
  destruct (0 <? mapNumElements (in_model in_)) eqn:E; cbn.
  - by rewrite length_resize.
  - rewrite Hm. cbn. apply Z.ltb_ge in E. split; [lia|done].
Qed.

Lemma feature_events_count (p : Call -> bool) tr :
  Forall (fun e : Event => is_feature_call e.1 = true) tr ->
  (forall c, is_feature_call c = true -> p c = false) ->
  count_if p tr = 0%nat.
Proof.
  intros HF Hp. apply count_if_none. eapply Forall_impl; [exact HF|]. intros e. apply Hp.
Qed.

(** The vectors of handles that the [try] block leaves, against the loads
    it made. *)
Lemma create_try_vectors in_ userData nt d0 r d new :
  create_try_outcome in_ userData nt d0 r d new ->
  model d0 = [] -> modelCollection d0 = [] ->
  (count_if is_model_load new <= length (model d))%nat
  /\ length (modelCollection d) = count_if is_model_collection_load new
  /\ count_if is_model_collection_load new = count_failed_loads new
  /\ (clips_match in_ ->
      (exists ctx cu, (vmaf_cuda_import_state ctx cu, 0) ∈ new) ->
      length (model d) = length (mapGetIntArray (in_model in_))).
Proof.
  intros Htry Hm0 Hc0.
  destruct Htry as [ | | | | | | |ctx cu ? ? Hsame|ctx cu ? ? Hsame Hlen
                   |ctx cu e d1 new1 ? ? ? Hm
                   |ctx cu d1 new1 e d2 new2 ? ? ? Hm Hf
                   |ctx cu d1 new1 d2 new2 ? ? ? Hm Hf].
  1-4: (cbn; rewrite ?Hm0, ?Hc0; cbn; do 3 (split; [done|]);
        intros _ (? & ? & Hin); by apply elem_of_nil in Hin).
  - cbn; rewrite ?Hm0, ?Hc0; cbn. do 3 (split; [done|]).
    intros _ (ctx' & cu' & Hin). split_in Hin. done.
  - cbn; rewrite ?Hm0, ?Hc0; cbn. do 3 (split; [done|]).
    intros _ (ctx' & cu' & Hin). split_in Hin; done.
  - cbn; rewrite ?Hm0, ?Hc0; cbn. do 3 (split; [done|]).
    intros _ (ctx' & cu' & Hin). unfold init_events in Hin. split_in Hin; try done.
    injection Hin as _ _ <-. done.
  - cbn; rewrite ?Hm0, ?Hc0; cbn. do 3 (split; [done|]).
    intros [Hs _] _. congruence.
  - cbn; rewrite ?Hm0, ?Hc0; cbn. do 3 (split; [done|]).
    intros [_ Hl] _. congruence.
  - destruct (sized_vectors in_ userData d0 ctx cu Hm0 Hc0) as [Hl Hc].
    destruct (model_loop_same_setup _ _ _ _ _ _ _ Hm) as (_ & _ & Hlen).
    destruct (model_loop_vectors _ _ _ _ _ _ _ Hm) as (Hloads & Hcol & Hfail).
    rewrite Hc in Hcol. rewrite length_mapGetIntArray in Hloads.
    rewrite !count_if_app, count_failed_loads_app. cbn. rewrite Hlen, Hl.
    split; [lia|]. split; [cbn in Hcol; lia|]. split; [lia|]. done.
  - destruct (sized_vectors in_ userData d0 ctx cu Hm0 Hc0) as [Hl Hc].
    destruct (model_loop_same_setup _ _ _ _ _ _ _ Hm) as (_ & _ & Hlen).
    destruct (model_loop_vectors _ _ _ _ _ _ _ Hm) as (Hloads & Hcol & Hfail).
    destruct (feature_loop_same_setup _ _ _ _ _ _ _ Hf) as (_ & Hfm & Hfc).
    pose proof (feature_loop_calls _ _ _ _ _ _ _ Hf) as Hcalls.
    rewrite Hc in Hcol. rewrite length_mapGetIntArray in Hloads.
    rewrite !count_if_app, !count_failed_loads_app.
    rewrite !(feature_events_count _ new2 Hcalls) by (by intros []).
    rewrite (count_failed_loads_none is_feature_call new2) by done.
    cbn. rewrite Hfm, Hfc, Hlen, Hl.
    split; [lia|]. split; [cbn in Hcol; lia|]. split; [lia|]. done.
  - destruct (sized_vectors in_ userData d0 ctx cu Hm0 Hc0) as [Hl Hc].
    destruct (model_loop_same_setup _ _ _ _ _ _ _ Hm) as (_ & _ & Hlen).
    destruct (model_loop_vectors _ _ _ _ _ _ _ Hm) as (Hloads & Hcol & Hfail).
    destruct (feature_loop_same_setup _ _ _ _ _ _ _ Hf) as (_ & Hfm & Hfc).
    pose proof (feature_loop_calls _ _ _ _ _ _ _ Hf) as Hcalls.
    rewrite Hc in Hcol. rewrite length_mapGetIntArray in Hloads.
    rewrite !count_if_app, !count_failed_loads_app.
    rewrite !(feature_events_count _ new2 Hcalls) by (by intros []).
    rewrite (count_failed_loads_none is_feature_call new2) by done.
    cbn. rewrite Hfm, Hfc, Hlen, Hl.
    split; [lia|]. split; [cbn in Hcol; lia|]. split; [lia|]. done.
Qed.

(** X11.  The clean-up after an error destroys as many models as the model
    vector has entries, whether they were loaded or not: as many as were
    requested once the clips were found to match, and never fewer than the
    singleton loads that were made.  It destroys one collection for every
    collection load that was made, and one collection load was made for
    every singleton load that failed. *)
Theorem failed_setup_destroys_every_entry in_ userData tr0 r s new msg x :
  vmafCreate W in_ userData {| data := make_unique_VMAFData; trace := tr0 |} = (r, s) ->
  trace s = tr0 ++ new ->
  (mapSetError msg, x) ∈ new ->
  count_if is_model_destroy new = length (model (data s))
  /\ (count_if is_model_load new <= count_if is_model_destroy new)%nat
  /\ count_if is_collection_destroy new = count_if is_model_collection_load new
  /\ count_if is_model_collection_load new = count_failed_loads new
  /\ (clips_match in_ ->
      (exists ctx cu, (vmaf_cuda_import_state ctx cu, 0) ∈ new) ->
      count_if is_model_destroy new = length (mapGetIntArray (in_model in_))).
Proof.
  intros Hrun Htr Hin.
  destruct (vmafCreate_run W in_ userData {| data := make_unique_VMAFData; trace := tr0 |})
    as (r' & d' & new' & Heq & Hout).
  rewrite Heq in Hrun. injection Hrun as <- <-. cbn [data trace] in *.
  apply app_inv_head in Htr. subst new'.
  assert (Hnot : forall tr, Forall (fun e : Event => is_setup_call e.1 = true) tr ->
                            (mapSetError msg, x) ∈ tr -> False).
  { intros tr HF H. rewrite Forall_forall in HF. by apply HF in H. }
  destruct Hout as [d before Htry|error d before Htry|what d before Htry].
  - exfalso. apply elem_of_app in Hin as [Hin|Hin].
    + eapply Hnot; [|exact Hin]. by eapply create_try_calls.
    + split_in Hin. done.
  - pose proof (create_try_calls _ _ _ _ _ _ _ Htry) as Hcalls.
    destruct (create_try_vectors _ _ _ _ _ _ _ Htry eq_refl eq_refl)
      as (Hloads & Hcol & Hfail & Hsized).
    assert (Hdestroy : count_if is_model_destroy (before ++ abort_events d error)
                       = length (model d)).
    { rewrite count_if_app, abort_events_count.
      rewrite (count_if_setup _ _ Hcalls) by (by intros []).
      rewrite count_if_map_all, count_if_map_none by done. cbn. lia. }
    assert (Hcdestroy : count_if is_collection_destroy (before ++ abort_events d error)
                        = length (modelCollection d)).
    { rewrite count_if_app, abort_events_count.
      rewrite (count_if_setup _ _ Hcalls) by (by intros []).
      rewrite (count_if_map_none _ vmaf_model_destroy) by done.
      rewrite (count_if_map_all _ vmaf_model_collection_destroy) by done. cbn. lia. }
    assert (Habort : forall p, (forall c, is_setup_call c = false -> p c = false) ->
                               count_if p (abort_events d error) = 0%nat).
    { intros p Hp. apply count_if_none. eapply Forall_impl; [apply abort_events_not_setup|].
      intros e. apply Hp. }
    assert (Hfl : count_failed_loads (abort_events d error) = 0%nat).
    { apply (count_failed_loads_none (fun c => negb (is_setup_call c))); [|done].
      eapply Forall_impl; [apply abort_events_not_setup|]. intros e ->. done. }
    rewrite Hdestroy, Hcdestroy. rewrite !count_if_app, count_failed_loads_app.
    rewrite !Habort by (intros []; done). rewrite Hfl, !Nat.add_0_r.
    split; [done|]. split; [done|]. split; [done|]. split; [done|].
    intros Hmatch (ctx & cu & Himp). apply Hsized; [done|].
    exists ctx, cu. apply elem_of_app in Himp as [Himp|Himp]; [done|].
    exfalso. apply abort_events_calls in Himp as [Himp|(Himp & _)]; done.
  - exfalso. eapply Hnot; [|exact Hin]. by eapply create_try_calls.
Qed.

(** ** Handles *)

(** One iteration of the model loop that completes: the handle whose
    feature extractors it registers is the one it leaves in the vectors. *)
Lemma model_body_handles l i d d1 new1 :
  model_body_outcome l i d (inl tt) d1 new1 ->
  (Z.to_nat i < length (model d))%nat ->
  (forall j, j <> Z.to_nat i -> model d1 !! j = model d !! j)
  /\ (exists extra,
        modelCollection d1 = modelCollection d ++ extra
        /\ forall ctx c code,
             (vmaf_use_features_from_model_collection ctx c, code) ∈ new1 ->
             ctx = vmaf d /\ c ∈ extra)
  /\ (forall ctx m code,
        (vmaf_use_features_from_model ctx m, code) ∈ new1 ->
        ctx = vmaf d /\ model d1 !! Z.to_nat i = Some m).
Proof.
  intros Hb Hi.
  inversion Hb as [| |p r d2 ? ? ? Hr| |p r1 p2 c r d2 ? ? Hr1 ? Hr]; subst.
  - split; [|split].
    + intros j Hj. cbn. by rewrite list_lookup_insert_ne.
    + exists []. rewrite app_nil_r. split; [done|].
      intros ctx c code Hin. split_in Hin; done.
    + intros ctx m code Hin. split_in Hin; try done.
      injection Hin as -> -> _. split; [done|].
      cbn. rewrite list_lookup_insert_eq by done. done.
  - unfold store_collection, store_model, grow_collections.
    cbn [model modelCollection set_model set_modelCollection].
    rewrite grown_collections.
    split; [|split].
    + intros j Hj. by rewrite !list_lookup_insert_ne.
    + exists [c]. split; [done|].
      intros ctx c' code Hin. split_in Hin; try done.
      injection Hin as -> -> _. split; [done|].
      rewrite last_snoc. cbn. apply list_elem_of_here.
    + intros ctx m code Hin. split_in Hin; done.
Qed.

Lemma model_loop_handles l left i d d' new :
  loop_outcome (model_body_outcome l) left i d (inl tt) d' new ->
  0 <= i ->
  (Z.to_nat i + left <= length (model d))%nat ->
  (forall j, (j < Z.to_nat i)%nat -> model d' !! j = model d !! j)
  /\ (exists extra,
        modelCollection d' = modelCollection d ++ extra
        /\ forall ctx c code,
             (vmaf_use_features_from_model_collection ctx c, code) ∈ new ->
             ctx = vmaf d /\ c ∈ extra)
  /\ (forall ctx m code,
        (vmaf_use_features_from_model ctx m, code) ∈ new ->
        ctx = vmaf d /\ m ∈ model d').
Proof.
  intros H. remember (inl tt) as r eqn:Hr. revert Hr.
  induction H as [| left i d d1 new1 r d2 new2 H1 H2 IH |]; intros Hr Hi Hlen.
  - split; [done|]. split.
    + exists []. rewrite app_nil_r. split; [done|]. intros ? ? ? Hin. by apply elem_of_nil in Hin.
    + intros ? ? ? Hin. by apply elem_of_nil in Hin.
  - destruct (model_body_handles _ _ _ _ _ H1) as (Hkeep1 & (extra1 & Hc1 & Hin1) & Hm1);
      [lia|].
    destruct (model_body_same_setup _ _ _ _ _ _ H1) as (Hs1 & _ & Hl1).
    apply same_setup_fields in Hs1 as (_ & _ & _ & _ & _ & _ & Hv1 & _).
    destruct (IH Hr) as (Hkeep2 & (extra2 & Hc2 & Hin2) & Hm2); [lia|rewrite Hl1; lia|].
    split; [|split].
    + intros j Hj. rewrite Hkeep2 by lia. apply Hkeep1. lia.
    + exists (extra1 ++ extra2). split; [by rewrite Hc2, Hc1, app_assoc|].
      intros ctx c code [Hin|Hin]%elem_of_app.
      * destruct (Hin1 _ _ _ Hin) as [-> ?]. split; [done|]. apply elem_of_app. by left.
      * destruct (Hin2 _ _ _ Hin) as [-> ?]. split; [done|]. apply elem_of_app. by right.
    + intros ctx m code [Hin|Hin]%elem_of_app.
      * destruct (Hm1 _ _ _ Hin) as [-> Hlook]. split; [done|].
        apply (list_elem_of_lookup_2 _ (Z.to_nat i)). rewrite Hkeep2 by lia. done.
      * destruct (Hm2 _ _ _ Hin) as [-> ?]. done.
  - done.
Qed.


Lemma feature_body_events l i d r d1 new1 :
  feature_body_outcome l i d r d1 new1 ->
  forall ctx f x, (vmaf_use_feature ctx f, x) ∈ new1 -> ctx = vmaf d.
Proof.
  intros Hb ctx f x Hin. destruct Hb; split_in Hin; by injection Hin as -> _ _.
Qed.

Lemma feature_loop_context l left i d r d' new :
  loop_outcome (feature_body_outcome l) left i d r d' new ->
  forall ctx f x, (vmaf_use_feature ctx f, x) ∈ new -> ctx = vmaf d.
Proof.
  induction 1 as [| left i d d1 new1 r d2 new2 H1 H2 IH | left i d e d1 new1 H1];
    intros ctx f x Hin.
  - by apply elem_of_nil in Hin.
  - apply elem_of_app in Hin as [Hin|Hin].
    + by eapply feature_body_events.
    + rewrite (IH _ _ _ Hin). by eapply feature_body_context.
  - by eapply feature_body_events.
Qed.

(** X12.  A filter lives in one context.  In a created filter every call of
    the set-up that takes a context was given the context of the filter,
    and every model and every collection whose feature extractors were
    registered is held in the vectors of the filter.  At the teardown of
    the filter, when it is the first of the process, each of them is
    destroyed, and the context that is closed, as the last call, is the
    one they were registered into. *)
Theorem registered_handles_are_destroyed in_ userData tr0 r0 s0 new0 name v d tr1 r s new :
  vmafCreate W in_ userData {| data := make_unique_VMAFData; trace := tr0 |}
    = (r0, s0) ->
  trace s0 = tr0 ++ new0 ->
  (createVideoFilter name v d, 0) ∈ new0 ->
  made_by_an_earlier_call tr1 = false ->
  vmafFree W {| data := d; trace := tr1 |} = (r, s) ->
  trace s = tr1 ++ new ->
  (forall ctx cu code,
      (vmaf_cuda_import_state ctx cu, code) ∈ new0 -> ctx = vmaf d /\ cu = cu_state d)
  /\ (forall ctx m code,
        (vmaf_use_features_from_model ctx m, code) ∈ new0 ->
        ctx = vmaf d /\ m ∈ model d /\ vmaf_model_destroy m ∈ without_log new)
  /\ (forall ctx c code,
        (vmaf_use_features_from_model_collection ctx c, code) ∈ new0 ->
        ctx = vmaf d /\ c ∈ modelCollection d
        /\ vmaf_model_collection_destroy c ∈ without_log new)
  /\ (forall ctx feature code,
        (vmaf_use_feature ctx feature, code) ∈ new0 -> ctx = vmaf d)
  /\ last (without_log new) = Some (vmaf_close (vmaf d)).
Proof.
  intros Hrun0 Htr0 Hin Hfirst Hrun Htr.
  destruct (vmafCreate_run W in_ userData {| data := make_unique_VMAFData; trace := tr0 |})
    as (r' & d' & new' & Heq & Hout).
  rewrite Heq in Hrun0. injection Hrun0 as <- <-. cbn [data trace] in *.
  apply app_inv_head in Htr0. subst new'.
  destruct (created_inv _ _ _ _ _ _ _ _ _ _ _ Hout Hin)
    as (-> & -> & -> & -> & _ & before & Htry & ->).
  clear Hout Hin Heq.
  destruct (vmafFree_run W d tr1 Hfirst) as (new' & Heq & [Hcalls _ _]).
  rewrite Heq in Hrun. injection Hrun as <- <-. cbn [trace] in Htr.
  apply app_inv_head in Htr. subst new'. clear Heq.
  rewrite Hcalls.
  assert (Hdestroy : forall m, m ∈ model d -> vmaf_model_destroy m ∈ teardown_calls d).
  { intros m Hm. unfold teardown_calls. do 4 (apply elem_of_app; right).
    apply elem_of_app. left. apply list_elem_of_fmap. by exists m. }
  assert (Hcdestroy : forall c, c ∈ modelCollection d ->
                                vmaf_model_collection_destroy c ∈ teardown_calls d).
  { intros c Hc. unfold teardown_calls. do 5 (apply elem_of_app; right).
    apply elem_of_app. left. apply list_elem_of_fmap. by exists c. }
  assert (Hlast : last (teardown_calls d) = Some (vmaf_close (vmaf d))).
  { unfold teardown_calls. by rewrite !app_assoc, last_snoc. }
  inversion Htry as [| | | | | | | | | | |ctx cu d1 new1 d2 new2 Hsup Hlog Hmatch Hm Hf];
    subst.
  unfold models_outcome, features_outcome in *.
  pose proof (model_loop_calls _ _ _ _ _ _ _ Hm) as Hmc.
  pose proof (feature_loop_calls _ _ _ _ _ _ _ Hf) as Hfc.
  rewrite Forall_forall in Hmc, Hfc.
  destruct (sized_vectors in_ userData make_unique_VMAFData ctx cu eq_refl eq_refl)
    as [Hl Hc].
  destruct (model_loop_same_setup _ _ _ _ _ _ _ Hm) as (Hs1 & _).
  destruct (feature_loop_same_setup _ _ _ _ _ _ _ Hf) as (Hs2 & Hfm & Hfcol).
  apply same_setup_fields in Hs1 as (_ & _ & _ & _ & _ & _ & Hv1 & _ & Hcu1).
  apply same_setup_fields in Hs2 as (_ & _ & _ & _ & _ & _ & Hv2 & _ & Hcu2).
  assert (Hctx : vmaf (sized in_ (initialised in_ userData make_unique_VMAFData ctx cu))
                 = ctx) by (unfold sized; by destruct (0 <? _)).
  assert (Hcus : cu_state (sized in_ (initialised in_ userData make_unique_VMAFData ctx cu))
                 = cu) by (unfold sized; by destruct (0 <? _)).
  destruct (model_loop_handles _ _ _ _ _ _ Hm) as (_ & (extra & Hextra & Hcols) & Hmods);
    [done | rewrite Hl, length_mapGetIntArray; cbn; lia |].
  rewrite Hc in Hextra. cbn [app] in Hextra.
  set (d := set_pixelFormat (pick_pixelFormat (vi d2)) d2) in *.
  assert (Hvd : vmaf d = ctx) by (subst d; cbn; congruence).
  assert (Hcud : cu_state d = cu) by (subst d; cbn; congruence).
  assert (Hmd : model d = model d1) by (subst d; cbn; congruence).
  assert (Hcd : modelCollection d = extra) by (subst d; cbn; congruence).
  assert (Hlastev : forall c x,
             (c, x) ∈ [(createVideoFilter (filterName d) (vi d) d, 0)] ->
             is_createVideoFilter c = true).
  { intros c x Hcx. split_in Hcx. by injection Hcx as -> _. }
  split; [|split; [|split; [|split]]]; [| | | |done].
  - intros ctx' cu' code Hin. rewrite Hvd, Hcud.
    unfold init_events in Hin. split_in Hin; try done.
    + by injection Hin as -> -> _.
    + by apply Hmc in Hin.
    + by apply Hfc in Hin.
  - intros ctx' m code Hin. unfold init_events in Hin. split_in Hin; try done.
    + destruct (Hmods _ _ _ Hin) as [-> Hmem]. rewrite Hvd, Hmd.
      split; [congruence|]. split; [done|]. apply Hdestroy. by rewrite Hmd.
    + by apply Hfc in Hin.
  - intros ctx' c code Hin. unfold init_events in Hin. split_in Hin; try done.
    + destruct (Hcols _ _ _ Hin) as [-> Hmem]. rewrite Hvd, Hcd.
      split; [congruence|]. split; [done|]. apply Hcdestroy. by rewrite Hcd.
    + by apply Hfc in Hin.
  - intros ctx' feature code Hin. unfold init_events in Hin. split_in Hin; try done.
    + by apply Hmc in Hin.
    + rewrite Hvd, (feature_loop_context _ _ _ _ _ _ _ Hf _ _ _ Hin). congruence.
Qed.

(** ** What is accepted *)

(** X13.  A filter is only created for a reference clip of constant YUV
    integer format, 8, 10, 12 or 16 bits deep, subsampled 4:2:0, 4:2:2 or
    4:4:4, and its pixel format is the one of that subsampling.  The
    pictures of every frame are allocated in this pixel format with the bit
    depth, width and height of the reference clip, which are those of the
    distorted clip too; both clips have the same number of frames. *)
Theorem created_filter_format in_ userData tr0 r s new name v d :
  vmafCreate W in_ userData {| data := make_unique_VMAFData; trace := tr0 |} = (r, s) ->
  trace s = tr0 ++ new ->
  (createVideoFilter name v d, 0) ∈ new ->
  vi d = getVideoInfo (in_reference in_)
  /\ colorFamily (format (vi d)) = cfYUV
  /\ sampleType (format (vi d)) = stInteger
  /\ bitsPerSample (format (vi d)) ∈ [8; 10; 12; 16]
  /\ 0 < width (vi d) /\ 0 < height (vi d)
  /\ (subSamplingW (format (vi d)), subSamplingH (format (vi d)), pixelFormat d)
       ∈ [(1, 1, VMAF_PIX_FMT_YUV420P); (1, 0, VMAF_PIX_FMT_YUV422P);
          (0, 0, VMAF_PIX_FMT_YUV444P)]
  /\ (forall pic,
        alloc_call d pic
        = vmaf_picture_alloc pic (pixelFormat d)
            (bitsPerSample (format (getVideoInfo (in_distorted in_))))
            (width (getVideoInfo (in_distorted in_)))
            (height (getVideoInfo (in_distorted in_))))
  /\ numFrames (getVideoInfo (in_distorted in_)) = numFrames (vi d).
Proof.
  intros Hrun Htr Hin.
  destruct (vmafCreate_run W in_ userData {| data := make_unique_VMAFData; trace := tr0 |})
    as (r' & d' & new' & Heq & Hout).
  rewrite Heq in Hrun. injection Hrun as <- <-. cbn [data trace] in *.
  apply app_inv_head in Htr. subst new'.
  destruct (created_inv _ _ _ _ _ _ _ _ _ _ _ Hout Hin)
    as (-> & -> & -> & -> & _ & before & Htry & ->).
  destruct (created_data _ _ _ _ _ _ Htry) as (_ & _ & _ & Hv & _ & _ & Hpix & _).
  destruct (created_checked _ _ _ _ _ _ Htry) as ((Hfmt & Hdepth & Hsub) & _ & Hmatch & _).
  destruct Hmatch as [Hsame Hframes].
  apply isSameVideoInfo_true in Hsame as (_ & _ & Hbits & _ & _ & Hw & Hh).
  apply Z.eqb_eq in Hframes.
  unfold alloc_call. rewrite Hpix, Hv, Hbits, Hw, Hh, Hframes.
  set (info := getVideoInfo (in_reference in_)) in *.
  unfold unsupported_format, isConstantVideoFormat in Hfmt.
  apply orb_false_iff in Hfmt as [Hfmt Hint]. apply orb_false_iff in Hfmt as [Hconst Hyuv].
  apply negb_false_iff in Hint, Hyuv, Hconst.
  apply bool_decide_eq_true in Hint, Hyuv.
  apply andb_true_iff in Hconst as [Hconst _]. apply andb_true_iff in Hconst as [Hh0 Hw0].
  apply Z.ltb_lt in Hh0, Hw0.
  split; [done|]. split; [done|]. split; [done|]. split.
  { unfold unsupported_depth in Hdepth. apply negb_false_iff in Hdepth.
    repeat (apply orb_true_iff in Hdepth as [Hdepth|Hdepth]);
      apply Z.eqb_eq in Hdepth; rewrite Hdepth; in_events. }
  split; [done|]. split; [done|]. split; [|done].
  unfold unsupported_subsampling in Hsub. apply negb_false_iff in Hsub.
  unfold pick_pixelFormat.
  repeat (apply orb_true_iff in Hsub as [Hsub|Hsub]);
    apply andb_true_iff in Hsub as [Hsw Hsh]; apply Z.eqb_eq in Hsw, Hsh;
    rewrite Hsw, Hsh; cbn; in_events.
Qed.

Lemma std_count_absent l x : x ∉ l -> std_count l x = 0.
Proof.
  induction l as [|y l IH]; cbn; [done|]. intros Hx.
  apply not_elem_of_cons in Hx as [Hne Hx]. rewrite (IH Hx).
  destruct (Z.eqb_spec y x); [congruence|done].
Qed.

Lemma NoDup_not_duplicated l x : NoDup l -> duplicated l x = false.
Proof.
  unfold duplicated. induction 1 as [|y l Hy _ IH]; cbn; [done|].
  destruct (Z.eqb_spec y x) as [->|Hne].
  - rewrite (std_count_absent _ _ Hy). done.
  - apply Z.ltb_ge. apply Z.ltb_ge in IH. lia.
Qed.

Lemma elem_in_list (l : list Z) j :
  0 <= j < Z.of_nat (length l) -> elem l j ∈ l.
Proof.
  intros Hj. unfold elem.
  destruct (lookup_lt_is_Some_2 l (Z.to_nat j)) as [x Hx]; [lia|].
  rewrite Hx. cbn. by eapply list_elem_of_lookup_2.
Qed.

(** Why an iteration of the model loop throws. *)
Lemma model_body_failure l i d e d1 new1 :
  model_body_outcome l i d (inr e) d1 new1 ->
  (e = std_string "model must be 0, 1, 2, or 3"
   /\ model_out_of_range (elem l i) = true /\ new1 = [])
  \/ (e = std_string "duplicate model specified"
      /\ model_out_of_range (elem l i) = false
      /\ duplicated l (elem l i) = true /\ new1 = [])
  \/ (exists c code,
        (c, code) ∈ new1 /\ code <> 0 /\ is_model_load c = false
        /\ (e = std_string ("failed to load feature extractors from model: "
                            +:+ at_index modelVersion (elem l i))
            \/ e = std_string ("failed to load model: "
                               +:+ at_index modelVersion (elem l i))
            \/ e = std_string ("failed to load feature extractors from model collection: "
                               +:+ at_index modelVersion (elem l i)))).
Proof.
  inversion 1 as [| |p r d2 ? ? ? Hr|p r1 p2 c r2|p r1 p2 c r d2 ? ? ? ? Hr]; subst.
  - by left.
  - right. by left.
  - right. right. destruct (Z.eqb_spec r 0) as [|Hne]; [done|]. injection Hr as <-.
    eexists _, r. split; [apply list_elem_of_further, list_elem_of_here|]. eauto.
  - right. right.
    eexists _, r2. split; [apply list_elem_of_further, list_elem_of_here|]. eauto.
  - right. right. destruct (Z.eqb_spec r 0) as [|Hne]; [done|]. injection Hr as <-.
    eexists _, r. split; [do 2 apply list_elem_of_further; apply list_elem_of_here|].
    eauto 6.
Qed.

Lemma feature_body_failure l i d e d1 new1 :
  feature_body_outcome l i d (inr e) d1 new1 ->
  (e = std_string "feature must be 0, 1, 2, 3, or 4"
   /\ feature_out_of_range (elem l i) = true /\ new1 = [])
  \/ (e = std_string "duplicate feature specified"
      /\ feature_out_of_range (elem l i) = false
      /\ duplicated l (elem l i) = true /\ new1 = [])
  \/ (exists c code,
        (c, code) ∈ new1 /\ code <> 0 /\ is_model_load c = false
        /\ e = std_string ("failed to load feature extractor: "
                           +:+ at_index featureName (elem l i))).
Proof.
  inversion 1; subst.
  - by left.
  - right. by left.
  - right. right. eexists _, _. split; [apply list_elem_of_here|]. eauto.
Qed.

Lemma log_format_accepted lf :
  (forall x, lf = Some x -> 0 <= x <= 3) ->
  log_format_out_of_range (mapGetIntSaturated lf) = false.
Proof.
  intros H. destruct lf as [x|]; [|done]. cbn. apply log_format_in_range. by apply H.
Qed.

(** X14.  A request that passes every check is served whenever the engine
    cooperates: for clips of a supported format that match, a [log_format]
    of 0..3 or none, models of 0..3 and features of 0..4 without
    duplicates, [vmafCreate] registers the filter if no call fails, a
    singleton load apart (the collection load that follows it has to
    succeed). *)
Theorem valid_request_creates_the_filter in_ userData tr0 r s new :
  vmafCreate W in_ userData {| data := make_unique_VMAFData; trace := tr0 |} = (r, s) ->
  trace s = tr0 ++ new ->
  supported (getVideoInfo (in_reference in_)) ->
  clips_match in_ ->
  (forall x, in_log_format in_ = Some x -> 0 <= x <= 3) ->
  Forall (fun m => 0 <= m <= 3) (mapGetIntArray (in_model in_)) ->
  NoDup (mapGetIntArray (in_model in_)) ->
  Forall (fun f => 0 <= f <= 4) (mapGetIntArray (in_feature in_)) ->
  NoDup (mapGetIntArray (in_feature in_)) ->
  Forall (fun e : Event => e.2 = 0 \/ is_model_load e.1 = true) new ->
  r = inl tt
  /\ last new
     = Some (createVideoFilter userData (getVideoInfo (in_reference in_)) (data s), 0).
Proof.
  intros Hrun Htr (Hfmt & Hdepth & Hsub) [Hsame Hframes] Hlf Hmr Hmd Hfr Hfd Hok.
  destruct (vmafCreate_run W in_ userData {| data := make_unique_VMAFData; trace := tr0 |})
    as (r' & d' & new' & Heq & Hout).
  rewrite Heq in Hrun. injection Hrun as <- <-. cbn [data trace] in *.
  apply app_inv_head in Htr. subst new'.
  pose proof (log_format_accepted _ Hlf) as Hlog.
  rewrite Forall_forall in Hok. rewrite Forall_forall in Hmr. rewrite Forall_forall in Hfr.
  assert (Hfailed : forall c code (tr : list Event),
             (c, code) ∈ tr -> (forall e, e ∈ tr -> e ∈ new) ->
             code <> 0 -> is_model_load c = false -> False).
  { intros c code tr Hin Hsub' Hcode Hc. apply Hsub', Hok in Hin. cbn in Hin.
    destruct Hin; congruence. }
  assert (Hno : forall e d before,
             create_try_outcome in_ userData (numThreads W) make_unique_VMAFData
               (inr e) d before ->
             (forall e, e ∈ before -> e ∈ new) -> False).
  { intros e d before Htry Hsub'.
    inversion Htry as [| | | |ctx r0|ctx cu r0|ctx cu r0| |
                       |ctx cu e' d1 new1 ? ? ? Hm
                       |ctx cu d1 new1 e' d2 new2 ? ? ? Hm Hf|]; subst; try congruence.
    - eapply (Hfailed (vmaf_init (numThreads W) 1) r0); eauto. in_events.
    - eapply (Hfailed vmaf_cuda_state_init r0); eauto. in_events.
    - eapply (Hfailed (vmaf_cuda_import_state ctx cu) r0); eauto.
      unfold init_events. in_events.
    - unfold models_outcome in Hm. rewrite length_mapGetIntArray in Hm.
      apply loop_thrown_at in Hm as (j & dj & pre & new3 & Hj & Hb & ->).
      apply model_body_failure in Hb
        as [(_ & Hr & _)|[(_ & _ & Hd & _)|(c & code & Hin & Hcode & Hc & _)]].
      + assert (Hel : elem (mapGetIntArray (in_model in_)) j ∈ mapGetIntArray (in_model in_))
          by (apply elem_in_list; lia).
        apply Hmr in Hel as Hrange.
        unfold model_out_of_range in Hr. lia.
      + by rewrite NoDup_not_duplicated in Hd.
      + eapply (Hfailed c code); eauto. intros ev Hev. apply Hsub'. in_events.
    - unfold features_outcome in Hf. rewrite length_mapGetIntArray in Hf.
      apply loop_thrown_at in Hf as (j & dj & pre & new3 & Hj & Hb & ->).
      apply feature_body_failure in Hb
        as [(_ & Hr & _)|[(_ & _ & Hd & _)|(c & code & Hin & Hcode & Hc & _)]].
      + assert (Hel : elem (mapGetIntArray (in_feature in_)) j
                      ∈ mapGetIntArray (in_feature in_))
          by (apply elem_in_list; lia).
        apply Hfr in Hel as Hrange.
        unfold feature_out_of_range in Hr. lia.
      + by rewrite NoDup_not_duplicated in Hd.
      + eapply (Hfailed c code); eauto. intros ev Hev. apply Hsub'. in_events. }
  destruct Hout as [d before Htry|error d before Htry|what d before Htry].
  - destruct (create_try_nodes _ _ _ _ _ _ _ Htry) as (-> & _ & _ & ->).
    split; [done|]. by rewrite last_snoc.
  - exfalso. eapply Hno; [exact Htry|]. intros ev Hev. in_events.
  - exfalso. eapply Hno; [exact Htry|]. done.
Qed.

(** ** From creation to teardown *)

Lemma small_to_int z : 0 <= z <= 4 -> to_int z = z.
Proof. intros Hz. unfold to_int. rewrite Z.mod_small; lia. Qed.

(** X15.  The teardown of a created filter, when it is the first of the
    process, works on what was passed at creation: the first two calls
    free the reference and the distorted node of the request, and the log
    is written once, to the path that [log_path] holds as a C string (its
    bytes before the first NUL), in the format [log_format] + 1, one of 1
    to 4 (1 when the argument was left out).  [vmafCreate] itself writes
    no log. *)
Theorem teardown_uses_the_arguments in_ userData tr0 r0 s0 new0 name v d tr1 r s new :
  vmafCreate W in_ userData {| data := make_unique_VMAFData; trace := tr0 |}
    = (r0, s0) ->
  trace s0 = tr0 ++ new0 ->
  (createVideoFilter name v d, 0) ∈ new0 ->
  made_by_an_earlier_call tr1 = false ->
  vmafFree W {| data := d; trace := tr1 |} = (r, s) ->
  trace s = tr1 ++ new ->
  take 2 (without_log new) = [freeNode (in_reference in_); freeNode (in_distorted in_)]
  /\ vmaf_write_output (vmaf d) (c_string (in_log_path in_))
       (mapGetIntSaturated (in_log_format in_) + 1) ∈ without_log new
  /\ 1 <= mapGetIntSaturated (in_log_format in_) + 1 <= 4
  /\ (in_log_format in_ = None -> mapGetIntSaturated (in_log_format in_) + 1 = 1)
  /\ count_if is_write_output new = 1%nat
  /\ count_if is_write_output new0 = 0%nat.
Proof.
  intros Hrun0 Htr0 Hin Hfirst Hrun Htr.
  destruct (vmafCreate_run W in_ userData {| data := make_unique_VMAFData; trace := tr0 |})
    as (r' & d' & new' & Heq & Hout).
  rewrite Heq in Hrun0. injection Hrun0 as <- <-. cbn [data trace] in *.
  apply app_inv_head in Htr0. subst new'.
  destruct (created_inv _ _ _ _ _ _ _ _ _ _ _ Hout Hin)
    as (-> & -> & -> & -> & _ & before & Htry & ->).
  clear Hout Hin Heq.
  destruct (vmafFree_run W d tr1 Hfirst) as (new' & Heq & [Hcalls _ _]).
  rewrite Heq in Hrun. injection Hrun as <- <-. cbn [trace] in Htr.
  apply app_inv_head in Htr. subst new'. clear Heq.
  destruct (created_data _ _ _ _ _ _ Htry) as (_ & Href & Hdist & _ & Hpath & Hfmt & _).
  destruct (created_checked _ _ _ _ _ _ Htry) as (_ & Hlog & _).
  pose proof (create_try_calls _ _ _ _ _ _ _ Htry) as Hsetup.
  assert (Hrange : 0 <= mapGetIntSaturated (in_log_format in_) <= 3).
  { unfold log_format_out_of_range in Hlog. apply orb_false_iff in Hlog as [H1 H2].
    apply Z.ltb_ge in H1, H2. lia. }
  rewrite small_to_int in Hfmt by lia.
  rewrite Hcalls. unfold teardown_calls. rewrite Href, Hdist, Hpath, Hfmt.
  split; [done|]. split; [in_events|]. split; [lia|]. split; [by intros ->|]. split.
  - rewrite (count_if_without_log is_write_output) by (by intros []).
    rewrite Hcalls. unfold teardown_calls. rewrite !map_app, !count_if_app, !map_map.
    rewrite !count_if_map_none by done. done.
  - rewrite count_if_app. rewrite (count_if_setup _ _ Hsetup) by (by intros []). done.
Qed.

(** ** Errors *)







(** ** How failures are reported *)

(** X17.  Each callback reports its failures in its own way and in no
    other: [vmafCreate] through the error of the output map, at most once;
    [vmafGetFrame] through the error of the frame context, at most once;
    [vmafFree] through log messages.  None of them uses the way of
    another. *)
Theorem each_callback_reports_its_own_way in_ userData d n reason frameCtx tr0 tr1 tr2 :
  let created := vmafCreate W in_ userData {| data := make_unique_VMAFData; trace := tr0 |} in
  let frame := vmafGetFrame W n reason frameCtx {| data := d; trace := tr1 |} in
  let freed := vmafFree W {| data := d; trace := tr2 |} in
  exists new0 new1 new2,
    trace created.2 = tr0 ++ new0
    /\ trace frame.2 = tr1 ++ new1
    /\ trace freed.2 = tr2 ++ new2
    /\ (count_if is_mapSetError new0 <= 1)%nat
    /\ count_if is_setFilterError new0 = 0%nat
    /\ count_if is_logMessage new0 = 0%nat
    /\ (count_if is_setFilterError new1 <= 1)%nat
    /\ count_if is_mapSetError new1 = 0%nat
    /\ count_if is_logMessage new1 = 0%nat
    /\ count_if is_mapSetError new2 = 0%nat
    /\ count_if is_setFilterError new2 = 0%nat.
Proof.
  intros created frame freed.
  destruct (vmafCreate_run W in_ userData {| data := make_unique_VMAFData; trace := tr0 |})
    as (r0 & d0 & new0 & Heq0 & Hout).
  destruct (vmafFree_steps W d tr2) as (r2 & new2 & Heq2 & Hsteps).
  assert (Hframe : exists new1,
             trace frame.2 = tr1 ++ new1
             /\ (count_if is_setFilterError new1 <= 1)%nat
             /\ count_if is_mapSetError new1 = 0%nat
             /\ count_if is_logMessage new1 = 0%nat).
  { subst frame. destruct reason.
    - exists [(requestFrameFilter n (reference d), 0); (requestFrameFilter n (distorted d), 0)].
      unfold vmafGetFrame. rewrite run_bind. cbn [get_data data trace].
      do 2 (rewrite run_bind; cbn [call_void data trace]).
      cbn. rewrite <- app_assoc. split; [done|]. split; [lia|done].
    - destruct (ready_run d n frameCtx tr1) as (r1 & new1 & Hout1 & ->).
      set (rf := frame_of (reference d) n) in *. set (df := frame_of (distorted d) n) in *.
      assert (Hcount : forall p, (forall c, is_bitblt c = true -> p c = false) ->
                                 count_if p (expected_copies W d rf df) = 0%nat)
        by (intros p; apply expected_copies_count).
      destruct Hout1; eexists; (split; [cbn [snd trace]; reflexivity|]);
        counts; rewrite ?Hcount by (by intros []); cbn; (split; [lia|done]).
    - exists []. unfold vmafGetFrame. rewrite run_bind. cbn. rewrite app_nil_r.
      split; [done|]. split; [lia|done]. }
  destruct Hframe as (new1 & Htr1 & Hf1 & Hf2 & Hf3).
  exists new0, new1, new2. subst created freed. rewrite Heq0, Heq2. cbn [snd trace].
  split; [done|]. split; [done|]. split; [done|].
  assert (Hcreate : (count_if is_mapSetError new0 <= 1)%nat
                    /\ count_if is_setFilterError new0 = 0%nat
                    /\ count_if is_logMessage new0 = 0%nat).
  { destruct Hout as [d1 before Htry|error d1 before Htry|what d1 before Htry];
      pose proof (create_try_calls _ _ _ _ _ _ _ Htry) as Hsetup.
    - rewrite !count_if_app, !(count_if_setup _ _ Hsetup) by (by intros []). cbn. lia.
    - rewrite !count_if_app, !abort_events_count, !(count_if_setup _ _ Hsetup)
        by (by intros []).
      rewrite !count_if_map_none by done. cbn. lia.
    - rewrite !(count_if_setup _ _ Hsetup) by (by intros []). lia. }
  destruct Hcreate as (Hc1 & Hc2 & Hc3).
  do 6 (split; [done|]).
  split.
  - apply (steps_outcome_count _ _ _ _ _ _ Hsteps); [by intros []|].
    unfold teardown_calls. rewrite !map_app, !count_if_app, !map_map.
    rewrite !count_if_map_none by done. done.
  - apply (steps_outcome_count _ _ _ _ _ _ Hsteps); [by intros []|].
    unfold teardown_calls. rewrite !map_app, !count_if_app, !map_map.
    rewrite !count_if_map_none by done. done.
Qed.

(** ** The order of the checks *)

Lemma elem_middle (done_ rest : list Z) x :
  elem (done_ ++ x :: rest) (Z.of_nat (length done_)) = x.
Proof. unfold elem. by rewrite Nat2Z.id, list_lookup_middle. Qed.

(** The model loop on a list whose first entry that is out of range or
    duplicated is [bad], when no call fails: the entries before it are
    loaded, then the loop throws. *)
Lemma model_loop_rejects l pre : forall done_ bad post left i d r d' new,
  loop_outcome (model_body_outcome l) left i d r d' new ->
  l = done_ ++ pre ++ bad :: post ->
  i = Z.of_nat (length done_) ->
  left = length (pre ++ bad :: post) ->
  Forall (fun m => model_out_of_range m = false /\ duplicated l m = false) pre ->
  model_out_of_range bad = true \/ duplicated l bad = true ->
  Forall (fun e : Event => e.2 = 0) new ->
  r = inr (std_string (if model_out_of_range bad then "model must be 0, 1, 2, or 3"
                       else "duplicate model specified"))
  /\ map fst (select is_model_load new)
     = map (fun m => vmaf_model_load (at_index modelName m) (at_index modelVersion m)) pre.
Proof.
  induction pre as [|m pre IH]; intros done_ bad post left i d r d' new Hloop Hl Hi Hleft
    Hpre Hbad Hok.
  - cbn [app] in Hl, Hleft. cbn [length] in Hleft. subst left i.
    assert (Hel : elem l (Z.of_nat (length done_)) = bad) by (subst l; apply elem_middle).
    inversion Hloop as [| left' i' d0 d1 new1 r' d2 new2 H1 H2|left' i' d0 e d1 new1 H1];
      subst.
    + apply model_body_checked in H1 as [Hr Hd]. rewrite Hel in Hr, Hd.
      destruct Hbad; congruence.
    + apply model_body_failure in H1
        as [(-> & Hr & ->)|[(-> & Hr & Hd & ->)|(c & code & Hin & Hcode & _)]].
      * rewrite Hel in Hr. by rewrite Hr.
      * rewrite Hel in Hr. by rewrite Hr.
      * exfalso. rewrite Forall_forall in Hok. apply Hok in Hin. done.
  - apply Forall_cons in Hpre as [[Hmr Hmd] Hpre].
    cbn [app length] in Hleft. subst left i.
    assert (Hel : elem l (Z.of_nat (length done_)) = m)
      by (subst l; cbn [app]; apply elem_middle).
    inversion Hloop as [| left' i' d0 d1 new1 r' d2 new2 H1 H2|left' i' d0 e d1 new1 H1];
      subst.
    + apply Forall_app in Hok as [Hok1 Hok2].
      assert (Hl' : done_ ++ (m :: pre) ++ bad :: post = (done_ ++ [m]) ++ pre ++ bad :: post)
        by (by rewrite <- app_assoc).
      assert (Hi' : Z.of_nat (length done_) + 1 = Z.of_nat (length (done_ ++ [m])))
        by (rewrite length_app; cbn; lia).
      destruct (IH (done_ ++ [m]) bad post _ _ _ _ _ _ H2 Hl' Hi' eq_refl Hpre Hbad Hok2)
        as [-> Hloads].
      split; [done|]. rewrite select_app, map_app. unfold Event in *.
      rewrite (model_body_loads _ _ _ _ _ I H1), Hel, Hloads. done.
    + exfalso. apply model_body_failure in H1
        as [(_ & Hr & _)|[(_ & _ & Hd & _)|(c & code & Hin & Hcode & _)]].
      * rewrite Hel in Hr. congruence.
      * rewrite Hel in Hd. congruence.
      * rewrite Forall_forall in Hok. apply Hok in Hin. done.
Qed.

(** The [try] block of a request that passes the checks of the clips and
    of [log_format], when no call fails, gets to the model loop. *)
Lemma create_try_reaches_models in_ userData nt d0 r d new :
  create_try_outcome in_ userData nt d0 r d new ->
  supported (getVideoInfo (in_reference in_)) ->
  log_format_out_of_range (mapGetIntSaturated (in_log_format in_)) = false ->
  clips_match in_ ->
  Forall (fun e : Event => e.2 = 0) new ->
  exists ctx cu rm dm new1 rest,
    models_outcome in_ (sized in_ (initialised in_ userData d0 ctx cu)) rm dm new1
    /\ new = init_events nt ctx cu 0 ++ new1 ++ rest
    /\ (forall e, rm = inr e -> r = inr e /\ rest = [] /\ d = dm).
Proof.
  intros Htry (Hfmt & Hdepth & Hsub) Hlog [Hsame Hframes] Hok.
  assert (Hfailed : forall c code, (c, code) ∈ new -> code <> 0 -> False).
  { intros c code Hin Hcode. rewrite Forall_forall in Hok. by apply Hok in Hin. }
  destruct Htry as [ | | | |ctx r0|ctx cu r0|ctx cu r0| |
                   |ctx cu e d1 new1 ? ? ? Hm
                   |ctx cu d1 new1 e d2 new2 ? ? ? Hm Hf
                   |ctx cu d1 new1 d2 new2 ? ? ? Hm Hf]; try congruence.
  - exfalso. eapply (Hfailed (vmaf_init nt 1) r0); [in_events|done].
  - exfalso. eapply (Hfailed vmaf_cuda_state_init r0); [in_events|done].
  - exfalso. eapply (Hfailed (vmaf_cuda_import_state ctx cu) r0); [|done].
    unfold init_events. in_events.
  - exists ctx, cu, (inr e), d1, new1, []. rewrite app_nil_r. split; [done|].
    split; [done|]. by intros ? [= ->].
  - exists ctx, cu, (inl tt), d1, new1, new2. split; [done|]. split; [done|]. done.
  - exists ctx, cu, (inl tt), d1, new1, new2. split; [done|]. split; [done|]. done.
Qed.

(** X18.  The models of a request are checked one at a time, as they are
    loaded: when no call fails, the models that stand before the first
    entry that is out of range or duplicated are loaded before the request
    is rejected for that entry.  The clean-up then destroys one entry of
    the model vector for every model of the request. *)
Theorem models_are_checked_one_at_a_time in_ userData tr0 r s new pre bad post :
  vmafCreate W in_ userData {| data := make_unique_VMAFData; trace := tr0 |} = (r, s) ->
  trace s = tr0 ++ new ->
  supported (getVideoInfo (in_reference in_)) ->
  clips_match in_ ->
  (forall x, in_log_format in_ = Some x -> 0 <= x <= 3) ->
  in_model in_ = Some (pre ++ bad :: post) ->
  Forall (fun m => 0 <= m <= 3 /\ std_count (pre ++ bad :: post) m <= 1) pre ->
  ~ 0 <= bad <= 3 \/ 1 < std_count (pre ++ bad :: post) bad ->
  Forall (fun e : Event => e.2 = 0) new ->
  map fst (select is_model_load new)
  = map (fun m => vmaf_model_load (at_index modelName m) (at_index modelVersion m)) pre
  /\ (mapSetError (userData +:+ ": "
                   +:+ (if model_out_of_range bad then "model must be 0, 1, 2, or 3"
                        else "duplicate model specified")), 0) ∈ new
  /\ count_if is_model_destroy new = length (pre ++ bad :: post).
Proof.
  intros Hrun Htr Hsup Hmatch Hlf Hmodels Hpre Hbad Hok.
  destruct (vmafCreate_run W in_ userData {| data := make_unique_VMAFData; trace := tr0 |})
    as (r' & d' & new' & Heq & Hout).
  rewrite Heq in Hrun. injection Hrun as <- <-. cbn [data trace] in *.
  apply app_inv_head in Htr. subst new'.
  pose proof (log_format_accepted _ Hlf) as Hlog.
  set (l := pre ++ bad :: post) in *.
  assert (Hl : mapGetIntArray (in_model in_) = l) by (by rewrite Hmodels).
  assert (Hpre' : Forall (fun m => model_out_of_range m = false /\ duplicated l m = false)
                    pre).
  { eapply Forall_impl; [exact Hpre|]. intros m [Hr Hd]. unfold model_out_of_range, duplicated.
    split; [lia|]. apply Z.ltb_ge. lia. }
  assert (Hbad' : model_out_of_range bad = true \/ duplicated l bad = true).
  { unfold model_out_of_range, duplicated. destruct Hbad; [left|right]; lia. }
  assert (Hrejects : forall r1 d1 before,
             create_try_outcome in_ userData (numThreads W) make_unique_VMAFData
               r1 d1 before ->
             Forall (fun e : Event => e.2 = 0) before ->
             r1 = inr (std_string (if model_out_of_range bad
                                   then "model must be 0, 1, 2, or 3"
                                   else "duplicate model specified"))
             /\ map fst (select is_model_load before)
                = map (fun m => vmaf_model_load (at_index modelName m)
                                  (at_index modelVersion m)) pre
             /\ exists ctx cu, (vmaf_cuda_import_state ctx cu, 0) ∈ before).
  { intros r1 d1 before Htry Hzero.
    destruct (create_try_reaches_models _ _ _ _ _ _ _ Htry Hsup Hlog Hmatch Hzero)
      as (ctx & cu & rm & dm & new1 & rest & Hm & -> & Hrm).
    unfold models_outcome in Hm. rewrite length_mapGetIntArray, Hl in Hm.
    apply Forall_app in Hzero as [_ Hzero]. apply Forall_app in Hzero as [Hzero _].
    destruct (model_loop_rejects l pre [] bad post _ _ _ _ _ _ Hm eq_refl eq_refl eq_refl
                Hpre' Hbad' Hzero) as [-> Hloads].
    destruct (Hrm _ eq_refl) as (-> & -> & _).
    split; [done|]. split.
    - rewrite !select_app, !map_app, app_nil_r.
      rewrite (select_none _ (init_events _ _ _ _)) by (by repeat constructor).
      exact Hloads.
    - exists ctx, cu. unfold init_events. in_events. }
  destruct Hout as [d before Htry|error d before Htry|what d before Htry].
  - apply Forall_app in Hok as [Hok _]. by destruct (Hrejects _ _ _ Htry Hok).
  - apply Forall_app in Hok as [Hok _].
    destruct (Hrejects _ _ _ Htry Hok) as ([= ->] & Hloads & (ctx & cu & Himp)).
    pose proof (create_try_calls _ _ _ _ _ _ _ Htry) as Hcalls.
    destruct (create_try_vectors _ _ _ _ _ _ _ Htry eq_refl eq_refl)
      as (_ & _ & _ & Hsized).
    split; [|split].
    + rewrite select_app, map_app.
      rewrite (select_none _ (abort_events _ _)), app_nil_r; [exact Hloads|].
      eapply Forall_impl; [apply abort_events_not_setup|]. intros [c x] H. by destruct c.
    + apply elem_of_app. right. unfold abort_events.
      rewrite (create_try_filterName _ _ _ _ _ _ _ Htry). in_events.
    + rewrite count_if_app, abort_events_count.
      rewrite (count_if_setup _ _ Hcalls) by (by intros []).
      rewrite count_if_map_all, count_if_map_none by done. cbn.
      rewrite Hsized by eauto. rewrite Hl. lia.
  - by destruct (Hrejects _ _ _ Htry Hok).
Qed.

(** X19.  The two clips are compared only after the engine was set up:
    when they do not match (and the format of the reference clip and
    [log_format] pass), [vmaf_init], [vmaf_cuda_state_init] and
    [vmaf_cuda_import_state] have been called before the mismatch is
    reported.  The context that is imported into and that the clean-up
    closes is the one that [vmaf_init] just stored, made for nothing, and
    the CUDA state is the one that [vmaf_cuda_state_init] stored.  No
    model is loaded. *)
Theorem clips_are_compared_after_the_engine_is_set_up in_ userData tr0 r s new :
  vmafCreate W in_ userData {| data := make_unique_VMAFData; trace := tr0 |} = (r, s) ->
  trace s = tr0 ++ new ->
  supported (getVideoInfo (in_reference in_)) ->
  (forall x, in_log_format in_ = Some x -> 0 <= x <= 3) ->
  ~ clips_match in_ ->
  Forall (fun e : Event => e.2 = 0) new ->
  r = inl tt
  /\ exists ctx cu error,
       new = [(vmaf_init (numThreads W) 1, 0);
              (vmaf_cuda_state_init, 0);
              (vmaf_cuda_import_state ctx cu, 0);
              (mapSetError (userData +:+ ": " +:+ error), 0);
              (freeNode (in_reference in_), 0);
              (freeNode (in_distorted in_), 0);
              (vmaf_close ctx, 0)]
       /\ ctx = stored W tr0 (vmaf_init (numThreads W) 1)
       /\ cu = stored W (tr0 ++ [(vmaf_init (numThreads W) 1, 0)]) vmaf_cuda_state_init
       /\ (error = "both clips must have the same format and dimensions"%string
           \/ error = "both clips' number of frames do not match"%string).
Proof.
  intros Hrun Htr (Hfmt & Hdepth & Hsub) Hlf Hdiffer Hok.
  destruct (vmafCreate_stored W in_ userData
              {| data := make_unique_VMAFData; trace := tr0 |})
    as (r' & d' & new' & Heq & Hout & [Hc1 Hc2] & _).
  rewrite Heq in Hrun. injection Hrun as <- <-. cbn [data trace] in *.
  apply app_inv_head in Htr. subst new'.
  pose proof (log_format_accepted _ Hlf) as Hlog.
  assert (Hfailed : forall c code (tr : list Event),
             (c, code) ∈ tr -> Forall (fun e : Event => e.2 = 0) tr -> code <> 0 -> False).
  { intros c code tr Hin HF Hcode. rewrite Forall_forall in HF. by apply HF in Hin. }
  destruct Hout as [d before Htry|error d before Htry|what d before Htry];
    [apply Forall_app in Hok as [Hok _]|apply Forall_app in Hok as [Hok _]|];
    inversion Htry as [ | | | |ctx r0|ctx cu r0|ctx cu r0|ctx cu|ctx cu
                       |ctx cu e d1 new1 ? ? ? Hm
                       |ctx cu d1 new1 e d2 new2 ? ? ? Hm Hf
                       |ctx cu d1 new1 d2 new2 ? ? ? Hm Hf]; subst; try congruence;
    try (exfalso; eapply Hfailed; [|exact Hok|eassumption]; unfold init_events; in_events).
  - pose proof (Hc1 _ _ eq_refl) as Hctx. pose proof (Hc2 _ _ eq_refl) as Hcu.
    split; [done|]. exists ctx, cu, "both clips must have the same format and dimensions"%string.
    split; [done|]. split; [done|]. split; [done|]. by left.
  - pose proof (Hc1 _ _ eq_refl) as Hctx. pose proof (Hc2 _ _ eq_refl) as Hcu.
    split; [done|]. exists ctx, cu, "both clips' number of frames do not match"%string.
    split; [done|]. split; [done|]. split; [done|]. by right.
Qed.

(** ** The string tables *)

Lemma model_in_tables m :
  model_out_of_range m = false ->
  exists i : nat,
    modelName !! i = Some (at_index modelName m)
    /\ modelVersion !! i = Some (at_index modelVersion m).
Proof.
  unfold model_out_of_range. intros H. exists (Z.to_nat m).
  assert (Hm : m = 0 \/ m = 1 \/ m = 2 \/ m = 3) by lia.
  destruct Hm as [-> | [-> | [-> | ->]]]; done.
Qed.

Lemma feature_in_table f :
  feature_out_of_range f = false ->
  exists i : nat, featureName !! i = Some (at_index featureName f).
Proof.
  unfold feature_out_of_range. intros H. exists (Z.to_nat f).
  assert (Hf : f = 0 \/ f = 1 \/ f = 2 \/ f = 3 \/ f = 4) by lia.
  destruct Hf as [-> | [-> | [-> | [-> | ->]]]]; done.
Qed.

Lemma model_body_tables l i d r d1 new1 :
  model_body_outcome l i d r d1 new1 ->
  Forall (fun e : Event => names_table_entry e.1) new1.
Proof.
  destruct 1;
    repeat first [ apply Forall_nil_2 | apply Forall_cons_2 ]; cbn;
    first [ by apply model_in_tables | done ].
Qed.

Lemma feature_body_tables l i d r d1 new1 :
  feature_body_outcome l i d r d1 new1 ->
  Forall (fun e : Event => names_table_entry e.1) new1.
Proof.
  destruct 1;
    repeat first [ apply Forall_nil_2 | apply Forall_cons_2 ]; cbn;
    first [ by apply feature_in_table | done ].
Qed.

(** X20.  The string tables are never read out of range.  In every run of
    [vmafCreate], whatever its outcome, a call that loads a model passes a
    name of [modelName] and the version that stands at the same index of
    [modelVersion], and a call that registers a feature passes a name of
    [featureName]. *)
Theorem tables_are_read_in_range in_ userData tr0 r s new :
  vmafCreate W in_ userData {| data := make_unique_VMAFData; trace := tr0 |} = (r, s) ->
  trace s = tr0 ++ new ->
  (forall name version code,
      (vmaf_model_load name version, code) ∈ new
      \/ (vmaf_model_collection_load name version, code) ∈ new ->
      exists i : nat, modelName !! i = Some name /\ modelVersion !! i = Some version)
  /\ (forall ctx name code,
        (vmaf_use_feature ctx name, code) ∈ new ->
        exists i : nat, featureName !! i = Some name).
Proof.
  intros Hrun Htr.
  destruct (vmafCreate_run W in_ userData {| data := make_unique_VMAFData; trace := tr0 |})
    as (r' & d' & new' & Heq & Hout).
  rewrite Heq in Hrun. injection Hrun as <- <-. cbn [data trace] in *.
  apply app_inv_head in Htr. subst new'.
  assert (Htry : forall r1 d1 before,
             create_try_outcome in_ userData (numThreads W) make_unique_VMAFData
               r1 d1 before ->
             Forall (fun e : Event => names_table_entry e.1) before).
  { intros r1 d1 before H.
    assert (Hm : forall left i d r2 d2 tr,
               loop_outcome (model_body_outcome (mapGetIntArray (in_model in_)))
                 left i d r2 d2 tr ->
               Forall (fun e : Event => names_table_entry e.1) tr).
    { intros left i d r2 d2 tr. apply loop_events. intros. by eapply model_body_tables. }
    assert (Hf : forall left i d r2 d2 tr,
               loop_outcome (feature_body_outcome (mapGetIntArray (in_feature in_)))
                 left i d r2 d2 tr ->
               Forall (fun e : Event => names_table_entry e.1) tr).
    { intros left i d r2 d2 tr. apply loop_events. intros. by eapply feature_body_tables. }
    unfold models_outcome, features_outcome in *.
    destruct H; repeat first [ apply Forall_nil_2 | apply Forall_cons_2; [done|]
                              | apply Forall_app; split ];
      first [ by eapply Hm | by eapply Hf | by repeat constructor ]. }
  assert (Hall : Forall (fun e : Event => names_table_entry e.1) new).
  { destruct Hout as [d before H|error d before H|what d before H].
    - apply Forall_app. split; [by eapply Htry|]. by repeat constructor.
    - apply Forall_app. split; [by eapply Htry|].
      eapply Forall_impl; [apply abort_events_not_setup|]. intros [c x] Hc. by destruct c.
    - by eapply Htry. }
  rewrite Forall_forall in Hall.
  split.
  - intros name version code [Hin|Hin]; exact (Hall _ Hin).
  - intros ctx name code Hin. exact (Hall _ Hin).
Qed.

(** The feature loop on a list whose first entry that is out of range or
    duplicated is [bad], when no call fails: the entries before it are
    registered, then the loop throws. *)
Lemma feature_loop_rejects l pre : forall done_ bad post left i d r d' new,
  loop_outcome (feature_body_outcome l) left i d r d' new ->
  l = done_ ++ pre ++ bad :: post ->
  i = Z.of_nat (length done_) ->
  left = length (pre ++ bad :: post) ->
  Forall (fun f => feature_out_of_range f = false /\ duplicated l f = false) pre ->
  feature_out_of_range bad = true \/ duplicated l bad = true ->
  Forall (fun e : Event => e.2 = 0) new ->
  r = inr (std_string (if feature_out_of_range bad then "feature must be 0, 1, 2, 3, or 4"
                       else "duplicate feature specified"))
  /\ new = map (fun f => (vmaf_use_feature (vmaf d) (at_index featureName f), 0)) pre.
Proof.
  induction pre as [|f pre IH]; intros done_ bad post left i d r d' new Hloop Hl Hi Hleft
    Hpre Hbad Hok.
  - cbn [app] in Hl, Hleft. cbn [length] in Hleft. subst left i.
    assert (Hel : elem l (Z.of_nat (length done_)) = bad) by (subst l; apply elem_middle).
    inversion Hloop as [| left' i' d0 d1 new1 r' d2 new2 H1 H2|left' i' d0 e d1 new1 H1];
      subst.
    + apply feature_body_checked in H1 as [Hr Hd]. rewrite Hel in Hr, Hd.
      destruct Hbad; congruence.
    + apply feature_body_failure in H1
        as [(-> & Hr & ->)|[(-> & Hr & Hd & ->)|(c & code & Hin & Hcode & _)]].
      * rewrite Hel in Hr. by rewrite Hr.
      * rewrite Hel in Hr. by rewrite Hr.
      * exfalso. rewrite Forall_forall in Hok. apply Hok in Hin. done.
  - apply Forall_cons in Hpre as [[Hfr Hfd] Hpre].
    cbn [app length] in Hleft. subst left i.
    assert (Hel : elem l (Z.of_nat (length done_)) = f)
      by (subst l; cbn [app]; apply elem_middle).
    inversion Hloop as [| left' i' d0 d1 new1 r' d2 new2 H1 H2|left' i' d0 e d1 new1 H1];
      subst.
    + apply Forall_app in Hok as [Hok1 Hok2].
      assert (Hl' : done_ ++ (f :: pre) ++ bad :: post = (done_ ++ [f]) ++ pre ++ bad :: post)
        by (by rewrite <- app_assoc).
      assert (Hi' : Z.of_nat (length done_) + 1 = Z.of_nat (length (done_ ++ [f])))
        by (rewrite length_app; cbn; lia).
      destruct (IH (done_ ++ [f]) bad post _ _ _ _ _ _ H2 Hl' Hi' eq_refl Hpre Hbad Hok2)
        as [-> ->].
      split; [done|].
      rewrite (feature_body_registers _ _ _ _ _ _ eq_refl H1), Hel.
      by rewrite (feature_body_context _ _ _ _ _ _ _ H1 eq_refl).
    + exfalso. apply feature_body_failure in H1
        as [(_ & Hr & _)|[(_ & _ & Hd & _)|(c & code & Hin & Hcode & _)]].
      * rewrite Hel in Hr. congruence.
      * rewrite Hel in Hd. congruence.
      * rewrite Forall_forall in Hok. apply Hok in Hin. done.
Qed.

(** The model loop cannot throw on a list of models in range, without
    duplicates, when no call fails. *)
Lemma model_loop_cannot_fail l e d d' new :
  loop_outcome (model_body_outcome l) (length l) 0 d (inr e) d' new ->
  Forall (fun m => 0 <= m <= 3) l ->
  NoDup l ->
  Forall (fun e : Event => e.2 = 0) new ->
  False.
Proof.
  intros Hloop Hrange Hnd Hok.
  apply loop_thrown_at in Hloop as (j & dj & pre & new3 & Hj & Hb & ->).
  apply model_body_failure in Hb
    as [(_ & Hr & _)|[(_ & _ & Hd & _)|(c & code & Hin & Hcode & _)]].
  - assert (Hel : elem l j ∈ l) by (apply elem_in_list; lia).
    rewrite Forall_forall in Hrange. apply Hrange in Hel.
    unfold model_out_of_range in Hr. lia.
  - by rewrite NoDup_not_duplicated in Hd.
  - rewrite Forall_forall in Hok.
    assert (Hzero : (c, code).2 = 0) by (apply Hok; in_events). done.
Qed.

(** The [try] block of a request with valid models that passes the checks
    of the clips and of [log_format], when no call fails, gets to the
    feature loop. *)
Lemma create_try_reaches_features in_ userData nt d0 r d new :
  create_try_outcome in_ userData nt d0 r d new ->
  supported (getVideoInfo (in_reference in_)) ->
  log_format_out_of_range (mapGetIntSaturated (in_log_format in_)) = false ->
  clips_match in_ ->
  Forall (fun m => 0 <= m <= 3) (mapGetIntArray (in_model in_)) ->
  NoDup (mapGetIntArray (in_model in_)) ->
  Forall (fun e : Event => e.2 = 0) new ->
  exists ctx cu d1 new1 rf df new2,
    models_outcome in_ (sized in_ (initialised in_ userData d0 ctx cu)) (inl tt) d1 new1
    /\ features_outcome in_ d1 rf df new2
    /\ new = init_events nt ctx cu 0 ++ new1 ++ new2
    /\ (forall e, rf = inr e -> r = inr e /\ d = df).
Proof.
  intros Htry (Hfmt & Hdepth & Hsub) Hlog [Hsame Hframes] Hmr Hmd Hok.
  assert (Hfailed : forall c code, (c, code) ∈ new -> code <> 0 -> False).
  { intros c code Hin Hcode. rewrite Forall_forall in Hok. by apply Hok in Hin. }
  destruct Htry as [ | | | |ctx r0|ctx cu r0|ctx cu r0| |
                   |ctx cu e d1 new1 ? ? ? Hm
                   |ctx cu d1 new1 e d2 new2 ? ? ? Hm Hf
                   |ctx cu d1 new1 d2 new2 ? ? ? Hm Hf]; try congruence.
  - exfalso. eapply (Hfailed (vmaf_init nt 1) r0); [in_events|done].
  - exfalso. eapply (Hfailed vmaf_cuda_state_init r0); [in_events|done].
  - exfalso. eapply (Hfailed (vmaf_cuda_import_state ctx cu) r0); [|done].
    unfold init_events. in_events.
  - exfalso. unfold models_outcome in Hm. rewrite length_mapGetIntArray in Hm.
    apply Forall_app in Hok as [_ Hok]. by eapply model_loop_cannot_fail.
  - exists ctx, cu, d1, new1, (inr e), d2, new2. do 3 (split; [done|]). by intros ? [= ->].
  - exists ctx, cu, d1, new1, (inl tt), d2, new2. do 3 (split; [done|]). done.
Qed.

(** X21.  The features of a request are checked after its models were
    loaded: when the models are valid and no call fails, every requested
    model is loaded, and the features that stand before the first entry
    that is out of range or duplicated are registered, before the request
    is rejected for that entry.  The clean-up destroys an entry of the
    model vector for every model that was loaded. *)
Theorem features_are_checked_after_the_models in_ userData tr0 r s new pre bad post :
  vmafCreate W in_ userData {| data := make_unique_VMAFData; trace := tr0 |} = (r, s) ->
  trace s = tr0 ++ new ->
  supported (getVideoInfo (in_reference in_)) ->
  clips_match in_ ->
  (forall x, in_log_format in_ = Some x -> 0 <= x <= 3) ->
  Forall (fun m => 0 <= m <= 3) (mapGetIntArray (in_model in_)) ->
  NoDup (mapGetIntArray (in_model in_)) ->
  in_feature in_ = Some (pre ++ bad :: post) ->
  Forall (fun f => 0 <= f <= 4 /\ std_count (pre ++ bad :: post) f <= 1) pre ->
  ~ 0 <= bad <= 4 \/ 1 < std_count (pre ++ bad :: post) bad ->
  Forall (fun e : Event => e.2 = 0) new ->
  map fst (select is_model_load new)
  = map (fun m => vmaf_model_load (at_index modelName m) (at_index modelVersion m))
      (mapGetIntArray (in_model in_))
  /\ select is_feature_call new
     = map (fun f => (vmaf_use_feature (vmaf (data s)) (at_index featureName f), 0)) pre
  /\ (mapSetError (userData +:+ ": "
                   +:+ (if feature_out_of_range bad then "feature must be 0, 1, 2, 3, or 4"
                        else "duplicate feature specified")), 0) ∈ new
  /\ count_if is_model_destroy new = length (mapGetIntArray (in_model in_)).
Proof.
  intros Hrun Htr Hsup Hmatch Hlf Hmr Hmd Hfeatures Hpre Hbad Hok.
  destruct (vmafCreate_run W in_ userData {| data := make_unique_VMAFData; trace := tr0 |})
    as (r' & d' & new' & Heq & Hout).
  rewrite Heq in Hrun. injection Hrun as <- <-. cbn [data trace] in *.
  apply app_inv_head in Htr. subst new'.
  pose proof (log_format_accepted _ Hlf) as Hlog.
  set (l := pre ++ bad :: post) in *.
  assert (Hl : mapGetIntArray (in_feature in_) = l) by (by rewrite Hfeatures).
  assert (Hpre' : Forall (fun f => feature_out_of_range f = false /\ duplicated l f = false)
                    pre).
  { eapply Forall_impl; [exact Hpre|]. intros f [Hr Hd].
    unfold feature_out_of_range, duplicated. split; [lia|]. apply Z.ltb_ge. lia. }
  assert (Hbad' : feature_out_of_range bad = true \/ duplicated l bad = true).
  { unfold feature_out_of_range, duplicated. destruct Hbad; [left|right]; lia. }
  set (message := if feature_out_of_range bad then "feature must be 0, 1, 2, 3, or 4"%string
                  else "duplicate feature specified"%string) in *.
  assert (Hrejects : forall r1 d1 before,
             create_try_outcome in_ userData (numThreads W) make_unique_VMAFData
               r1 d1 before ->
             Forall (fun e : Event => e.2 = 0) before ->
             r1 = inr (std_string message)
             /\ map fst (select is_model_load before)
                = map (fun m => vmaf_model_load (at_index modelName m)
                                  (at_index modelVersion m))
                    (mapGetIntArray (in_model in_))
             /\ select is_feature_call before
                = map (fun f => (vmaf_use_feature (vmaf d1) (at_index featureName f), 0)) pre
             /\ length (model d1) = length (mapGetIntArray (in_model in_))).
  { intros r1 d1 before Htry Hzero.
    destruct (create_try_reaches_features _ _ _ _ _ _ _ Htry Hsup Hlog Hmatch Hmr Hmd Hzero)
      as (ctx & cu & dm & new1 & rf & df & new2 & Hm & Hf & -> & Hrf).
    unfold models_outcome in Hm. unfold features_outcome in Hf.
    rewrite length_mapGetIntArray in Hm, Hf. rewrite Hl in Hf.
    apply Forall_app in Hzero as [_ Hzero]. apply Forall_app in Hzero as [_ Hzero2].
    destruct (feature_loop_rejects l pre [] bad post _ _ _ _ _ _ Hf eq_refl eq_refl eq_refl
                Hpre' Hbad' Hzero2) as [-> Hnew2].
    destruct (Hrf _ eq_refl) as (-> & ->).
    destruct (sized_vectors in_ userData make_unique_VMAFData ctx cu eq_refl eq_refl)
      as [Hlen _].
    destruct (model_loop_same_setup _ _ _ _ _ _ _ Hm) as (_ & _ & Hlen1).
    destruct (feature_loop_same_setup _ _ _ _ _ _ _ Hf) as (Hs2 & Hfm & _).
    apply same_setup_fields in Hs2 as (_ & _ & _ & _ & _ & _ & Hv2 & _).
    pose proof (model_loop_calls _ _ _ _ _ _ _ Hm) as Hmc.
    pose proof (feature_loop_calls _ _ _ _ _ _ _ Hf) as Hfc.
    split; [done|]. split; [|split].
    - rewrite !select_app, !map_app.
      rewrite (select_none _ (init_events _ _ _ _)) by (by repeat constructor).
      rewrite (select_none _ new2)
        by (eapply Forall_impl; [exact Hfc|]; intros [c x] H; by destruct c).
      cbn [map app]. rewrite app_nil_r.
      etrans; [|apply (elems_in_order
                         (fun m => vmaf_model_load (at_index modelName m)
                                     (at_index modelVersion m)))].
      apply (loop_collect (model_body_outcome (mapGetIntArray (in_model in_)))
               (fun _ => True) (fun tr => map fst (select is_model_load tr))
               (fun i => [vmaf_model_load
                            (at_index modelName (elem (mapGetIntArray (in_model in_)) i))
                            (at_index modelVersion (elem (mapGetIntArray (in_model in_)) i))])
               _ _ _ _ _ eq_refl
               (fun a b => eq_trans (f_equal (map fst) (select_app _ a b)) (map_app _ _ _))
               (fun _ _ _ _ _ _ _ => I)
               (model_body_loads (mapGetIntArray (in_model in_))) I Hm).
    - rewrite !select_app.
      rewrite (select_none _ (init_events _ _ _ _)) by (by repeat constructor).
      rewrite (select_none _ new1)
        by (eapply Forall_impl; [exact Hmc|]; intros [c x] H; by destruct c).
      cbn [app]. rewrite (select_all _ _ Hfc), Hnew2, Hv2. done.
    - by rewrite Hfm, Hlen1, Hlen. }
  destruct Hout as [d before Htry|error d before Htry|what d before Htry].
  - apply Forall_app in Hok as [Hok _]. by destruct (Hrejects _ _ _ Htry Hok).
  - apply Forall_app in Hok as [Hok _].
    destruct (Hrejects _ _ _ Htry Hok) as ([= ->] & Hloads & Hregs & Hlen).
    pose proof (create_try_calls _ _ _ _ _ _ _ Htry) as Hcalls.
    assert (Hnone : forall p, (forall c, is_setup_call c = false -> p c = false) ->
                              select p (abort_events d message) = []).
    { intros p Hp. apply select_none. eapply Forall_impl; [apply abort_events_not_setup|].
      intros e. apply Hp. }
    split; [|split; [|split]].
    + rewrite select_app, map_app, Hnone, app_nil_r by (by intros []). exact Hloads.
    + rewrite select_app, Hnone, app_nil_r by (by intros []). exact Hregs.
    + apply elem_of_app. right. unfold abort_events.
      rewrite (create_try_filterName _ _ _ _ _ _ _ Htry). in_events.
    + rewrite count_if_app, abort_events_count.
      rewrite (count_if_setup _ _ Hcalls) by (by intros []).
      rewrite count_if_map_all, count_if_map_none by done. cbn. rewrite Hlen. lia.
  - by destruct (Hrejects _ _ _ Htry Hok).
Qed.

(** ** Later teardowns *)



End Properties.

(** * The theorems on the sample clips *)

Ltac in_trace :=
  repeat first [ apply list_elem_of_here | apply list_elem_of_further ].

(** C1 on frame 3 of the sample clips, when nothing fails. *)
Lemma frame_success_returns_reference_witness :
  let run := vmafGetFrame (sample_world nothing_fails) 3 arAllFramesReady 7
               {| data := sample_data; trace := [] |} in
  Forall (fun e : Event => e.2 = 0) (trace run.2)
  /\ run.1 = inl (Some (frame_of (reference sample_data) 3)).
Proof.
  intros run.
  assert (H3 : Forall (fun e : Event => e.2 = 0) (trace run.2))
    by (vm_compute; repeat constructor).
  split; [exact H3|].
  exact (proj1 (frame_success_returns_reference (sample_world nothing_fails)
                  sample_data 3 7 [] run.1 run.2 (trace run.2)
                  (surjective_pairing run) eq_refl H3)).
Defined.

(** C2 on frame 3 of the sample clips, when its submission fails. *)
Lemma frame_failure_unwinds_witness :
  let run := vmafGetFrame (sample_world is_read_pictures) 3 arAllFramesReady 7
               {| data := sample_data; trace := [] |} in
  Exists (fun e : Event => e.2 <> 0) (trace run.2)
  /\ run.1 = inl None.
Proof.
  intros run.
  assert (H3 : Exists (fun e : Event => e.2 <> 0) (trace run.2)).
  { apply Exists_exists. exists (submit_call sample_data 3, -1).
    split; [vm_compute; in_trace|done]. }
  split; [exact H3|].
  exact (proj1 (frame_failure_unwinds (sample_world is_read_pictures)
                  sample_data 3 7 [] run.1 run.2 (trace run.2)
                  (surjective_pairing run) eq_refl H3)).
Defined.

(** C3 as written does not hold: the sample filter has 10 frames, so the last index
    is 9; the flush of its teardown is submitted with index 0, and no call
    with index 9 is made. *)
Lemma teardown_flush_index_counterexample :
  let new := trace (vmafFree (sample_world nothing_fails)
                      {| data := sample_data; trace := [] |}).2 in
  numFrames (vi sample_data) - 1 = 9
  /\ count_if (fun c => bool_decide
                 (c = vmaf_read_pictures (vmaf sample_data) None None
                        (numFrames (vi sample_data) - 1))) new <> 1%nat
  /\ count_if (fun c => bool_decide
                 (c = vmaf_read_pictures (vmaf sample_data) None None 0)) new = 1%nat.
Proof. vm_compute. repeat split; congruence. Qed.

(** C3 on the teardown of the sample filter, the first of its process,
    when writing the log fails. *)
Lemma teardown_runs_every_step_witness :
  let run := vmafFree (sample_world (fun c => bool_decide
                         (c = vmaf_write_output 100 "vmaf.log" 2)))
               {| data := sample_data; trace := [] |} in
  made_by_an_earlier_call [] = false
  /\ 0 < numFrames (vi sample_data) <= INT_MAX
  /\ run.1 = inl tt
  /\ count_if is_logMessage (trace run.2) = 1%nat.
Proof.
  intros run.
  assert (H3 : 0 < numFrames (vi sample_data) <= INT_MAX) by (vm_compute; split; congruence).
  split; [reflexivity|]. split; [exact H3|].
  destruct (teardown_runs_every_step _ sample_data [] run.1 run.2 (trace run.2)
              eq_refl (surjective_pairing run) eq_refl H3) as (Hr & _ & _ & Hlog & _).
  split; [exact Hr|]. rewrite Hlog. vm_compute. reflexivity.
Defined.

(** C4 on the bootstrap model, whose singleton load fails and whose
    collection load succeeds. *)
Lemma model_resolution_witness :
  let run := vmafCreate (sample_world is_model_load) bootstrap_in "VMAF"
               {| data := make_unique_VMAFData; trace := [] |} in
  resolved_by (sample_world is_model_load) [] bootstrap_data 0
    "vmaf_b" "vmaf_b_v0.6.3" (take 6 (trace run.2)).
Proof.
  intros run.
  destruct (model_resolution (sample_world is_model_load) bootstrap_in "VMAF" []
              run.1 run.2 (trace run.2) (surjective_pairing run) eq_refl)
    as (_ & _ & _ & _ & Hcreated).
  destruct (Hcreated "VMAF" (vi bootstrap_data) bootstrap_data)
    as (before & Hnew & _ & Hres).
  { vm_compute. in_trace. }
  assert (Hlen : length (trace run.2) = 7%nat) by (vm_compute; reflexivity).
  assert (before = take 6 (trace run.2)) as <-.
  { rewrite Hnew in Hlen |- *. rewrite length_app in Hlen. cbn in Hlen.
    rewrite take_app_length'; [done|]. clear -Hlen. unfold Event in *. lia. }
  exact (Hres 0%nat 2 eq_refl).
Defined.

(** C5 as written does not hold: the only requested model is resolved as a
    collection, and the teardown still calls the singleton extraction, on
    the handle that the collection load stored into the model vector. *)
Lemma extraction_per_handle_counterexample :
  let created := trace (vmafCreate (sample_world is_model_load) bootstrap_in "VMAF"
                          {| data := make_unique_VMAFData; trace := [] |}).2 in
  let new := trace (vmafFree (sample_world nothing_fails)
                      {| data := bootstrap_data; trace := [] |}).2 in
  mapGetIntArray (in_model bootstrap_in) = [2]
  /\ (vmaf_model_load "vmaf_b" "vmaf_b_v0.6.3", -1) ∈ created
  /\ (vmaf_model_collection_load "vmaf_b" "vmaf_b_v0.6.3", 0) ∈ created
  /\ count_if is_model_load created = 1%nat
  /\ count_if is_score_pooled_model_collection new = 1%nat
  /\ count_if is_score_pooled new <> 0%nat
  /\ (vmaf_score_pooled 100 104 VMAF_POOL_METHOD_MEAN 0 9, 0) ∈ new.
Proof.
  vm_compute. repeat split; try congruence; in_trace.
Qed.

(** C5 on the filter of the bootstrap model. *)
Lemma extraction_per_handle_witness :
  let run0 := vmafCreate (sample_world is_model_load) bootstrap_in "VMAF"
                {| data := make_unique_VMAFData; trace := [] |} in
  let run := vmafFree (sample_world nothing_fails)
               {| data := bootstrap_data; trace := [] |} in
  (createVideoFilter "VMAF" (vi bootstrap_data) bootstrap_data, 0) ∈ trace run0.2
  /\ made_by_an_earlier_call [] = false
  /\ length (model bootstrap_data) = 1%nat
  /\ length (modelCollection bootstrap_data) = 1%nat
  /\ extractions (without_log (trace run.2))
     = [vmaf_score_pooled 100 104 VMAF_POOL_METHOD_MEAN 0 9;
        vmaf_score_pooled_model_collection 100 204 VMAF_POOL_METHOD_MEAN 0 9].
Proof.
  intros run0 run.
  assert (H3 : (createVideoFilter "VMAF" (vi bootstrap_data) bootstrap_data, 0)
                 ∈ trace run0.2) by (vm_compute; in_trace).
  split; [exact H3|]. split; [reflexivity|].
  destruct (extraction_per_handle (sample_world is_model_load) bootstrap_in "VMAF" []
              run0.1 run0.2 (trace run0.2) "VMAF" (vi bootstrap_data) bootstrap_data
              [] run.1 run.2 (trace run.2)
              (surjective_pairing run0) eq_refl H3 eq_refl (surjective_pairing run) eq_refl)
    as (_ & Hm & Hmc & Hex).
  split; [exact Hm|]. split; [by rewrite Hmc|]. rewrite Hex. reflexivity.
Defined.

(** C6 as written does not hold: the reference picture of frame 3 cannot be
    allocated; no plane is copied, the luma plane included. *)
Lemma planes_copied_counterexample :
  let new := trace (vmafGetFrame (sample_world (is_picture_alloc ref)) 3
                      arAllFramesReady 7 {| data := sample_data; trace := [] |}).2 in
  count_if is_bitblt new = 0%nat
  /\ ~ (exists w h, (bitblt ref 0 (frame_of (reference sample_data) 3) w h, 0) ∈ new).
Proof.
  split; [vm_compute; reflexivity|].
  intros (w & h & H). vm_compute in H.
  repeat (apply elem_of_cons in H as [H|H]; [discriminate H|]).
  by apply elem_of_nil in H.
Qed.

(** C6 on frame 3 of the sample filter, which has PSNR among its
    features. *)
Lemma planes_copied_witness :
  let run0 := vmafCreate (sample_world nothing_fails) sample_in "VMAF"
                {| data := make_unique_VMAFData; trace := [] |} in
  let run := vmafGetFrame (sample_world nothing_fails) 3 arAllFramesReady 7
               {| data := sample_data; trace := [] |} in
  (createVideoFilter "VMAF" (vi sample_data) sample_data, 0) ∈ trace run0.2
  /\ numPlanes (format (vi sample_data)) = 3
  /\ (alloc_call sample_data ref, 0) ∈ trace run.2
  /\ (alloc_call sample_data dist, 0) ∈ trace run.2
  /\ chroma sample_data = true
  /\ exists w h, (bitblt ref 2 (frame_of (reference sample_data) 3) w h, 0) ∈ trace run.2.
Proof.
  intros run0 run.
  assert (H1 : (createVideoFilter "VMAF" (vi sample_data) sample_data, 0) ∈ trace run0.2)
    by (vm_compute; in_trace).
  assert (H2 : numPlanes (format (vi sample_data)) = 3) by reflexivity.
  assert (H3 : (alloc_call sample_data ref, 0) ∈ trace run.2) by (vm_compute; in_trace).
  assert (H4 : (alloc_call sample_data dist, 0) ∈ trace run.2) by (vm_compute; in_trace).
  do 4 (split; [assumption|]).
  destruct (planes_copied (sample_world nothing_fails) sample_in "VMAF" []
              run0.1 run0.2 (trace run0.2) "VMAF" (vi sample_data) sample_data
              3 7 [] run.1 run.2 (trace run.2)
              (surjective_pairing run0) eq_refl H1 H2
              (surjective_pairing run) eq_refl H3 H4)
    as (_ & _ & _ & Hchroma).
  split; [reflexivity|]. by apply (Hchroma 2); [right|].
Defined.

(** C7 on an RGB reference clip.  The thrown literal leaves
    [vmafCreate]: no error is set on the output map, nothing is released. *)
Lemma unsupported_format_escapes_witness :
  unsupported_format (getVideoInfo (in_reference rgb_in)) = true
  /\ vmafCreate (sample_world nothing_fails) rgb_in "VMAF"
       {| data := make_unique_VMAFData; trace := [] |}
     = (inr (c_str "only constant YUV format integer input supported"),
        {| data := opened rgb_in "VMAF" make_unique_VMAFData; trace := [] |}).
Proof.
  assert (H : unsupported_format (getVideoInfo (in_reference rgb_in)) = true)
    by reflexivity.
  split; [exact H|].
  destruct (unsupported_format_escapes (sample_world nothing_fails) rgb_in "VMAF" []
              (or_introl H)) as (what & Hrun & _).
  rewrite Hrun. vm_compute in Hrun. by injection Hrun as <-.
Defined.


(** C9 on a request whose second model is out of range. *)
Lemma invalid_selection_rejected_witness :
  let in_ := sample_args (sample_clip 1 yuv420p8 64 48 10)
               (sample_clip 2 yuv420p8 64 48 10) (Some 3) (Some [0; 5]) None in
  let run := vmafCreate (sample_world nothing_fails) in_ "VMAF"
               {| data := make_unique_VMAFData; trace := [] |} in
  (exists m, m ∈ mapGetIntArray (in_model in_) /\ ~ 0 <= m <= 3)
  /\ count_if is_createVideoFilter (trace run.2) = 0%nat
  /\ (mapSetError "VMAF: model must be 0, 1, 2, or 3", 0) ∈ trace run.2.
Proof.
  intros in_ run.
  assert (H : exists m, m ∈ mapGetIntArray (in_model in_) /\ ~ 0 <= m <= 3).
  { exists 5. split; [cbn; in_trace|lia]. }
  split; [exact H|].
  destruct (invalid_selection_rejected (sample_world nothing_fails) in_ "VMAF" []
              run.1 run.2 (trace run.2) (surjective_pairing run) eq_refl)
    as [Hbad _].
  destruct Hbad as (Hnone & _ & _); [by left|].
  split; [exact Hnone|]. vm_compute. in_trace.
Defined.

(** C10 on the bootstrap request, which leaves [log_format] out. *)
Lemma omitted_arguments_default_witness :
  let run := vmafCreate (sample_world is_model_load) bootstrap_in "VMAF"
               {| data := make_unique_VMAFData; trace := [] |} in
  in_log_format bootstrap_in = None
  /\ (createVideoFilter "VMAF" (vi bootstrap_data) bootstrap_data, 0) ∈ trace run.2
  /\ logFormat bootstrap_data = VMAF_OUTPUT_FORMAT_XML.
Proof.
  intros run.
  split; [reflexivity|].
  assert (H : (createVideoFilter "VMAF" (vi bootstrap_data) bootstrap_data, 0)
                ∈ trace run.2) by (vm_compute; in_trace).
  split; [exact H|].
  destruct (omitted_arguments_default (sample_world is_model_load)
              (in_reference bootstrap_in) (in_distorted bootstrap_in)
              (in_log_path bootstrap_in) None (in_model bootstrap_in)
              (in_feature bootstrap_in) "VMAF")
    as (_ & _ & _ & _ & Hrun).
  destruct (Hrun [] run.1 run.2 (trace run.2) (surjective_pairing run) eq_refl)
    as [_ Hfmt].
  exact (Hfmt _ _ _ H).
Defined.

(** * The further properties on the sample clips *)

Ltac in_run := vm_compute; repeat first [ apply list_elem_of_here | apply list_elem_of_further ].

(** X1 on frame 3 of the sample filter. *)
Lemma fetched_frames_were_requested_witness :
  vmafGetFrame (sample_world nothing_fails) 3 arInitial 7
    {| data := sample_data; trace := [] |}
  = (inl None,
     {| data := sample_data;
        trace := [(requestFrameFilter 3 (reference sample_data), 0);
                  (requestFrameFilter 3 (distorted sample_data), 0)] |}).
Proof.
  exact (proj1 (fetched_frames_were_requested (sample_world nothing_fails)
                  sample_data 3 7 [] [])).
Defined.

(** X2 on frame 3 of the sample clips, when its submission fails. *)
Lemma fetched_frames_are_accounted_for_witness :
  let run := vmafGetFrame (sample_world is_read_pictures) 3 arAllFramesReady 7
               {| data := sample_data; trace := [] |} in
  run.1 = inl None
  /\ count_if is_freeFrame (trace run.2) = 2%nat
  /\ count_if is_picture_unref (trace run.2) = 2%nat.
Proof.
  intros run.
  destruct (fetched_frames_are_accounted_for (sample_world is_read_pictures)
              sample_data 3 7 [] run.1 run.2 (trace run.2)
              (surjective_pairing run) eq_refl)
    as (o & Hr & Hf & Hlen & _ & Hnone & _ & Hunref).
  assert (Ho : o = None).
  { apply Hnone. apply Exists_exists. exists (submit_call sample_data 3, -1).
    split; [in_run|done]. }
  subst o. split; [exact Hr|]. split; [|exact Hunref].
  rewrite Hf in Hlen. cbn in Hlen. lia.
Defined.

(** X3 on frame 3 of the sample clips, when the reference picture cannot
    be allocated. *)
Lemma failed_allocation_skips_the_frame_witness :
  let run := vmafGetFrame (sample_world (is_picture_alloc ref)) 3 arAllFramesReady 7
               {| data := sample_data; trace := [] |} in
  (alloc_call sample_data ref, -1) ∈ trace run.2
  /\ run.1 = inl None
  /\ count_if is_bitblt (trace run.2) = 0%nat
  /\ count_if (is_picture_alloc dist) (trace run.2) = 0%nat.
Proof.
  intros run.
  assert (H : (alloc_call sample_data ref, -1) ∈ trace run.2) by in_run.
  split; [exact H|].
  destruct (failed_allocation_skips_the_frame (sample_world (is_picture_alloc ref))
              sample_data 3 7 [] run.1 run.2 (trace run.2) ref (-1)
              (surjective_pairing run) eq_refl H ltac:(done))
    as (Hr & _ & Hb & _ & _ & Hd).
  split; [exact Hr|]. split; [exact Hb|]. exact (Hd eq_refl).
Defined.

(** X4 on frame 3 of the sample filter, which reads chroma: six copies. *)
Lemma planes_are_copied_in_order_witness :
  let run := vmafGetFrame (sample_world nothing_fails) 3 arAllFramesReady 7
               {| data := sample_data; trace := [] |} in
  (alloc_call sample_data ref, 0) ∈ trace run.2
  /\ (alloc_call sample_data dist, 0) ∈ trace run.2
  /\ planes_read sample_data = 3%nat
  /\ count_if is_bitblt (trace run.2) = 6%nat
  /\ row_size (sample_world nothing_fails) sample_data
       (frame_of (reference sample_data) 3) 1 = 32.
Proof.
  intros run.
  assert (H1 : (alloc_call sample_data ref, 0) ∈ trace run.2) by in_run.
  assert (H2 : (alloc_call sample_data dist, 0) ∈ trace run.2) by in_run.
  split; [exact H1|]. split; [exact H2|]. split; [reflexivity|].
  destruct (planes_are_copied_in_order (sample_world nothing_fails)
              sample_data 3 7 [] run.1 run.2 (trace run.2)
              (surjective_pairing run) eq_refl H1 H2)
    as ((code & rest & _ & _ & Hcount) & _ & Hrow).
  split; [exact Hcount|].
  rewrite Hrow; [reflexivity|]. vm_compute. split; congruence.
Defined.

(** X5 on the sample request. *)
Lemma created_filter_keeps_what_was_acquired_witness :
  let run := vmafCreate (sample_world nothing_fails) sample_in "VMAF"
               {| data := make_unique_VMAFData; trace := [] |} in
  (createVideoFilter "VMAF" (vi sample_data) sample_data, 0) ∈ trace run.2
  /\ count_if is_release (trace run.2) = 0%nat.
Proof.
  intros run.
  assert (H : (createVideoFilter "VMAF" (vi sample_data) sample_data, 0) ∈ trace run.2)
    by in_run.
  split; [exact H|].
  destruct (created_filter_keeps_what_was_acquired (sample_world nothing_fails)
              sample_in "VMAF" [] run.1 run.2 (trace run.2) _ _ _ _
              (surjective_pairing run) eq_refl H)
    as (_ & _ & _ & _ & _ & _ & _ & _ & _ & Hrel & _).
  exact Hrel.
Defined.

(** X6 on a request whose second model is out of range: the first model
    had been loaded. *)
Lemma reported_error_releases_everything_witness :
  let run := vmafCreate (sample_world nothing_fails) bad_model_in "VMAF"
               {| data := make_unique_VMAFData; trace := [] |} in
  (mapSetError "VMAF: model must be 0, 1, 2, or 3", 0) ∈ trace run.2
  /\ count_if is_freeNode (trace run.2) = 2%nat
  /\ count_if is_vmaf_close (trace run.2) = 1%nat.
Proof.
  intros run.
  assert (H : (mapSetError "VMAF: model must be 0, 1, 2, or 3", 0) ∈ trace run.2)
    by in_run.
  split; [exact H|].
  destruct (reported_error_releases_everything (sample_world nothing_fails)
              bad_model_in "VMAF" [] run.1 run.2 (trace run.2) _ _
              (surjective_pairing run) eq_refl H)
    as (_ & _ & _ & _ & _ & _ & Hnodes & Hclose).
  split; [exact Hnodes|exact Hclose].
Defined.

(** X7 on a request whose [log_format] is 7. *)
Lemma early_error_closes_the_null_context_witness :
  unsupported_format (getVideoInfo (in_reference bad_log_format_in)) = false
  /\ unsupported_depth (getVideoInfo (in_reference bad_log_format_in)) = false
  /\ log_format_out_of_range (mapGetIntSaturated (in_log_format bad_log_format_in)) = true
  /\ exists error d,
       vmafCreate (sample_world nothing_fails) bad_log_format_in "VMAF"
         {| data := make_unique_VMAFData; trace := [] |}
       = (inl tt,
          {| data := d;
             trace := [(mapSetError ("VMAF" +:+ ": " +:+ error), 0);
                       (freeNode (in_reference bad_log_format_in), 0);
                       (freeNode (in_distorted bad_log_format_in), 0);
                       (vmaf_close nullptr, 0)] |}).
Proof.
  split; [reflexivity|]. split; [reflexivity|]. split; [reflexivity|].
  destruct (early_error_closes_the_null_context (sample_world nothing_fails)
              bad_log_format_in "VMAF" [] eq_refl eq_refl (or_intror eq_refl))
    as (error & d & Hrun & _).
  exists error, d. exact Hrun.
Defined.

(** X8 on the sample request, when the CUDA state cannot be made. *)
Lemma cuda_failure_escapes_witness :
  let run := vmafCreate (sample_world is_cuda_state_init) sample_in "VMAF"
               {| data := make_unique_VMAFData; trace := [] |} in
  (vmaf_cuda_state_init, -1) ∈ trace run.2
  /\ run.1 = inr (c_str "problem during vmaf_cuda_state_init")
  /\ count_if is_release (trace run.2) = 0%nat
  /\ count_if is_mapSetError (trace run.2) = 0%nat.
Proof.
  intros run.
  assert (H : (vmaf_cuda_state_init, -1) ∈ trace run.2) by in_run.
  split; [exact H|].
  destruct (cuda_failure_escapes (sample_world is_cuda_state_init) sample_in "VMAF" []
              run.1 run.2 (trace run.2) _ _
              (surjective_pairing run) eq_refl H ltac:(done) (or_introl eq_refl))
    as (_ & _ & _ & Herr & _ & Hrel).
  split; [reflexivity|]. split; [exact Hrel|exact Herr].
Defined.

(** X9 on the request for two models and two features. *)
Lemma setup_runs_in_phases_witness :
  let run := vmafCreate (sample_world nothing_fails) two_models_in "VMAF"
               {| data := make_unique_VMAFData; trace := [] |} in
  exists init models features tail,
    trace run.2 = init ++ models ++ features ++ tail
    /\ Forall (fun e : Event => is_model_call e.1 = true) models
    /\ Forall (fun e : Event => is_feature_call e.1 = true) features
    /\ Forall (fun e : Event => is_setup_call e.1 = false) tail.
Proof.
  intros run.
  destruct (setup_runs_in_phases (sample_world nothing_fails) two_models_in "VMAF" []
              run.1 run.2 (trace run.2) (surjective_pairing run) eq_refl)
    as (init & models & features & tail & ctx & cu & Hnew & _ & Hm & Hf & Ht & _).
  exists init, models, features, tail. split; [exact Hnew|].
  split; [exact Hm|]. split; [exact Hf|exact Ht].
Defined.

(** X10 on the request for the models 1 and 0 and the features 2 and 4. *)
Lemma requests_are_honoured_in_order_witness :
  let run := vmafCreate (sample_world nothing_fails) two_models_in "VMAF"
               {| data := make_unique_VMAFData; trace := [] |} in
  (createVideoFilter "VMAF" (vi (data run.2)) (data run.2), 0) ∈ trace run.2
  /\ map fst (select is_model_load (trace run.2))
     = [vmaf_model_load "vmaf_neg" "vmaf_v0.6.1neg"; vmaf_model_load "vmaf" "vmaf_v0.6.1"]
  /\ select is_feature_call (trace run.2)
     = [(vmaf_use_feature (vmaf (data run.2)) "float_ssim", 0);
        (vmaf_use_feature (vmaf (data run.2)) "ciede", 0)].
Proof.
  intros run.
  assert (H : (createVideoFilter "VMAF" (vi (data run.2)) (data run.2), 0) ∈ trace run.2)
    by in_run.
  split; [exact H|].
  exact (requests_are_honoured_in_order (sample_world nothing_fails) two_models_in "VMAF"
           [] run.1 run.2 (trace run.2) _ _ _ (surjective_pairing run) eq_refl H).
Defined.

(** X11 on a request whose second model is out of range: one model was
    loaded, two entries are destroyed. *)
Lemma failed_setup_destroys_every_entry_witness :
  let run := vmafCreate (sample_world nothing_fails) bad_model_in "VMAF"
               {| data := make_unique_VMAFData; trace := [] |} in
  (mapSetError "VMAF: model must be 0, 1, 2, or 3", 0) ∈ trace run.2
  /\ clips_match bad_model_in
  /\ (vmaf_cuda_import_state 100 101, 0) ∈ trace run.2
  /\ count_if is_model_load (trace run.2) = 1%nat
  /\ count_if is_model_destroy (trace run.2) = 2%nat.
Proof.
  intros run.
  assert (H : (mapSetError "VMAF: model must be 0, 1, 2, or 3", 0) ∈ trace run.2)
    by in_run.
  assert (Hm : clips_match bad_model_in) by (split; reflexivity).
  assert (Hi : (vmaf_cuda_import_state 100 101, 0) ∈ trace run.2) by in_run.
  split; [exact H|]. split; [exact Hm|]. split; [exact Hi|]. split; [reflexivity|].
  destruct (failed_setup_destroys_every_entry (sample_world nothing_fails)
              bad_model_in "VMAF" [] run.1 run.2 (trace run.2) _ _
              (surjective_pairing run) eq_refl H)
    as (_ & _ & _ & _ & Hsized).
  exact (Hsized Hm (ex_intro _ 100 (ex_intro _ 101 Hi))).
Defined.

(** X12 on the filter of the bootstrap model, resolved as a collection. *)
Lemma registered_handles_are_destroyed_witness :
  let run0 := vmafCreate (sample_world is_model_load) bootstrap_in "VMAF"
                {| data := make_unique_VMAFData; trace := [] |} in
  let run := vmafFree (sample_world nothing_fails)
               {| data := bootstrap_data; trace := [] |} in
  (createVideoFilter "VMAF" (vi bootstrap_data) bootstrap_data, 0) ∈ trace run0.2
  /\ made_by_an_earlier_call [] = false
  /\ (vmaf_use_features_from_model_collection 100 204, 0) ∈ trace run0.2
  /\ vmaf_model_collection_destroy 204 ∈ without_log (trace run.2)
  /\ last (without_log (trace run.2)) = Some (vmaf_close 100).
Proof.
  intros run0 run.
  assert (H : (createVideoFilter "VMAF" (vi bootstrap_data) bootstrap_data, 0)
                ∈ trace run0.2) by in_run.
  assert (Hc : (vmaf_use_features_from_model_collection 100 204, 0) ∈ trace run0.2)
    by in_run.
  split; [exact H|]. split; [reflexivity|]. split; [exact Hc|].
  destruct (registered_handles_are_destroyed (sample_world is_model_load) bootstrap_in
              "VMAF" [] run0.1 run0.2 (trace run0.2) _ _ _ [] run.1 run.2 (trace run.2)
              (surjective_pairing run0) eq_refl H eq_refl (surjective_pairing run) eq_refl)
    as (_ & _ & Hcol & _ & Hlast).
  split; [exact (proj2 (proj2 (Hcol _ _ _ Hc)))|exact Hlast].
Defined.

(** X13 on the sample request. *)
Lemma created_filter_format_witness :
  let run := vmafCreate (sample_world nothing_fails) sample_in "VMAF"
               {| data := make_unique_VMAFData; trace := [] |} in
  (createVideoFilter "VMAF" (vi sample_data) sample_data, 0) ∈ trace run.2
  /\ pixelFormat sample_data = VMAF_PIX_FMT_YUV420P
  /\ bitsPerSample (format (vi sample_data)) ∈ [8; 10; 12; 16].
Proof.
  intros run.
  assert (H : (createVideoFilter "VMAF" (vi sample_data) sample_data, 0) ∈ trace run.2)
    by in_run.
  split; [exact H|]. split; [reflexivity|].
  destruct (created_filter_format (sample_world nothing_fails) sample_in "VMAF" []
              run.1 run.2 (trace run.2) _ _ _ (surjective_pairing run) eq_refl H)
    as (_ & _ & _ & Hbits & _).
  exact Hbits.
Defined.

(** X14 on the bootstrap request, whose singleton load fails. *)
Lemma valid_request_creates_the_filter_witness :
  let run := vmafCreate (sample_world is_model_load) bootstrap_in "VMAF"
               {| data := make_unique_VMAFData; trace := [] |} in
  supported (getVideoInfo (in_reference bootstrap_in))
  /\ clips_match bootstrap_in
  /\ NoDup (mapGetIntArray (in_model bootstrap_in))
  /\ Exists (fun e : Event => e.2 <> 0) (trace run.2)
  /\ run.1 = inl tt
  /\ last (trace run.2)
     = Some (createVideoFilter "VMAF" (getVideoInfo (in_reference bootstrap_in))
               (data run.2), 0).
Proof.
  intros run.
  assert (Hs : supported (getVideoInfo (in_reference bootstrap_in)))
    by (repeat split; reflexivity).
  assert (Hm : clips_match bootstrap_in) by (split; reflexivity).
  assert (Hnd : NoDup (mapGetIntArray (in_model bootstrap_in))).
  { cbn. apply NoDup_singleton. }
  assert (Hok : Forall (fun e : Event => e.2 = 0 \/ is_model_load e.1 = true) (trace run.2)).
  { vm_compute.
    repeat first [ apply Forall_nil_2
                 | apply Forall_cons_2; [first [by left | by right]|] ]. }
  split; [exact Hs|]. split; [exact Hm|]. split; [exact Hnd|].
  split.
  { apply Exists_exists. exists (vmaf_model_load "vmaf_b" "vmaf_b_v0.6.3", -1).
    split; [in_run|done]. }
  exact (valid_request_creates_the_filter (sample_world is_model_load) bootstrap_in
           "VMAF" [] run.1 run.2 (trace run.2) (surjective_pairing run) eq_refl
           Hs Hm ltac:(intros x Hx; discriminate Hx)
           ltac:(cbn; repeat constructor; lia) Hnd
           ltac:(cbn; constructor) ltac:(cbn; constructor) Hok).
Defined.

(** X15 on the sample filter, whose log is requested as JSON. *)
Lemma teardown_uses_the_arguments_witness :
  let run0 := vmafCreate (sample_world nothing_fails) sample_in "VMAF"
                {| data := make_unique_VMAFData; trace := [] |} in
  let run := vmafFree (sample_world nothing_fails)
               {| data := sample_data; trace := [] |} in
  (createVideoFilter "VMAF" (vi sample_data) sample_data, 0) ∈ trace run0.2
  /\ made_by_an_earlier_call [] = false
  /\ vmaf_write_output (vmaf sample_data) "vmaf.log" VMAF_OUTPUT_FORMAT_JSON
       ∈ without_log (trace run.2)
  /\ count_if is_write_output (trace run.2) = 1%nat.
Proof.
  intros run0 run.
  assert (H : (createVideoFilter "VMAF" (vi sample_data) sample_data, 0) ∈ trace run0.2)
    by in_run.
  split; [exact H|]. split; [reflexivity|].
  destruct (teardown_uses_the_arguments (sample_world nothing_fails) sample_in "VMAF" []
              run0.1 run0.2 (trace run0.2) _ _ _ [] run.1 run.2 (trace run.2)
              (surjective_pairing run0) eq_refl H eq_refl (surjective_pairing run) eq_refl)
    as (_ & Hw & _ & _ & Hone & _).
  split; [exact Hw|exact Hone].
Defined.


(** X17 on the sample request, frame 3 and the teardown of the sample
    filter. *)
Lemma each_callback_reports_its_own_way_witness :
  exists new0 new1 new2,
    trace (vmafCreate (sample_world nothing_fails) sample_in "VMAF"
             {| data := make_unique_VMAFData; trace := [] |}).2 = new0
    /\ trace (vmafGetFrame (sample_world is_read_pictures) 3 arAllFramesReady 7
                {| data := sample_data; trace := [] |}).2 = new1
    /\ trace (vmafFree (sample_world is_score_pooled)
                {| data := sample_data; trace := [] |}).2 = new2
    /\ count_if is_logMessage new0 = 0%nat
    /\ count_if is_logMessage new1 = 0%nat
    /\ count_if is_setFilterError new2 = 0%nat.
Proof.
  destruct (each_callback_reports_its_own_way (sample_world nothing_fails) sample_in
              "VMAF" sample_data 3 arAllFramesReady 7 [] [] [])
    as (new0 & _ & _ & H0 & _ & _ & _ & _ & Hlog & _).
  destruct (each_callback_reports_its_own_way (sample_world is_read_pictures) sample_in
              "VMAF" sample_data 3 arAllFramesReady 7 [] [] [])
    as (_ & new1 & _ & _ & H1 & _ & _ & _ & _ & _ & _ & Hlog1 & _).
  destruct (each_callback_reports_its_own_way (sample_world is_score_pooled) sample_in
              "VMAF" sample_data 3 arAllFramesReady 7 [] [] [])
    as (_ & _ & new2 & _ & _ & H2 & _ & _ & _ & _ & _ & _ & _ & Hset).
  exists new0, new1, new2. cbn [app] in H0, H1, H2.
  split; [exact H0|]. split; [exact H1|]. split; [exact H2|].
  split; [exact Hlog|]. split; [exact Hlog1|exact Hset].
Defined.

(** X18 on a request for the models 0 and 5: model 0 is loaded, then the
    request is rejected. *)
Lemma models_are_checked_one_at_a_time_witness :
  let run := vmafCreate (sample_world nothing_fails) bad_model_in "VMAF"
               {| data := make_unique_VMAFData; trace := [] |} in
  in_model bad_model_in = Some ([0] ++ 5 :: [])
  /\ Forall (fun e : Event => e.2 = 0) (trace run.2)
  /\ map fst (select is_model_load (trace run.2)) = [vmaf_model_load "vmaf" "vmaf_v0.6.1"]
  /\ (mapSetError "VMAF: model must be 0, 1, 2, or 3", 0) ∈ trace run.2.
Proof.
  intros run.
  assert (Hok : Forall (fun e : Event => e.2 = 0) (trace run.2)).
  { vm_compute. repeat first [ apply Forall_nil_2 | apply Forall_cons_2; [reflexivity|] ]. }
  split; [reflexivity|]. split; [exact Hok|].
  destruct (models_are_checked_one_at_a_time (sample_world nothing_fails) bad_model_in
              "VMAF" [] run.1 run.2 (trace run.2) [0] 5 []
              (surjective_pairing run) eq_refl
              ltac:(repeat split; reflexivity) ltac:(split; reflexivity)
              ltac:(intros x [= <-]; lia) eq_refl
              ltac:(repeat constructor; cbn; lia) ltac:(left; lia) Hok)
    as (Hloads & Herr & _).
  split; [exact Hloads|exact Herr].
Defined.

(** X19 on a distorted clip half as wide as the reference. *)
Lemma clips_are_compared_after_the_engine_is_set_up_witness :
  let run := vmafCreate (sample_world nothing_fails) narrow_in "VMAF"
               {| data := make_unique_VMAFData; trace := [] |} in
  supported (getVideoInfo (in_reference narrow_in))
  /\ ~ clips_match narrow_in
  /\ Forall (fun e : Event => e.2 = 0) (trace run.2)
  /\ run.1 = inl tt
  /\ length (trace run.2) = 7%nat
  /\ last (trace run.2) = Some (vmaf_close 100, 0).
Proof.
  intros run.
  assert (Hs : supported (getVideoInfo (in_reference narrow_in)))
    by (repeat split; reflexivity).
  assert (Hd : ~ clips_match narrow_in) by (intros [H _]; vm_compute in H; discriminate H).
  assert (Hok : Forall (fun e : Event => e.2 = 0) (trace run.2)).
  { vm_compute. repeat first [ apply Forall_nil_2 | apply Forall_cons_2; [reflexivity|] ]. }
  split; [exact Hs|]. split; [exact Hd|]. split; [exact Hok|].
  destruct (clips_are_compared_after_the_engine_is_set_up (sample_world nothing_fails)
              narrow_in "VMAF" [] run.1 run.2 (trace run.2)
              (surjective_pairing run) eq_refl Hs
              ltac:(intros x Hx; discriminate Hx) Hd Hok)
    as (Hr & ctx & cu & error & Hnew & Hctx & _).
  split; [exact Hr|]. rewrite Hnew, Hctx. split; reflexivity.
Defined.

(** X20 on the bootstrap request. *)
Lemma tables_are_read_in_range_witness :
  let run := vmafCreate (sample_world is_model_load) bootstrap_in "VMAF"
               {| data := make_unique_VMAFData; trace := [] |} in
  (vmaf_model_collection_load "vmaf_b" "vmaf_b_v0.6.3", 0) ∈ trace run.2
  /\ exists i : nat,
       modelName !! i = Some "vmaf_b"%string
       /\ modelVersion !! i = Some "vmaf_b_v0.6.3"%string.
Proof.
  intros run.
  assert (H : (vmaf_model_collection_load "vmaf_b" "vmaf_b_v0.6.3", 0) ∈ trace run.2)
    by in_run.
  split; [exact H|].
  destruct (tables_are_read_in_range (sample_world is_model_load) bootstrap_in "VMAF" []
              run.1 run.2 (trace run.2) (surjective_pairing run) eq_refl)
    as [Hmodels _].
  exact (Hmodels _ _ _ (or_intror H)).
Defined.

(** X21 on a request for the model 0 and the features 0 and 7: the model is
    loaded and PSNR registered, then the request is rejected. *)
Lemma features_are_checked_after_the_models_witness :
  let run := vmafCreate (sample_world nothing_fails) bad_feature_in "VMAF"
               {| data := make_unique_VMAFData; trace := [] |} in
  in_feature bad_feature_in = Some ([0] ++ 7 :: [])
  /\ Forall (fun e : Event => e.2 = 0) (trace run.2)
  /\ map fst (select is_model_load (trace run.2)) = [vmaf_model_load "vmaf" "vmaf_v0.6.1"]
  /\ (mapSetError "VMAF: feature must be 0, 1, 2, 3, or 4", 0) ∈ trace run.2
  /\ count_if is_model_destroy (trace run.2) = 1%nat.
Proof.
  intros run.
  assert (Hok : Forall (fun e : Event => e.2 = 0) (trace run.2)).
  { vm_compute. repeat first [ apply Forall_nil_2 | apply Forall_cons_2; [reflexivity|] ]. }
  split; [reflexivity|]. split; [exact Hok|].
  destruct (features_are_checked_after_the_models (sample_world nothing_fails)
              bad_feature_in "VMAF" [] run.1 run.2 (trace run.2) [0] 7 []
              (surjective_pairing run) eq_refl
              ltac:(repeat split; reflexivity) ltac:(split; reflexivity)
              ltac:(intros x [= <-]; lia)
              ltac:(cbn; repeat constructor; lia) ltac:(cbn; apply NoDup_singleton)
              eq_refl
              ltac:(repeat constructor; cbn; lia) ltac:(left; lia) Hok)
    as (Hloads & _ & Herr & Hdestroy).
  split; [exact Hloads|]. split; [exact Herr|exact Hdestroy].
Defined.

